(** * LuluTracker: the background service worker (src/background.js)

    A shallow embedding of the product monitoring engine: the snapshot
    extractor [parseProductHtml], the change detector [detectChanges], the
    markdown transition resolver [checkMarkdownTransition], the check
    orchestrator [checkAllProducts] and the badge [updateBadge]; then the
    handlers of the worker, [addProduct], [removeProduct],
    [clearChangeMarkers] and the listeners for messages, alarms and clicks
    on notifications, with the titles that [sendNotification] gives.

    Modelling conventions.
    - JavaScript numbers are only compared, tested for truthiness and
      stored by this code, never added or multiplied; they are modelled as
      [NaN] or an exact rational.
    - The builtin [parseFloat] on strings is a parameter of the development
      (the class [Builtins]).
    - A fetched HTML document is modelled by what the code observes of it:
      the text itself (for [String.prototype.includes]), and the outcome of
      each regular expression match and [JSON.parse] call made on it.
    - JSON payloads are typed records that follow the storefront schema; an
      absent (or falsy) field is [None] or the empty string.
    - The outside world (network, clock, notification service) is an
      environment of oracles indexed by a logical clock. *)

From Stdlib Require Import QArith Qcanon.
From Stdlib Require Import Ascii String.
From stdpp Require Import base option list numbers strings gmap pretty.

#[local] Set Warnings "-clear-no-such-hyp".

Local Open Scope string_scope.
Local Open Scope list_scope.

(** ** JavaScript numbers and values *)

Inductive number : Type :=
| NaN
| Num (q : Qc).

Global Instance number_eq_dec : EqDecision number.
Proof. solve_decision. Defined.

(** [if (x)] on a number: zero and NaN are falsy. *)
Definition number_truthy (n : number) : bool :=
  match n with
  | NaN => false
  | Num q => negb (bool_decide (q = Q2Qc 0))
  end.

(** [a < b] *)
Definition number_lt (a b : number) : bool :=
  match a, b with
  | Num x, Num y => bool_decide (x < y)%Qc
  | _, _ => false
  end.

(** [a === b] on numbers: NaN is equal to nothing. *)
Definition number_eq (a b : number) : bool :=
  match a, b with
  | Num x, Num y => bool_decide (x = y)
  | _, _ => false
  end.

(** A scalar found in a JSON payload where the code expects a price. *)
Inductive JsVal : Type :=
| JUndefined
| JNumber (n : number)
| JString (s : string).

Definition string_truthy (s : string) : bool := negb (bool_decide (s = "")).

Definition js_truthy (v : JsVal) : bool :=
  match v with
  | JUndefined => false
  | JNumber n => number_truthy n
  | JString s => string_truthy s
  end.

(** [x || null] for a number [x]. *)
Definition or_null (n : number) : option number :=
  if number_truthy n then Some n else None.

(** [if (x)] for a price that is a number or null. *)
Definition price_truthy (p : option number) : bool :=
  match p with
  | Some n => number_truthy n
  | None => false
  end.

(** ** Strings *)

(** [s.includes(needle)] *)
Definition includes (s needle : string) : bool :=
  match String.index 0 needle s with
  | Some _ => true
  | None => false
  end.

Definition startsWith (s p : string) : bool := String.prefix p s.

Definition endsWith (s p : string) : bool :=
  let n := String.length s in
  let m := String.length p in
  if (m <=? n)%nat then bool_decide (String.substring (n - m) m s = p) else false.

(** [s.split(c)] for a one-character separator. *)
Fixpoint split_on (c : ascii) (s : string) : list string :=
  match s with
  | EmptyString => [EmptyString]
  | String a r =>
      if Ascii.eqb a c then EmptyString :: split_on c r
      else match split_on c r with
           | h :: t => String a h :: t
           | [] => [String a EmptyString]
           end
  end.

(** The part of [s] after the first [c]; empty when [c] does not occur. *)
Fixpoint after_char (c : ascii) (s : string) : string :=
  match s with
  | EmptyString => EmptyString
  | String a r => if Ascii.eqb a c then r else after_char c r
  end.

Fixpoint drop_string (n : nat) (s : string) : string :=
  match n, s with
  | O, _ => s
  | S n', String _ r => drop_string n' r
  | S _, EmptyString => EmptyString
  end.

(** [s.replace(pat, rep)] for a literal pattern: first occurrence only. *)
Fixpoint replace_first (pat rep s : string) : string :=
  if String.prefix pat s then rep ++ drop_string (String.length pat) s
  else match s with
       | EmptyString => EmptyString
       | String a r => String a (replace_first pat rep r)
       end.

Definition lower_ascii (a : ascii) : ascii :=
  let n := nat_of_ascii a in
  if ((65 <=? n) && (n <=? 90))%nat then ascii_of_nat (n + 32) else a.

(** [s.toLowerCase()], on the ASCII letters. *)
Fixpoint toLowerCase (s : string) : string :=
  match s with
  | EmptyString => EmptyString
  | String a r => String (lower_ascii a) (toLowerCase r)
  end.

(** ** URLs

    Tracked URLs are [window.location.href] values of a storefront page,
    hence absolute: [new URL(url)] accepts them.  The model is for such
    URLs: the [catch] of [getColorCodeFromUrl], which answers null for a
    string that [new URL] rejects (a relative path, say), is not modelled,
    nor is percent-decoding (color codes and sizes are plain
    alphanumerics). *)

(** [new URL(url).search] without its leading question mark. *)
Definition url_search (url : string) : string :=
  after_char "?" (hd EmptyString (split_on "#" url)).

(** [new URLSearchParams(search).entries()] *)
Definition URLSearchParams (search : string) : list (string * string) :=
  (λ kv, (hd EmptyString (split_on "=" kv), after_char "=" kv))
    <$> filter (λ kv, kv ≠ EmptyString) (split_on "&" search).

(** [params.get(key)] *)
Definition params_get (key : string) (params : list (string * string))
  : option string :=
  snd <$> List.find (λ kv, bool_decide (fst kv = key)) params.

(** [product.url.split('?')[0]] *)
Definition baseUrl (url : string) : string :=
  hd EmptyString (split_on "?" url).

Definition getColorCodeFromUrl (url : string) : option string :=
  let params := URLSearchParams (url_search url) in
  match params_get "color" params with
  | Some usColor =>
      if string_truthy usColor then Some usColor
      else snd <$> List.find (λ kv, startsWith (fst kv) "dwvar_" && endsWith (fst kv) "_color") params
  | None =>
      snd <$> List.find (λ kv, startsWith (fst kv) "dwvar_" && endsWith (fst kv) "_color") params
  end.

(** Builtins of the JavaScript runtime that are taken as given. *)
Class Builtins := {
  (** [parseFloat(s)] on a string *)
  parseFloat_string : string → number;
}.

(** [parseFloat(v)]: a number is printed and read back, [undefined] and
    [null] give NaN. *)
Definition parseFloat {B : Builtins} (v : JsVal) : number :=
  match v with
  | JUndefined => NaN
  | JNumber n => n
  | JString s => parseFloat_string s
  end.

(** ** Data model *)

(** [{code, name}] *)
Record Color := {
  c_code : string;
  c_name : string;
}.

Inductive ChangeType :=
| t_status_change
| t_price_change
| t_went_on_sale
| t_new_color
| t_moved_to_markdown.

(** A change event.  The prices of [moved_to_markdown] are [None] where the
    code stores the placeholder ['?']. *)
Inductive Change :=
| status_change (from to : string)
| price_change (from to : number)
| went_on_sale
| new_color (color : string)
| moved_to_markdown (salePrice listPrice : option number).

(** [c.type] *)
Definition change_type (c : Change) : ChangeType :=
  match c with
  | status_change _ _ => t_status_change
  | price_change _ _ => t_price_change
  | went_on_sale => t_went_on_sale
  | new_color _ => t_new_color
  | moved_to_markdown _ _ => t_moved_to_markdown
  end.

Global Instance Color_eq_dec : EqDecision Color.
Proof. solve_decision. Defined.
Global Instance ChangeType_eq_dec : EqDecision ChangeType.
Proof. solve_decision. Defined.
Global Instance Change_eq_dec : EqDecision Change.
Proof. solve_decision. Defined.

(** A tracked product as stored under [trackedProducts].  [productId] and
    [size] are the empty string when the content script stored a falsy
    value; [availableColors] is [None] when the field is missing. *)
Record Product := {
  productId : string;
  color : string;
  size : string;
  name : string;
  productLine : string;
  url : string;
  region : string;
  image : string;
  currentPrice : option number;
  originalPrice : option number;
  onSale : bool;
  stockStatus : string;
  availableColors : option (list Color);
  markdownUrl : option string;
  trackNewColors : bool;
  addedAt : Z;
  lastChecked : Z;
  lastChange : option (ChangeType * Z);
}.

Global Instance Product_eq_dec : EqDecision Product.
Proof. solve_decision. Defined.

(** The [result] object of [parseProductHtml] ([newData] for its callers). *)
Record Snapshot := {
  snap_currentPrice : option number;
  snap_originalPrice : option number;
  snap_onSale : bool;
  snap_stockStatus : string;
  snap_availableColors : list Color;
}.

Definition with_currentPrice (v : option number) (r : Snapshot) : Snapshot :=
  {| snap_currentPrice := v; snap_originalPrice := snap_originalPrice r;
     snap_onSale := snap_onSale r; snap_stockStatus := snap_stockStatus r;
     snap_availableColors := snap_availableColors r |}.
Definition with_originalPrice (v : option number) (r : Snapshot) : Snapshot :=
  {| snap_currentPrice := snap_currentPrice r; snap_originalPrice := v;
     snap_onSale := snap_onSale r; snap_stockStatus := snap_stockStatus r;
     snap_availableColors := snap_availableColors r |}.
Definition with_onSale (v : bool) (r : Snapshot) : Snapshot :=
  {| snap_currentPrice := snap_currentPrice r; snap_originalPrice := snap_originalPrice r;
     snap_onSale := v; snap_stockStatus := snap_stockStatus r;
     snap_availableColors := snap_availableColors r |}.
Definition with_stockStatus (v : string) (r : Snapshot) : Snapshot :=
  {| snap_currentPrice := snap_currentPrice r; snap_originalPrice := snap_originalPrice r;
     snap_onSale := snap_onSale r; snap_stockStatus := v;
     snap_availableColors := snap_availableColors r |}.
Definition with_availableColors (v : list Color) (r : Snapshot) : Snapshot :=
  {| snap_currentPrice := snap_currentPrice r; snap_originalPrice := snap_originalPrice r;
     snap_onSale := snap_onSale r; snap_stockStatus := snap_stockStatus r;
     snap_availableColors := v |}.

(** *** The [__NEXT_DATA__] payload (US site) *)

Record Price := {
  listPrice : JsVal;
  salePrice : JsVal;
}.

Record Sku := {
  sku_color_code : option string;   (* s.color?.code *)
  sku_size : string;
  sku_price : option Price;
  sku_available : bool;             (* truthiness of s.available *)
}.

Record ColorDriver := {
  cd_color : string;
  cd_sizes : list string;
}.

(** Absent identifiers are the empty string (the code reads them with
    [|| '']). *)
Record ProductSummary := {
  isSoldOut : bool;
  ps_productId : string;
  unifiedId : string;
  parentCategoryUnifiedId : string;
}.

(** [q?.state?.data] of one dehydrated query. *)
Record QueryData := {
  productSummary : option ProductSummary;
  skus : option (list Sku);
  colors : option (list Color);
  colorDriver : option (list ColorDriver);
}.

(** [nextData?.props?.pageProps?.dehydratedState?.queries || []], each
    query reduced to its [state.data] when it has one. *)
Definition NextData := list (option QueryData).

(** *** The JSON-LD payload (SFCC sites) *)

Record Offers := {
  o_price : JsVal;
  o_availability : string;
}.

Record Variant := {
  v_color : string;
  v_size : string;
  v_offers : option Offers;
}.

Record LdDoc := {
  ld_type : string;                       (* ld['@type'] *)
  hasVariant : option (list Variant);
}.

(** *** A fetched document, as the code observes it *)

Record Page := {
  (** the text, for [includes] *)
  html : string;
  (** the [__NEXT_DATA__] script: [None] when the regular expression does not
      match, [Some None] when [JSON.parse] throws on its content *)
  next_data_script : option (option NextData);
  (** the [application/ld+json] scripts in document order, [None] for one
      on which [JSON.parse] (or the access to [@type]) throws *)
  ld_json_scripts : list (option LdDoc);
  (** whether the [stock-avail-msg ... display: block] expression matches *)
  stock_avail_msg_visible : bool;
  (** the digits captured by the first of the two price expressions that
      matches *)
  price_match : option string;
}.

(** ** The change detector *)

Definition detectChanges (oldProduct : Product) (newData : Snapshot) : list Change :=
  (* stock availability *)
  (if bool_decide (stockStatus oldProduct ≠ snap_stockStatus newData)
   then [status_change (stockStatus oldProduct) (snap_stockStatus newData)]
   else [])
  ++
  (* price *)
  match currentPrice oldProduct, snap_currentPrice newData with
  | Some old, Some new =>
      if number_truthy old && number_truthy new && negb (number_eq old new)
      then [price_change old new] else []
  | _, _ => []
  end
  ++
  (* sale status *)
  (if negb (onSale oldProduct) && snap_onSale newData then [went_on_sale] else [])
  ++
  (* new colors: an array, even an empty one, is truthy *)
  (if trackNewColors oldProduct then
     match availableColors oldProduct with
     | Some oldColors =>
         let oldCodes := c_code <$> oldColors in
         (λ newColor, new_color (c_name newColor))
           <$> filter (λ newColor, c_code newColor ∉ oldCodes) (snap_availableColors newData)
     | None => []
     end
   else []).

(** ** The snapshot extractor *)

Section Extractor.
Context {B : Builtins}.

(** [!product.size || product.size === 'Not selected'] *)
Definition size_unselected (product : Product) : bool :=
  negb (string_truthy (size product)) || bool_decide (size product = "Not selected").

(** The predicate of [skus.find] shared by the extractor and the resolver. *)
Definition sku_matches (colorCode : string) (product : Product) (s : Sku) : bool :=
  bool_decide (sku_color_code s = Some colorCode)
  && (size_unselected product || bool_decide (sku_size s = size product)).

(** The first query whose data has both [productSummary] and [skus]. *)
Definition find_query_data (queries : NextData) : option QueryData :=
  mjoin (List.find
           (λ q, match q with
                 | Some data => bool_decide (is_Some (productSummary data))
                                && bool_decide (is_Some (skus data))
                 | None => false
                 end) queries).

(** [queryData.skus], present on every query [find_query_data] selects. *)
Definition qd_skus (queryData : QueryData) : list Sku := default [] (skus queryData).

(** The price block of a matching SKU. *)
Definition sku_price_update (price : Price) (result : Snapshot) : Snapshot :=
  let listPrice := or_null (parseFloat (listPrice price)) in
  let salePrice := if js_truthy (salePrice price)
                   then Some (parseFloat (salePrice price)) else None in
  let result := with_currentPrice listPrice result in
  match salePrice, listPrice with
  | Some sale, Some list =>
      if number_truthy sale && number_truthy list && number_lt sale list
      then with_onSale true (with_currentPrice (Some sale) (with_originalPrice (Some list) result))
      else result
  | _, _ => result
  end.

(** Strategy 1, the body run once [queryData] is found. *)
Definition apply_query_data (product : Product) (queryData : QueryData)
    (result : Snapshot) : Snapshot :=
  let result :=
    match productSummary queryData with
    | Some ps => if isSoldOut ps then with_stockStatus "sold_out" result else result
    | None => result
    end in
  let result :=
    match colors queryData with
    | Some cs => with_availableColors
                   ((λ c, {| c_code := c_code c; c_name := c_name c |}) <$> cs) result
    | None => result
    end in
  let colorCode := getColorCodeFromUrl (url product) in
  let result :=
    match colorCode with
    | Some code =>
        if string_truthy code then
          match List.find (sku_matches code product) (qd_skus queryData) with
          | Some matchingSku =>
              let result :=
                match sku_price matchingSku with
                | Some price => sku_price_update price result
                | None => result
                end in
              if negb (sku_available matchingSku)
              then with_stockStatus "sold_out" result else result
          | None =>
              if negb (size_unselected product) then
                match colorDriver queryData
                      ≫= List.find (λ cd, bool_decide (cd_color cd = code)) with
                | Some cd =>
                    if negb (bool_decide (size product ∈ cd_sizes cd))
                    then with_stockStatus "sold_out" result else result
                | None => result
                end
              else result
          end
        else result
    | None => result
    end in
  match qd_skus queryData with
  | first :: _ =>
      if negb (price_truthy (snap_currentPrice result))
      then with_currentPrice
             (or_null (parseFloat (from_option listPrice JUndefined (sku_price first))))
             result
      else result
  | [] => result
  end.

(** The colors of the variants, first occurrence of each name kept (the
    insertion order of the [Map]). *)
Fixpoint variant_colors (seen : list string) (variants : list Variant) : list Color :=
  match variants with
  | [] => []
  | v :: rest =>
      if string_truthy (v_color v) && negb (bool_decide (v_color v ∈ seen))
      then {| c_code := v_color v; c_name := v_color v |}
             :: variant_colors (v_color v :: seen) rest
      else variant_colors seen rest
  end.

(** [(v.offers?.availability || '').includes('OutOfStock')] *)
Definition out_of_stock (v : Variant) : bool :=
  includes (from_option o_availability "" (v_offers v)) "OutOfStock".

(** Strategy 2, the body run on the first [ProductGroup] document. *)
Definition apply_product_group (product : Product) (ld : LdDoc)
    (result : Snapshot) : Snapshot :=
  let variants := default [] (hasVariant ld) in
  let result := with_availableColors (variant_colors [] variants) result in
  let colorName := color product in
  let colorVariants :=
    if string_truthy colorName
    then filter (λ v, v_color v = colorName) variants else [] in
  match colorVariants with
  | first :: _ =>
      let price := parseFloat (from_option o_price JUndefined (v_offers first)) in
      let result :=
        if number_lt (Num (Q2Qc 0)) price
        then with_currentPrice (Some price) result else result in
      let result :=
        if negb (size_unselected product) then
          match List.find (λ v, bool_decide (v_size v = size product)) colorVariants with
          | Some sizeMatch =>
              if out_of_stock sizeMatch
              then with_stockStatus "sold_out" result else result
          | None => result
          end
        else result in
      if forallb out_of_stock colorVariants
      then with_stockStatus "sold_out" result else result
  | [] => result
  end.

Definition isIntl (product : Product) : bool :=
  includes (url product) ".html"
  || includes (url product) "lululemon.com.hk"
  || includes (url product) "lululemon.com.au".

(** The regular-expression fallback for the stock status. *)
Definition stock_fallback (page : Page) (product : Product)
    (result : Snapshot) : Snapshot :=
  if negb (isIntl product) then
    let htmlLower := toLowerCase (html page) in
    let result :=
      if includes (html page) "pdp-inventory-low-stock-warning"
         || includes htmlLower "hurry, only a few left"
         || includes htmlLower "only a few left"
         || includes htmlLower "almost gone"
      then
        if bool_decide (snap_stockStatus result ≠ "sold_out")
        then with_stockStatus "low_stock" result else result
      else result in
    if bool_decide (snap_stockStatus result ≠ "sold_out")
       && bool_decide (snap_stockStatus result ≠ "low_stock")
    then
      if includes htmlLower ">sold out<" || includes htmlLower ">out of stock<"
      then with_stockStatus "sold_out" result else result
    else result
  else
    if bool_decide (snap_stockStatus result = "in_stock") then
      if stock_avail_msg_visible page
      then with_stockStatus "low_stock" result else result
    else result.

Definition parseProductHtml (page : Page) (product : Product) : Snapshot :=
  let result :=
    {| snap_currentPrice := None; snap_originalPrice := None; snap_onSale := false;
       snap_stockStatus := "in_stock"; snap_availableColors := [] |} in
  (* Strategy 1: __NEXT_DATA__; a throwing JSON.parse is caught *)
  let result :=
    match next_data_script page with
    | Some (Some nextData) =>
        match find_query_data nextData with
        | Some queryData => apply_query_data product queryData result
        | None => result
        end
    | Some None | None => result
    end in
  (* Strategy 2: JSON-LD ProductGroup *)
  let result :=
    if isIntl product || negb (bool_decide (is_Some (next_data_script page))) then
      match mjoin (List.find
                     (λ d, match d with
                           | Some ld => bool_decide (ld_type ld = "ProductGroup")
                           | None => false
                           end) (ld_json_scripts page)) with
      | Some ld => apply_product_group product ld result
      | None => result
      end
    else result in
  let result := stock_fallback page product result in
  if negb (price_truthy (snap_currentPrice result)) then
    match price_match page with
    | Some digits => with_currentPrice (Some (parseFloat_string digits)) result
    | None => result
    end
  else result.

End Extractor.

(** ** The outside world *)

Inductive Response :=
| NetworkError                                       (* [fetch] or [response.text()] rejects *)
| HttpResponse (ok : bool) (status : Z) (body : Page).

(** The oracles of one run, indexed by the logical clock of the run. *)
Record Env := {
  fetch : nat → string → Response;
  Date_now : nat → Z;
  (** the identifier built from [Date.now()] and [Math.random()] *)
  new_notifId : nat → string;
  (** whether [chrome.notifications.create] resolves ([false]: it rejects) *)
  notifications_create : nat → bool;
}.

Inductive Caller := by_fetchProductStatus | by_checkMarkdownTransition.

Global Instance Caller_eq_dec : EqDecision Caller.
Proof. solve_decision. Defined.

(** One call of [fetch]: who issued it, on which URL, and whether it gave a
    document ([response.ok] and a readable body). *)
Record Request := {
  req_caller : Caller;
  req_url : string;
  req_ok : bool;
}.

(** One notification shown by [chrome.notifications.create]; its title and
    message are functions of the product and the change. *)
Record Notification := {
  n_id : string;
  n_product : Product;
  n_change : Change;
}.

(** [chrome.storage.local] *)
Record Storage := {
  trackedProducts : list Product;
  notificationMap : gmap string string;
}.

(** The state a run of [checkAllProducts] works on: the storage and the
    badge, the trace of what the run did to the outside world, and the
    mutable locals of the run, which live on when an exception unwinds. *)
Record State := {
  storage : Storage;
  badgeText : string;
  badgeBackgroundColor : string;
  (* trace *)
  clock : nat;
  requests : list Request;
  notifications : list Notification;
  console_errors : list string;
  (* locals of checkAllProducts *)
  updatedProducts : list Product;
  pendingNotifications : list (string * string);
  fetchCache : gmap string Snapshot;
  newColorNotifiedProductIds : gset string;
}.

Definition initial (st : Storage) : State :=
  {| storage := st; badgeText := ""; badgeBackgroundColor := "";
     clock := 0; requests := []; notifications := []; console_errors := [];
     updatedProducts := []; pendingNotifications := [];
     fetchCache := ∅; newColorNotifiedProductIds := ∅ |}.

(** *** State and exceptions *)

Inductive Result (A : Type) :=
| Ok (a : A)
| Thrown.
Arguments Ok {A} a.
Arguments Thrown {A}.

Definition M (A : Type) : Type := State → Result A * State.

Global Instance M_ret : MRet M := λ A a s, (Ok a, s).
Global Instance M_bind : MBind M := λ A B f m s,
  match m s with
  | (Ok a, s') => f a s'
  | (Thrown, s') => (Thrown, s')
  end.

Definition gets {A} (f : State → A) : M A := λ s, (Ok (f s), s).
Definition modify (f : State → State) : M unit := λ s, (Ok tt, f s).
Definition throw {A} : M A := λ s, (Thrown, s).

(** [try { body } catch { handler }] *)
Definition try_catch (body handler : M unit) : M unit := λ s,
  match body s with
  | (Ok tt, s') => (Ok tt, s')
  | (Thrown, s') => handler s'
  end.

(** [for (const x of l) { f(x) }] *)
Fixpoint for_each {A} (f : A → M unit) (l : list A) : M unit :=
  match l with
  | [] => mret tt
  | x :: rest => f x;; for_each f rest
  end.

(** State updates. *)
Definition set_clock (n : nat) (s : State) : State :=
  {| storage := storage s; badgeText := badgeText s;
     badgeBackgroundColor := badgeBackgroundColor s;
     clock := n; requests := requests s; notifications := notifications s;
     console_errors := console_errors s;
     updatedProducts := updatedProducts s;
     pendingNotifications := pendingNotifications s;
     fetchCache := fetchCache s;
     newColorNotifiedProductIds := newColorNotifiedProductIds s |}.
Definition set_requests (l : list Request) (s : State) : State :=
  {| storage := storage s; badgeText := badgeText s;
     badgeBackgroundColor := badgeBackgroundColor s;
     clock := clock s; requests := l; notifications := notifications s;
     console_errors := console_errors s;
     updatedProducts := updatedProducts s;
     pendingNotifications := pendingNotifications s;
     fetchCache := fetchCache s;
     newColorNotifiedProductIds := newColorNotifiedProductIds s |}.
Definition set_notifications (l : list Notification) (s : State) : State :=
  {| storage := storage s; badgeText := badgeText s;
     badgeBackgroundColor := badgeBackgroundColor s;
     clock := clock s; requests := requests s; notifications := l;
     console_errors := console_errors s;
     updatedProducts := updatedProducts s;
     pendingNotifications := pendingNotifications s;
     fetchCache := fetchCache s;
     newColorNotifiedProductIds := newColorNotifiedProductIds s |}.
Definition set_console_errors (l : list string) (s : State) : State :=
  {| storage := storage s; badgeText := badgeText s;
     badgeBackgroundColor := badgeBackgroundColor s;
     clock := clock s; requests := requests s; notifications := notifications s;
     console_errors := l;
     updatedProducts := updatedProducts s;
     pendingNotifications := pendingNotifications s;
     fetchCache := fetchCache s;
     newColorNotifiedProductIds := newColorNotifiedProductIds s |}.
Definition set_updatedProducts (l : list Product) (s : State) : State :=
  {| storage := storage s; badgeText := badgeText s;
     badgeBackgroundColor := badgeBackgroundColor s;
     clock := clock s; requests := requests s; notifications := notifications s;
     console_errors := console_errors s;
     updatedProducts := l;
     pendingNotifications := pendingNotifications s;
     fetchCache := fetchCache s;
     newColorNotifiedProductIds := newColorNotifiedProductIds s |}.
Definition set_pendingNotifications (l : list (string * string)) (s : State) : State :=
  {| storage := storage s; badgeText := badgeText s;
     badgeBackgroundColor := badgeBackgroundColor s;
     clock := clock s; requests := requests s; notifications := notifications s;
     console_errors := console_errors s;
     updatedProducts := updatedProducts s;
     pendingNotifications := l;
     fetchCache := fetchCache s;
     newColorNotifiedProductIds := newColorNotifiedProductIds s |}.
Definition set_fetchCache (c : gmap string Snapshot) (s : State) : State :=
  {| storage := storage s; badgeText := badgeText s;
     badgeBackgroundColor := badgeBackgroundColor s;
     clock := clock s; requests := requests s; notifications := notifications s;
     console_errors := console_errors s;
     updatedProducts := updatedProducts s;
     pendingNotifications := pendingNotifications s;
     fetchCache := c;
     newColorNotifiedProductIds := newColorNotifiedProductIds s |}.
Definition set_newColorNotifiedProductIds (x : gset string) (s : State) : State :=
  {| storage := storage s; badgeText := badgeText s;
     badgeBackgroundColor := badgeBackgroundColor s;
     clock := clock s; requests := requests s; notifications := notifications s;
     console_errors := console_errors s;
     updatedProducts := updatedProducts s;
     pendingNotifications := pendingNotifications s;
     fetchCache := fetchCache s;
     newColorNotifiedProductIds := x |}.
Definition set_storage (st : Storage) (s : State) : State :=
  {| storage := st; badgeText := badgeText s;
     badgeBackgroundColor := badgeBackgroundColor s;
     clock := clock s; requests := requests s; notifications := notifications s;
     console_errors := console_errors s;
     updatedProducts := updatedProducts s;
     pendingNotifications := pendingNotifications s;
     fetchCache := fetchCache s;
     newColorNotifiedProductIds := newColorNotifiedProductIds s |}.
Definition set_badge (text background : string) (s : State) : State :=
  {| storage := storage s; badgeText := text;
     badgeBackgroundColor := background;
     clock := clock s; requests := requests s; notifications := notifications s;
     console_errors := console_errors s;
     updatedProducts := updatedProducts s;
     pendingNotifications := pendingNotifications s;
     fetchCache := fetchCache s;
     newColorNotifiedProductIds := newColorNotifiedProductIds s |}.

(** Reads the logical clock and advances it: every interaction with the
    world happens at its own instant. *)
Definition tick : M nat := λ s, (Ok (clock s), set_clock (S (clock s)) s).

Definition response_page (r : Response) : option Page :=
  match r with
  | HttpResponse true _ page => Some page
  | HttpResponse false _ _ | NetworkError => None
  end.

Definition request_of (who : Caller) (u : string) (page : option Page) : Request :=
  {| req_caller := who; req_url := u; req_ok := bool_decide (is_Some page) |}.

(** [await fetch(url, ...)] followed by [response.ok] and [response.text()];
    the call is recorded. *)
Definition do_fetch (env : Env) (who : Caller) (u : string) : M (option Page) :=
  t ← tick;
  let page := response_page (fetch env t u) in
  modify (λ s, set_requests (requests s ++ [request_of who u page]) s);;
  mret page.

(** The state after a request answered by [page]. *)
Definition fetched (who : Caller) (u : string) (page : option Page) (s : State) : State :=
  set_requests (requests s ++ [request_of who u page]) (set_clock (S (clock s)) s).

(** The state after notifications [ns] were shown and [pend] queued, at
    time [k]. *)
Definition notifying (ns : list Notification) (pend : list (string * string))
    (k : nat) (s : State) : State :=
  set_clock k
    (set_pendingNotifications (pendingNotifications s ++ pend)
       (set_notifications (notifications s ++ ns) s)).

(** ** Notifications, fetching, and the markdown transition resolver *)

(** What [checkMarkdownTransition] returns when it finds the color. *)
Record MarkdownTransition := {
  discountUrl : string;
  change : Change;
}.

(** [x || '?'] for a price that is a number or null. *)
Definition or_unknown (p : option number) : option number := p ≫= or_null.

Section Orchestrator.
Context {B : Builtins}.
Variable env : Env.

(** The identifier is drawn, then [chrome.notifications.create] is awaited:
    when it rejects, the exception leaves [sendNotification].  The title and
    the message are computed from the product and the change by the
    [switch] (with [getStatusTitle] and [getStatusMessage]); the trace keeps
    the product and the change in their place.  Every change has one of the
    five types of the [switch], so its [default: return null] branch is
    never taken. *)
Definition sendNotification (product : Product) (c : Change)
  : M (option (string * string)) :=
  t ← tick;
  let notifId := new_notifId env t in
  t' ← tick;
  (if notifications_create env t'
   then modify (λ s, set_notifications
                       (notifications s ++ [{| n_id := notifId; n_product := product;
                                               n_change := c |}]) s)
   else throw);;
  mret (Some (notifId, url product)).

Definition fetchProductStatus (product : Product) : M (option Snapshot) :=
  page ← do_fetch env by_fetchProductStatus (url product);
  mret ((λ html, parseProductHtml html product) <$> page).

(** The part of [checkMarkdownTransition] that follows the selection of
    [mdQueryData]. *)
Definition markdown_result (product : Product) (trackedColorCode : string)
    (mdQueryData : QueryData) : option MarkdownTransition :=
  match colors mdQueryData
        ≫= List.find (λ c, bool_decide (c_code c = trackedColorCode)) with
  | None => None
  | Some _ =>
      let mdSku := List.find (sku_matches trackedColorCode product) (qd_skus mdQueryData) in
      let price := mdSku ≫= sku_price in
      let salePrice :=
        match price with
        | Some p => if js_truthy (salePrice p) then Some (parseFloat (salePrice p)) else None
        | None => None
        end in
      let listPrice :=
        match price with
        | Some p => if js_truthy (listPrice p) then Some (parseFloat (listPrice p))
                    else currentPrice product
        | None => currentPrice product
        end in
      let mdProductId := from_option ps_productId "" (productSummary mdQueryData) in
      let mdSlug := from_option unifiedId "" (productSummary mdQueryData) in
      let parentCat := from_option parentCategoryUnifiedId "" (productSummary mdQueryData) in
      Some {| discountUrl :=
                "https://shop.lululemon.com/p/" ++ parentCat ++ "/" ++ mdSlug
                ++ "/_/" ++ mdProductId ++ "?color=" ++ trackedColorCode
                ++ (if negb (size_unselected product) then "&sz=" ++ size product else "");
              change := moved_to_markdown (or_unknown salePrice) (or_unknown listPrice) |}
  end.

(** What the resolver makes of the answer to its request. *)
Definition markdown_of_page (product : Product) (trackedColorCode : string)
    (page : option Page) : option MarkdownTransition :=
  match page with
  | Some html =>
      match next_data_script html with
      | Some (Some nextData) =>
          find_query_data nextData ≫= markdown_result product trackedColorCode
      | Some None | None => None
      end
  | None => None
  end.

Definition mdUrl (product : Product) : string :=
  replace_first "/_/" "-MD/_/" (url product).

Definition checkMarkdownTransition (product : Product) (newData : Snapshot)
  : M (option MarkdownTransition) :=
  match getColorCodeFromUrl (url product) with
  | Some trackedColorCode =>
      if string_truthy trackedColorCode then
        if existsb (λ c, bool_decide (c_code c = trackedColorCode))
                   (snap_availableColors newData)
        then mret None
        else
          page ← do_fetch env by_checkMarkdownTransition (mdUrl product);
          mret (markdown_of_page product trackedColorCode page)
      else mret None
  | None => mret None
  end.

(** ** The check orchestrator *)

Definition is_new_color (c : Change) : bool :=
  bool_decide (change_type c = t_new_color).

(** [c.type === 'status_change' && c.to === 'sold_out'] *)
Definition is_sold_out_change (c : Change) : bool :=
  match c with
  | status_change _ to => bool_decide (to = "sold_out")
  | _ => false
  end.

(** The object pushed on [updatedProducts] after a successful check. *)
Definition merged (product : Product) (newData : Snapshot)
    (markdownTransition : option MarkdownTransition)
    (checked : Z) (change' : option (ChangeType * Z)) : Product :=
  {| productId := productId product;
     color := color product;
     size := size product;
     name := name product;
     productLine := productLine product;
     url := url product;
     region := region product;
     image := image product;
     currentPrice := match snap_currentPrice newData with
                     | Some v => Some v
                     | None => currentPrice product
                     end;
     originalPrice := match snap_originalPrice newData with
                      | Some v => Some v
                      | None => originalPrice product
                      end;
     onSale := snap_onSale newData;
     stockStatus := match markdownTransition with
                    | Some _ => "in_stock"
                    | None => snap_stockStatus newData
                    end;
     availableColors := if (0 <? length (snap_availableColors newData))%nat
                        then Some (snap_availableColors newData)
                        else availableColors product;
     markdownUrl := match markdownTransition with
                    | Some mt => Some (discountUrl mt)
                    | None => markdownUrl product
                    end;
     trackNewColors := trackNewColors product;
     addedAt := addedAt product;
     lastChecked := checked;
     lastChange := change' |}.

Definition push_updated (product : Product) : M unit :=
  modify (λ s, set_updatedProducts (updatedProducts s ++ [product]) s).

Definition push_pending (notif : string * string) : M unit :=
  modify (λ s, set_pendingNotifications (pendingNotifications s ++ [notif]) s).

(** The cache lookup and the fetch at the head of the loop body.  The
    cache is keyed by page URLs, none of which names a member of
    [Object.prototype], and a cached snapshot is an object, hence truthy. *)
Definition obtain_newData (product : Product) : M (option Snapshot) :=
  let baseUrl := baseUrl (url product) in
  cache ← gets fetchCache;
  match cache !! baseUrl with
  | Some newData => mret (Some newData)
  | None =>
      newData ← fetchProductStatus product;
      match newData with
      | Some d =>
          modify (λ s, set_fetchCache (<[baseUrl := d]> (fetchCache s)) s);;
          mret (Some d)
      | None => mret None
      end
  end.

(** The changes left once the [new_color] events of an already notified
    [productId] are dropped. *)
Definition deduped (product : Product) (notified : gset string)
    (changes : list Change) : list Change :=
  if string_truthy (productId product) && bool_decide (productId product ∈ notified)
  then filter (λ c, change_type c ≠ t_new_color) changes
  else changes.

(** The set of notified [productId]s after this product. *)
Definition marked (product : Product) (notified : gset string)
    (changes : list Change) : gset string :=
  if existsb is_new_color changes && string_truthy (productId product)
  then {[ productId product ]} ∪ notified
  else notified.

(** "Deduplicate new_color notifications" *)
Definition dedup_new_color (product : Product) (changes : list Change)
  : M (list Change) :=
  notified ← gets newColorNotifiedProductIds;
  let changes := deduped product notified changes in
  modify (λ s, set_newColorNotifiedProductIds
                 (marked product (newColorNotifiedProductIds s) changes) s);;
  mret changes.

(** The guard of the markdown check. *)
Definition markdown_guard (product : Product) (changes : list Change) : bool :=
  negb (includes (url product) "-MD/")
  && negb (includes (url product) ".html")
  && (existsb is_sold_out_change changes || trackNewColors product).

(** "Check for normal → discount transition" *)
Definition markdown_phase (product : Product) (newData : Snapshot)
    (changes : list Change) : M (option MarkdownTransition * list Change) :=
  if markdown_guard product changes then
    markdownTransition ← checkMarkdownTransition product newData;
    match markdownTransition with
    | Some mt =>
        let changes := filter (λ c, is_sold_out_change c = false) changes in
        notif ← sendNotification product (change mt);
        match notif with
        | Some (id, _) => push_pending (id, discountUrl mt)
        | None => mret tt
        end;;
        mret (Some mt, changes)
    | None => mret (None, changes)
    end
  else mret (None, changes).

(** "Send remaining notifications" *)
Definition notify_changes (product : Product) (changes : list Change) : M unit :=
  for_each (λ c,
              notif ← sendNotification product c;
              match notif with
              | Some n => push_pending n
              | None => mret tt
              end) changes.

(** The final [updatedProducts.push({...product, ...})]. *)
Definition push_merged (product : Product) (newData : Snapshot)
    (markdownTransition : option MarkdownTransition) (changes : list Change) : M unit :=
  checked ← (t ← tick; mret (Date_now env t));
  change' ←
    match markdownTransition, changes with
    | Some _, _ => t ← tick; mret (Some (t_moved_to_markdown, Date_now env t))
    | None, first :: _ => t ← tick; mret (Some (change_type first, Date_now env t))
    | None, [] => mret (lastChange product)
    end;
  push_updated (merged product newData markdownTransition checked change').

(** The [try] block of the loop body. *)
Definition check_product (product : Product) : M unit :=
  newData ← obtain_newData product;
  match newData with
  | None => push_updated product
  | Some newData =>
      changes ← dedup_new_color product (detectChanges product newData);
      '(markdownTransition, changes) ← markdown_phase product newData changes;
      notify_changes product changes;;
      push_merged product newData markdownTransition changes
  end.

(** The [catch] block of the loop body. *)
Definition on_error (product : Product) : M unit :=
  modify (λ s, set_console_errors (console_errors s ++ [name product]) s);;
  push_updated product.

Definition updateBadge : M unit :=
  tracked ← gets (λ s, trackedProducts (storage s));
  let stockAlerts :=
    length (filter (λ p, stockStatus p = "low_stock" ∨ stockStatus p = "sold_out")
                   tracked) in
  let saleAlerts := length (filter (λ p, onSale p = true) tracked) in
  let alertCount := (stockAlerts + saleAlerts)%nat in
  if (0 <? alertCount)%nat then
    modify (set_badge (pretty alertCount)
                      (if (0 <? stockAlerts)%nat then "#d31334" else "#1565c0"))
  else
    modify (λ s, set_badge "" (badgeBackgroundColor s) s).

(** One iteration of the loop of [checkAllProducts]. *)
Definition check_step (product : Product) : M unit :=
  try_catch (check_product product) (on_error product).

Definition check_loop (tracked : list Product) : M unit :=
  for_each check_step tracked.

Definition fresh_locals (s : State) : State :=
  set_updatedProducts [] (set_pendingNotifications []
    (set_fetchCache ∅ (set_newColorNotifiedProductIds ∅ s))).

Definition checkAllProducts : M unit :=
  tracked ← gets (λ s, trackedProducts (storage s));
  if bool_decide (length tracked = 0%nat) then mret tt
  else
    modify fresh_locals;;
    check_loop tracked;;
    pending ← gets pendingNotifications;
    (if (0 <? length pending)%nat then
       modify (λ s, set_storage
                      {| trackedProducts := trackedProducts (storage s);
                         notificationMap :=
                           foldl (λ m notif, <[notif.1 := notif.2]> m)
                                 (notificationMap (storage s)) pending |} s)
     else mret tt);;
    updated ← gets updatedProducts;
    modify (λ s, set_storage
                   {| trackedProducts := updated;
                      notificationMap := notificationMap (storage s) |} s);;
    updateBadge.

End Orchestrator.

(** ** Notification titles *)

Definition getStatusTitle (status : string) : string :=
  if bool_decide (status = "low_stock") then "⚠️ Almost Sold Out!"
  else if bool_decide (status = "sold_out") then "❌ Sold Out"
  else if bool_decide (status = "in_stock") then "🎉 Back in Stock!"
  else "🔔 Status Changed".

(** The [title] that the [switch] of [sendNotification] computes from the
    change. *)
Definition notification_title (c : Change) : string :=
  match c with
  | status_change _ to => getStatusTitle to
  | price_change from to =>
      if number_lt to from then "📉 Price Drop!" else "📈 Price Increased"
  | went_on_sale => "🏷️ Now On Sale!"
  | new_color _ => "🎨 New Color Available!"
  | moved_to_markdown _ _ => "🏷️ Moved to We Made Too Much!"
  end.

(** ** The handlers of the service worker

    Each handler is modelled as it runs on its own, from its first
    statement to its last; two handlers that overlap at an [await] are not
    modelled.  [chrome.storage.local] does not fail. *)

(** What a handler answers with [sendResponse], or returns. *)
Inductive Answer :=
| success_true                                   (* [{ success: true }] *)
| success_false (reason : option string)         (* [{ success: false, reason }] *)
| products (l : list Product)
| ok_true                                        (* [{ ok: true }] *)
| no_answer.

Global Instance Answer_eq_dec : EqDecision Answer.
Proof. solve_decision. Defined.

(** The messages of the popup and of the content script, by [action]; the
    index of [removeProduct] is the position of a card, an integer. *)
Inductive Message :=
| msg_addProduct (product : Product)
| msg_removeProduct (index : Z)
| msg_getProducts
| msg_checkNow
| msg_clearChangeBadge
| msg_productPageChanged
| msg_other.

(** What a click on a notification does besides the storage. *)
Inductive Effect :=
| tabs_create (url : string)
| notifications_clear (notifId : string).

Global Instance Effect_eq_dec : EqDecision Effect.
Proof. solve_decision. Defined.

(** The predicate of [trackedProducts.some] in [addProduct]. *)
Definition already_tracked (product p : Product) : bool :=
  bool_decide (productId p = productId product)
  && bool_decide (color p = color product)
  && bool_decide (size p = size product).

(** [{ ...product, addedAt: Date.now(), trackNewColors: true, lastChange: null }] *)
Definition new_product (product : Product) (added : Z) : Product :=
  {| productId := productId product;
     color := color product;
     size := size product;
     name := name product;
     productLine := productLine product;
     url := url product;
     region := region product;
     image := image product;
     currentPrice := currentPrice product;
     originalPrice := originalPrice product;
     onSale := onSale product;
     stockStatus := stockStatus product;
     availableColors := availableColors product;
     markdownUrl := markdownUrl product;
     trackNewColors := true;
     addedAt := added;
     lastChecked := lastChecked product;
     lastChange := None |}.

(** The assignments of [addProduct] once the baseline fetch gave
    [liveData]. *)
Definition with_baseline (newProduct : Product) (liveData : Snapshot) (checked : Z)
  : Product :=
  {| productId := productId newProduct;
     color := color newProduct;
     size := size newProduct;
     name := name newProduct;
     productLine := productLine newProduct;
     url := url newProduct;
     region := region newProduct;
     image := image newProduct;
     currentPrice := match snap_currentPrice liveData with
                     | Some v => Some v
                     | None => currentPrice newProduct
                     end;
     originalPrice := match snap_originalPrice liveData with
                      | Some v => Some v
                      | None => originalPrice newProduct
                      end;
     onSale := snap_onSale liveData;
     stockStatus := snap_stockStatus liveData;
     availableColors := if (0 <? length (snap_availableColors liveData))%nat
                        then Some (snap_availableColors liveData)
                        else availableColors newProduct;
     markdownUrl := markdownUrl newProduct;
     trackNewColors := trackNewColors newProduct;
     addedAt := addedAt newProduct;
     lastChecked := checked;
     lastChange := lastChange newProduct |}.

(** [p.lastChange = null] *)
Definition clear_lastChange (p : Product) : Product :=
  {| productId := productId p;
     color := color p;
     size := size p;
     name := name p;
     productLine := productLine p;
     url := url p;
     region := region p;
     image := image p;
     currentPrice := currentPrice p;
     originalPrice := originalPrice p;
     onSale := onSale p;
     stockStatus := stockStatus p;
     availableColors := availableColors p;
     markdownUrl := markdownUrl p;
     trackNewColors := trackNewColors p;
     addedAt := addedAt p;
     lastChecked := lastChecked p;
     lastChange := None |}.

(** [p.trackNewColors = checked] *)
Definition with_trackNewColors (checked : bool) (p : Product) : Product :=
  {| productId := productId p;
     color := color p;
     size := size p;
     name := name p;
     productLine := productLine p;
     url := url p;
     region := region p;
     image := image p;
     currentPrice := currentPrice p;
     originalPrice := originalPrice p;
     onSale := onSale p;
     stockStatus := stockStatus p;
     availableColors := availableColors p;
     markdownUrl := markdownUrl p;
     trackNewColors := checked;
     addedAt := addedAt p;
     lastChecked := lastChecked p;
     lastChange := lastChange p |}.

(** [chrome.storage.local.set({ trackedProducts })] *)
Definition store_tracked (l : list Product) : M unit :=
  modify (λ s, set_storage {| trackedProducts := l;
                              notificationMap := notificationMap (storage s) |} s).

(** [chrome.storage.local.set({ notificationMap })] *)
Definition store_notificationMap (m : gmap string string) : M unit :=
  modify (λ s, set_storage {| trackedProducts := trackedProducts (storage s);
                              notificationMap := m |} s).

Definition ALARM_NAME : string := "lululemon-check".

Section Handlers.
Context {B : Builtins}.
Variable env : Env.

(** [fetchProductStatus] catches its own failures and a snapshot always
    has a color list: nothing in the [try] block of the baseline fetch
    throws. *)
Definition addProduct (product : Product) : M Answer :=
  tracked ← gets (λ s, trackedProducts (storage s));
  if existsb (already_tracked product) tracked
  then mret (success_false (Some "Already tracking this product."))
  else
    added ← (t ← tick; mret (Date_now env t));
    let newProduct := new_product product added in
    liveData ← fetchProductStatus env newProduct;
    newProduct ← match liveData with
                 | Some liveData =>
                     t ← tick; mret (with_baseline newProduct liveData (Date_now env t))
                 | None => mret newProduct
                 end;
    store_tracked (tracked ++ [newProduct]);;
    mret success_true.

(** [trackedProducts.splice(index, 1)] behind the bounds test. *)
Definition removeProduct (index : Z) : M Answer :=
  tracked ← gets (λ s, trackedProducts (storage s));
  if bool_decide (0 ≤ index)%Z && bool_decide (index < Z.of_nat (length tracked))%Z
  then
    store_tracked (delete (Z.to_nat index) tracked);;
    mret success_true
  else mret (success_false None).

Definition clearChangeMarkers : M unit :=
  tracked ← gets (λ s, trackedProducts (storage s));
  store_tracked (clear_lastChange <$> tracked);;
  updateBadge.

(** The listener of [chrome.runtime.onMessage]. *)
Definition onMessage (message : Message) : M Answer :=
  match message with
  | msg_addProduct product =>
      result ← addProduct product;
      updateBadge;;
      mret result
  | msg_removeProduct index =>
      result ← removeProduct index;
      updateBadge;;
      mret result
  | msg_getProducts =>
      tracked ← gets (λ s, trackedProducts (storage s));
      mret (products tracked)
  | msg_checkNow =>
      checkAllProducts env;;
      mret success_true
  | msg_clearChangeBadge =>
      clearChangeMarkers;;
      mret success_true
  | msg_productPageChanged => mret ok_true
  | msg_other => mret no_answer
  end.

(** The listener of [chrome.alarms.onAlarm]. *)
Definition onAlarm (alarm_name : string) : M unit :=
  if bool_decide (alarm_name = ALARM_NAME) then checkAllProducts env else mret tt.

(** The listener of [chrome.notifications.onClicked].  The identifiers are
    those of [sendNotification], none of which names a member of
    [Object.prototype]. *)
Definition onClicked (notifId : string) : M (list Effect) :=
  map ← gets (λ s, notificationMap (storage s));
  match map !! notifId with
  | Some url =>
      if string_truthy url then
        store_notificationMap (delete notifId map);;
        mret [tabs_create url; notifications_clear notifId]
      else mret [notifications_clear notifId]
  | None => mret [notifications_clear notifId]
  end.

(** The [change] listener of a "New colors" toggle of the popup
    (src/unnamed/part_000): the list is read with [getProducts] and written
    back with the flag of the card at [idx] set. *)
Definition toggleNewColors (idx : nat) (checked : bool) : M unit :=
  prods ← gets (λ s, trackedProducts (storage s));
  match prods !! idx with
  | Some p => store_tracked (<[idx := with_trackNewColors checked p]> prods)
  | None => mret tt
  end.

(** What happens to the worker, one event at a time. *)
Inductive Event :=
| alarm_fired (alarm_name : string)
| message_received (message : Message)
| notification_clicked (notifId : string)
| new_colors_toggled (idx : nat) (checked : bool).

Definition handle (e : Event) (s : State) : State :=
  match e with
  | alarm_fired alarm_name => (onAlarm alarm_name s).2
  | message_received message => (onMessage message s).2
  | notification_clicked notifId => (onClicked notifId s).2
  | new_colors_toggled idx checked => (toggleNewColors idx checked s).2
  end.

Definition handle_all (events : list Event) (s : State) : State :=
  foldl (λ s e, handle e s) s events.

End Handlers.

(** * Describing runs *)

(** [wp m Q s]: running [m] from [s] ends, normally or by an exception, in a
    result and a state that satisfy [Q]. *)
Definition wp {A} (m : M A) (Q : Result A → State → Prop) (s : State) : Prop :=
  Q (m s).1 (m s).2.

(** The state after the requests [reqs]. *)
Definition requesting (reqs : list Request) (s : State) : State :=
  set_requests (requests s ++ reqs) (set_clock (length reqs + clock s) s).

Section Outcomes.
Context {B : Builtins}.
Variable env : Env.

(** Whether a run of notifications for the changes [cs] ended normally,
    which notifications it showed, and why it stopped if it did not. *)
Definition sent (p : Product) (cs : list Change) (r : Result unit)
    (ns : list Notification) : Prop :=
  Forall (λ n, n_product n = p) ns ∧
  match r with
  | Ok _ => n_change <$> ns = cs
  | Thrown => (∃ c rest, cs = (n_change <$> ns) ++ c :: rest)
              ∧ ∃ t, notifications_create env t = false
  end.

(** Whether the resolver issues its request: the URL names a color that
    the fresh snapshot lacks. *)
Definition md_fetches (p : Product) (nd : Snapshot) : bool :=
  match getColorCodeFromUrl (url p) with
  | Some code =>
      string_truthy code
      && negb (existsb (λ c, bool_decide (c_code c = code)) (snap_availableColors nd))
  | None => false
  end.

(** The answer of [checkMarkdownTransition] when it runs at time [t]. *)
Definition md_lookup (t : nat) (p : Product) (nd : Snapshot)
  : option MarkdownTransition :=
  if md_fetches p nd then
    markdown_of_page p (default "" (getColorCodeFromUrl (url p)))
                     (response_page (fetch env t (mdUrl p)))
  else None.

Definition md_requests (t : nat) (p : Product) (nd : Snapshot) : list Request :=
  if md_fetches p nd
  then [request_of by_checkMarkdownTransition (mdUrl p)
                   (response_page (fetch env t (mdUrl p)))]
  else [].

(** The same two, behind the guard of the markdown check. *)
Definition md_outcome (t : nat) (p : Product) (nd : Snapshot) (cs : list Change)
  : option MarkdownTransition :=
  if markdown_guard p cs then md_lookup t p nd else None.

Definition md_reqs (t : nat) (p : Product) (nd : Snapshot) (cs : list Change)
  : list Request :=
  if markdown_guard p cs then md_requests t p nd else [].

(** The changes left to notify after the markdown check. *)
Definition remaining (mt : option MarkdownTransition) (cs : list Change) : list Change :=
  match mt with
  | Some _ => filter (λ c, is_sold_out_change c = false) cs
  | None => cs
  end.

(** All the changes one iteration notifies, in order. *)
Definition to_send (mt : option MarkdownTransition) (cs : list Change) : list Change :=
  match mt with
  | Some m => [change m]
  | None => []
  end ++ remaining mt cs.

Definition last_change (p : Product) (mt : option MarkdownTransition)
    (cs : list Change) (ts : Z) : option (ChangeType * Z) :=
  match mt, remaining mt cs with
  | Some _, _ => Some (t_moved_to_markdown, ts)
  | None, first :: _ => Some (change_type first, ts)
  | None, [] => lastChange p
  end.

(** How the loop body obtains [newData], and the state it leaves. *)
Inductive acquired (p : Product) (s : State) : Snapshot → State → Prop :=
| acquired_cached nd :
    fetchCache s !! baseUrl (url p) = Some nd →
    acquired p s nd s
| acquired_fetched page :
    fetchCache s !! baseUrl (url p) = None →
    response_page (fetch env (clock s) (url p)) = Some page →
    acquired p s (parseProductHtml page p)
      (set_fetchCache (<[baseUrl (url p) := parseProductHtml page p]> (fetchCache s))
         (fetched by_fetchProductStatus (url p) (Some page) s)).

(** The state of the loop body once [newData] is acquired (in [s1]) and
    the notifications [ns] are out. *)
Definition notified_state (p : Product) (s s1 : State) (nd : Snapshot)
    (ns : list Notification) (pend : list (string * string)) (k : nat) : State :=
  let cs := deduped p (newColorNotifiedProductIds s) (detectChanges p nd) in
  notifying ns pend k
    (requesting (md_reqs (clock s1) p nd cs)
       (set_newColorNotifiedProductIds
          (marked p (newColorNotifiedProductIds s) cs) s1)).

(** The three ways the [try] block ends. *)
Inductive body_outcome (p : Product) (s : State) : Result unit → State → Prop :=
| body_unfetched :
    fetchCache s !! baseUrl (url p) = None →
    response_page (fetch env (clock s) (url p)) = None →
    body_outcome p s (Ok tt)
      (set_updatedProducts (updatedProducts s ++ [p])
         (fetched by_fetchProductStatus (url p) None s))
| body_merged nd s1 ns pend k t1 t2 :
    acquired p s nd s1 →
    let cs := deduped p (newColorNotifiedProductIds s) (detectChanges p nd) in
    let mt := md_outcome (clock s1) p nd cs in
    sent p (to_send mt cs) (Ok tt) ns →
    body_outcome p s (Ok tt)
      (set_updatedProducts
         (updatedProducts s ++ [merged p nd mt t1 (last_change p mt cs t2)])
         (notified_state p s s1 nd ns pend k))
| body_thrown nd s1 ns pend k :
    acquired p s nd s1 →
    let cs := deduped p (newColorNotifiedProductIds s) (detectChanges p nd) in
    let mt := md_outcome (clock s1) p nd cs in
    sent p (to_send mt cs) Thrown ns →
    body_outcome p s Thrown (notified_state p s s1 nd ns pend k).

(** The state after the [catch] block. *)
Definition caught (p : Product) (s : State) : State :=
  set_updatedProducts (updatedProducts s ++ [p])
    (set_console_errors (console_errors s ++ [name p]) s).

(** The ways one iteration of the loop ends. *)
Inductive stepped (p : Product) (s : State) : State → Prop :=
| stepped_ok s' : body_outcome p s (Ok tt) s' → stepped p s s'
| stepped_caught s' : body_outcome p s Thrown s' → stepped p s (caught p s').

End Outcomes.

(** One run of [checkAllProducts] on the stored data [st], from a state with
    an empty trace. *)
Definition cycle {B : Builtins} (env : Env) (st : Storage) : Result unit * State :=
  checkAllProducts env (initial st).

(** The state of a run when its loop has gone through the products [done]. *)
Definition loop_state {B : Builtins} (env : Env) (st : Storage) (done : list Product)
  : State :=
  (check_loop env done (fresh_locals (initial st))).2.

(** The [newData] an iteration that starts in [s] obtains for [p]. *)
Definition snapshot_at {B : Builtins} (env : Env) (s : State) (p : Product)
  : option Snapshot :=
  match fetchCache s !! baseUrl (url p) with
  | Some nd => Some nd
  | None => (λ page, parseProductHtml page p) <$> response_page (fetch env (clock s) (url p))
  end.

(** [nd] is what [parseProductHtml] made of a document fetched for a
    product of [l] whose page key is [k]. *)
Definition extraction {B : Builtins} (env : Env) (l : list Product) (k : string)
    (nd : Snapshot) : Prop :=
  ∃ q page t, q ∈ l ∧ baseUrl (url q) = k
              ∧ response_page (fetch env t (url q)) = Some page
              ∧ nd = parseProductHtml page q.

(** The product stored for [p] after a run over [l]: [p] itself, or [p]
    merged with an extraction for its page key. *)
Definition checked_item {B : Builtins} (env : Env) (l : list Product)
    (p p' : Product) : Prop :=
  p' = p ∨ ∃ nd mt t c, extraction env l (baseUrl (url p)) nd ∧ p' = merged p nd mt t c.

(** The three stock statuses. *)
Definition valid_status (status : string) : Prop :=
  status = "in_stock" ∨ status = "low_stock" ∨ status = "sold_out".

(** A rejected or failed request. *)
Definition fetch_fails (r : Response) : Prop :=
  r = NetworkError ∨ ∃ status body, r = HttpResponse false status body.

(** The extraction of [page] for the product [q] found a sale price
    strictly below the list price: the payload has a SKU for the color and
    size of [q] whose sale price and list price are both present (non-zero
    numbers), the first being less than the second. *)
Definition sale_below_list {B : Builtins} (page : Page) (q : Product) : Prop :=
  ∃ queries queryData code sku price,
    next_data_script page = Some (Some queries)
    ∧ find_query_data queries = Some queryData
    ∧ getColorCodeFromUrl (url q) = Some code
    ∧ string_truthy code = true
    ∧ List.find (sku_matches code q) (qd_skus queryData) = Some sku
    ∧ sku_price sku = Some price
    ∧ js_truthy (salePrice price) = true
    ∧ number_truthy (parseFloat (salePrice price)) = true
    ∧ number_truthy (parseFloat (listPrice price)) = true
    ∧ number_lt (parseFloat (salePrice price)) (parseFloat (listPrice price)) = true.

(** The colors of a snapshot whose code the stored color list of the
    product lacks. *)
Definition new_colors (p : Product) (nd : Snapshot) : list Color :=
  match availableColors p with
  | Some old => filter (λ c, c_code c ∉ c_code <$> old) (snap_availableColors nd)
  | None => []
  end.

(** The changes of a given type among those notified. *)
Definition notified_of (ty : ChangeType) (ns : list Notification) : list Change :=
  filter (λ c, change_type c = ty) (n_change <$> ns).

(** The [new_color] notifications shown for the products whose [productId]
    is [pid]. *)
Definition new_color_notifications (pid : string) (ns : list Notification)
  : list Notification :=
  filter (λ n, change_type (n_change n) = t_new_color ∧ productId (n_product n) = pid) ns.

(** What a run has to report so far: the processing errors it logged and
    the markdown transitions it announced. *)
Definition noise (s : State) : nat :=
  (length (console_errors s)
   + length (notified_of t_moved_to_markdown (notifications s)))%nat.

(** The cache an iteration that starts in [s] leaves for [p]: a document
    fetched because the page key was not cached is parsed and cached. *)
Definition cache_after {B : Builtins} (env : Env) (s : State) (p : Product)
  : gmap string Snapshot :=
  match fetchCache s !! baseUrl (url p) with
  | Some _ => fetchCache s
  | None =>
      match response_page (fetch env (clock s) (url p)) with
      | Some page => <[baseUrl (url p) := parseProductHtml page p]> (fetchCache s)
      | None => fetchCache s
      end
  end.

(** The identity and settings fields of a tracked product. *)
Definition same_identity (p p' : Product) : Prop :=
  productId p' = productId p ∧ color p' = color p ∧ size p' = size p
  ∧ name p' = name p ∧ productLine p' = productLine p ∧ url p' = url p
  ∧ region p' = region p ∧ image p' = image p
  ∧ trackNewColors p' = trackNewColors p ∧ addedAt p' = addedAt p.


(** *** The tracked list and the badge *)

(** What identifies a tracked product for [addProduct]. *)
Definition tracking_key (p : Product) : string * string * string :=
  (productId p, color p, size p).

(** No two tracked products have the same [productId], color and size. *)
Definition keys_unique (l : list Product) : Prop :=
  NoDup (tracking_key <$> l).

(** The products that are low in stock or sold out, and those on sale. *)
Definition stock_alerts (l : list Product) : list Product :=
  filter (λ p, stockStatus p = "low_stock" ∨ stockStatus p = "sold_out") l.

Definition sale_alerts (l : list Product) : list Product :=
  filter (λ p, onSale p = true) l.

(** The badge shows the alerts of the stored list: their number, on red
    when a product is low in stock or sold out and on blue otherwise, or
    no text when there is none. *)
Definition badge_shows (s : State) : Prop :=
  let l := trackedProducts (storage s) in
  match stock_alerts l, sale_alerts l with
  | [], [] => badgeText s = ""
  | [], _ :: _ =>
      badgeText s = pretty (length (sale_alerts l))
      ∧ badgeBackgroundColor s = "#1565c0"
  | _ :: _, _ =>
      badgeText s = pretty (length (stock_alerts l) + length (sale_alerts l))%nat
      ∧ badgeBackgroundColor s = "#d31334"
  end.

(** *** What justifies a notification *)

(** The change [c] is a difference between the stored product [p] and the
    snapshot [nd], as [detectChanges] understands it. *)
Definition detected (p : Product) (nd : Snapshot) (c : Change) : Prop :=
  match c with
  | status_change from to =>
      from = stockStatus p ∧ to = snap_stockStatus nd ∧ from ≠ to
  | price_change from to =>
      currentPrice p = Some from ∧ snap_currentPrice nd = Some to
      ∧ number_truthy from = true ∧ number_truthy to = true
      ∧ number_eq from to = false
  | went_on_sale => onSale p = false ∧ snap_onSale nd = true
  | new_color color_name =>
      trackNewColors p = true
      ∧ ∃ old c', availableColors p = Some old
                  ∧ c' ∈ snap_availableColors nd
                  ∧ c_name c' = color_name
                  ∧ c_code c' ∉ (c_code <$> old)
  | moved_to_markdown _ _ => False
  end.

(** The place of a type of change in the list that [detectChanges]
    returns: stock first, then price, then sale, then new colors. *)
Definition change_rank (ty : ChangeType) : nat :=
  match ty with
  | t_status_change => 0
  | t_price_change => 1
  | t_went_on_sale => 2
  | t_new_color => 3
  | t_moved_to_markdown => 4
  end.

(** [a] is reported before [b], or they are of the same type. *)
Definition reported_before (a b : Change) : Prop :=
  (change_rank (change_type a) ≤ change_rank (change_type b))%nat.

(** The changes of [l] come in the order of their types. *)
Definition in_report_order (l : list Change) : Prop :=
  ∀ i j a b, l !! i = Some a → l !! j = Some b → (i < j)%nat → reported_before a b.

(** The change [c] is a markdown transition of [p]: the product is tracked
    on a normal page of the US site, with new-color tracking on or a
    status that has just become [sold_out]; its URL names a color that the
    snapshot [nd] lacks; and the clearance page was fetched and lists that
    color. *)
Definition moved {B : Builtins} (env : Env) (p : Product) (nd : Snapshot)
    (c : Change) : Prop :=
  includes (url p) "-MD/" = false
  ∧ includes (url p) ".html" = false
  ∧ (trackNewColors p = true
     ∨ (stockStatus p ≠ "sold_out" ∧ snap_stockStatus nd = "sold_out"))
  ∧ ∃ code t page queries queryData mt,
      getColorCodeFromUrl (url p) = Some code
      ∧ code ≠ ""
      ∧ (code ∉ c_code <$> snap_availableColors nd)
      ∧ response_page (fetch env t (mdUrl p)) = Some page
      ∧ next_data_script page = Some (Some queries)
      ∧ find_query_data queries = Some queryData
      ∧ code ∈ (c_code <$> default [] (colors queryData))
      ∧ markdown_result p code queryData = Some mt
      ∧ c = change mt.

(** A notification of a cycle over the products [l] is justified: it is
    about one of them, and an extraction for the page of that product
    shows the change, or the markdown transition, that it announces. *)
Definition justified {B : Builtins} (env : Env) (l : list Product)
    (n : Notification) : Prop :=
  n_product n ∈ l
  ∧ ∃ nd, extraction env l (baseUrl (url (n_product n))) nd
          ∧ (detected (n_product n) nd (n_change n)
             ∨ moved env (n_product n) nd (n_change n)).

(** The entry queued in [pendingNotifications] for a notification shown
    for [p]: its identifier, with the URL of the product or, for a
    markdown transition, the URL of the clearance page. *)
Definition queued_for {B : Builtins} (env : Env) (n : Notification)
    (e : string * string) : Prop :=
  e.1 = n_id n
  ∧ ((change_type (n_change n) ≠ t_moved_to_markdown ∧ e.2 = url (n_product n))
     ∨ ∃ t nd cs mt,
         md_outcome env t (n_product n) nd cs = Some mt
         ∧ n_change n = change mt
         ∧ e.2 = discountUrl mt).

(** A request of a cycle over the products [l]: the page of one of them,
    or the clearance page of one that is tracked on a normal page of the
    US site and whose URL names a color. *)
Definition request_for (l : list Product) (r : Request) : Prop :=
  ∃ p, p ∈ l
       ∧ ((req_caller r = by_fetchProductStatus ∧ req_url r = url p)
          ∨ (req_caller r = by_checkMarkdownTransition
             ∧ req_url r = mdUrl p
             ∧ includes (url p) "-MD/" = false
             ∧ includes (url p) ".html" = false
             ∧ is_Some (getColorCodeFromUrl (url p)))).

(** What a check keeps of a stored product: a price, a list of colors or
    a clearance URL that was known is still known. *)
Definition keeps_known (p p' : Product) : Prop :=
  (is_Some (currentPrice p) → is_Some (currentPrice p'))
  ∧ (is_Some (originalPrice p) → is_Some (originalPrice p'))
  ∧ (is_Some (markdownUrl p) → is_Some (markdownUrl p'))
  ∧ (∀ known, availableColors p = Some known → known ≠ [] →
       ∃ known', availableColors p' = Some known' ∧ known' ≠ []).

(** *** An iteration that does its work *)

(** The iteration of the loop on [q] that starts in [s], ends in [s'] and
    stores [q'] has done its work.  The page of [q] is requested, unless
    its key is cached.  Without a document, [q] is kept and nothing is
    shown.  With the snapshot [nd], either the [try] block ends normally:
    the changes found, and the markdown transition if there is one, are
    notified, and [q] is stored merged with [nd]; or it throws: the error
    is logged and [q] is kept. *)
Definition processed {B : Builtins} (env : Env) (q : Product) (s s' : State)
    (q' : Product) : Prop :=
  (fetchCache s !! baseUrl (url q) = None →
   ∃ more, requests s'
           = requests s
             ++ request_of by_fetchProductStatus (url q)
                           (response_page (fetch env (clock s) (url q))) :: more)
  ∧ match snapshot_at env s q with
    | None =>
        q' = q ∧ notifications s' = notifications s
        ∧ console_errors s' = console_errors s
    | Some nd =>
        let cs := deduped q (newColorNotifiedProductIds s) (detectChanges q nd) in
        let t := match fetchCache s !! baseUrl (url q) with
                 | Some _ => clock s
                 | None => S (clock s)
                 end in
        let mt := md_outcome env t q nd cs in
        ∃ ns,
          notifications s' = notifications s ++ ns
          ∧ Forall (λ n, n_product n = q) ns
          ∧ (((check_product env q s).1 = Ok tt
              ∧ console_errors s' = console_errors s
              ∧ n_change <$> ns = to_send mt cs
              ∧ ∃ t1 t2, q' = merged q nd mt t1 (last_change q mt cs t2))
             ∨ ((check_product env q s).1 = Thrown
                ∧ console_errors s' = console_errors s ++ [name q]
                ∧ q' = q))
    end.

(** *** Plain strings *)

(** The character [c] does not occur in [s]. *)
Fixpoint lacks (c : ascii) (s : string) : bool :=
  match s with
  | EmptyString => true
  | String a r => negb (Ascii.eqb a c) && lacks c r
  end.

(** A path that holds neither a query nor a fragment. *)
Definition plain_path (s : string) : bool := lacks "?" s && lacks "#" s.

(** A value of a query parameter that is written as it reads: not empty,
    no separator and nothing that [URLSearchParams] would decode. *)
Definition plain_value (s : string) : bool :=
  string_truthy s && lacks "&" s && lacks "#" s && lacks "%" s && lacks "+" s.

(** The origins of the storefronts that the extension tracks. *)
Definition storefronts : list string :=
  ["https://shop.lululemon.com"; "https://www.lululemon.com.hk";
   "https://www.lululemon.com.au"].

(** A letter or a digit. *)
Definition alphanumeric_ascii (a : ascii) : bool :=
  let n := nat_of_ascii a in
  ((48 <=? n) && (n <=? 57) || (65 <=? n) && (n <=? 90) || (97 <=? n) && (n <=? 122))%nat.

Fixpoint alphanumeric (s : string) : bool :=
  match s with
  | EmptyString => true
  | String a r => alphanumeric_ascii a && alphanumeric r
  end.

(** A color code or a product identifier as the storefronts write them:
    letters and digits, at least one. *)
Definition plain_code (s : string) : bool := string_truthy s && alphanumeric s.


(** * Scenarios

    Concrete products, documents and environments on which the properties
    below are exercised. *)

Module Scenario.

(** An instance of the builtin: [parseFloat] on a plain decimal literal
    (digits, an optional fraction), NaN when the text starts with
    neither. *)
Definition digit_of (a : ascii) : option N :=
  let n := N_of_ascii a in
  if ((48 <=? n) && (n <=? 57))%N then Some (n - 48)%N else None.

Fixpoint read_digits (s : string) (acc : N) (count : nat) : N * nat * string :=
  match s with
  | String a r =>
      match digit_of a with
      | Some d => read_digits r (acc * 10 + d)%N (S count)
      | None => (acc, count, s)
      end
  | EmptyString => (acc, count, s)
  end.

Definition decimal_parseFloat (s : string) : number :=
  let '(int, n, rest) := read_digits s 0%N 0%nat in
  let '(all, m, _) :=
    match rest with
    | String "." r => read_digits r int 0%nat
    | _ => (int, 0%nat, rest)
    end in
  if bool_decide (n + m = 0)%nat then NaN
  else Num (Q2Qc (Qred (Z.of_N all # Z.to_pos (10 ^ Z.of_nat m)))).

Definition decimal : Builtins := {| parseFloat_string := decimal_parseFloat |}.

Definition shirt_url (colorCode : string) : string :=
  "https://shop.lululemon.com/p/men-ss-tops/Metal-Vent-Tech-Short-Sleeve-Shirt-3/_/prod11710026?color="
  ++ colorCode ++ "&sz=M".

Definition black : Color := {| c_code := "74134"; c_name := "Black" |}.
Definition white : Color := {| c_code := "0001"; c_name := "White" |}.
Definition solar : Color := {| c_code := "69702"; c_name := "Solar Grey" |}.

(** The shirt in one color, size M, in stock at 78, tracked with the
    colors [known]. *)
Definition shirt (c : Color) (known : option (list Color)) : Product :=
  {| productId := "prod11710026"; color := c_name c; size := "M";
     name := "Metal Vent Tech Short-Sleeve Shirt";
     productLine := "Metal Vent Tech Short-Sleeve Shirt";
     url := shirt_url (c_code c); region := "US"; image := "";
     currentPrice := Some (Num (Q2Qc 78)); originalPrice := None; onSale := false;
     stockStatus := "in_stock"; availableColors := known;
     markdownUrl := None; trackNewColors := true;
     addedAt := 0; lastChecked := 0; lastChange := None |}.

Definition black_M : Product := shirt black (Some [black; white]).
Definition white_M : Product := shirt white (Some [black; white]).

Definition sku_of (c : Color) (list sale : JsVal) (available : bool) : Sku :=
  {| sku_color_code := Some (c_code c); sku_size := "M";
     sku_price := Some {| listPrice := list; salePrice := sale |};
     sku_available := available |}.

Definition page_of (queryData : QueryData) : Page :=
  {| html := "<html><body>Metal Vent Tech</body></html>";
     next_data_script := Some (Some [None; Some queryData]);
     ld_json_scripts := []; stock_avail_msg_visible := false; price_match := None |}.

Definition shirt_summary (soldOut : bool) : ProductSummary :=
  {| isSoldOut := soldOut; ps_productId := "prod11710026";
     unifiedId := "Metal-Vent-Tech-Short-Sleeve-Shirt-3";
     parentCategoryUnifiedId := "men-ss-tops" |}.

(** The normal page once Black has left it: White only, sold out. *)
Definition page_without_black : Page :=
  page_of {| productSummary := Some (shirt_summary true);
             skus := Some [sku_of white (JString "78.00") JUndefined false];
             colors := Some [white]; colorDriver := None |}.

(** The clearance page: Black at 40, list price 60. *)
Definition md_summary : ProductSummary :=
  {| isSoldOut := false; ps_productId := "prod11720682";
     unifiedId := "Metal-Vent-Tech-Short-Sleeve-Shirt-3-MD";
     parentCategoryUnifiedId := "men-ss-tops" |}.
Definition md_price : Price :=
  {| listPrice := JString "60.00"; salePrice := JString "40.00" |}.
Definition md_sku : Sku :=
  {| sku_color_code := Some "74134"; sku_size := "M";
     sku_price := Some md_price; sku_available := true |}.
Definition md_query : QueryData :=
  {| productSummary := Some md_summary; skus := Some [md_sku];
     colors := Some [black]; colorDriver := None |}.
Definition md_page : Page := page_of md_query.

(** The normal page with both known colors and a new one. *)
Definition page_with_new_color : Page :=
  page_of {| productSummary := Some (shirt_summary false);
             skus := Some [sku_of black (JString "78.00") JUndefined true;
                           sku_of white (JString "78.00") JUndefined true;
                           sku_of solar (JString "78.00") JUndefined true];
             colors := Some [black; white; solar]; colorDriver := None |}.

(** The normal page with Black in size M sold out. *)
Definition page_black_sold_out : Page :=
  page_of {| productSummary := Some (shirt_summary false);
             skus := Some [sku_of black (JString "78.00") JUndefined false;
                           sku_of white (JString "78.00") JUndefined true];
             colors := Some [black; white]; colorDriver := None |}.

(** An environment that serves [pages] by URL, at any time, and in which
    notifications succeed or not as [create] says. *)
Definition serving (pages : list (string * Response)) (create : nat → bool) : Env :=
  {| fetch := λ _ u, default NetworkError (snd <$> List.find (λ e, bool_decide (e.1 = u)) pages);
     Date_now := Z.of_nat;
     new_notifId := λ t, ("lulu-" ++ pretty t)%string;
     notifications_create := create |}.

(** Black has moved to the clearance page. *)
Definition env_markdown : Env :=
  serving [(shirt_url "74134", HttpResponse true 200 page_without_black);
           (mdUrl black_M, HttpResponse true 200 md_page)] (λ _, true).

(** A new color has appeared. *)
Definition env_new_color : Env :=
  serving [(shirt_url "74134", HttpResponse true 200 page_with_new_color);
           (shirt_url "0001", HttpResponse true 200 page_with_new_color)] (λ _, true).

(** The request for Black fails, the one for White is answered. *)
Definition env_first_fails : Env :=
  serving [(shirt_url "74134", HttpResponse false 503 page_with_new_color);
           (shirt_url "0001", HttpResponse true 200 page_with_new_color)] (λ _, true).

(** Black is sold out, and the notification service rejects every call
    or none. *)
Definition env_sold_out (create : bool) : Env :=
  serving [(shirt_url "74134", HttpResponse true 200 page_black_sold_out)] (λ _, create).

(** Another product, on a page of its own. *)
Definition pant : Product :=
  {| productId := "prod8530240"; color := "White"; size := "M";
     name := "ABC Jogger"; productLine := "ABC Jogger";
     url := "https://shop.lululemon.com/p/men-joggers/ABC-Jogger/_/prod8530240?color=0001&sz=M";
     region := "US"; image := "";
     currentPrice := Some (Num (Q2Qc 78)); originalPrice := None; onSale := false;
     stockStatus := "in_stock"; availableColors := Some [black; white];
     markdownUrl := None; trackNewColors := true;
     addedAt := 0; lastChecked := 0; lastChange := None |}.

(** Both pages are served. *)
Definition env_two_pages : Env :=
  serving [(shirt_url "0001", HttpResponse true 200 page_black_sold_out);
           (url pant, HttpResponse true 200 page_black_sold_out)] (λ _, true).

Definition tracking (l : list Product) : Storage :=
  {| trackedProducts := l; notificationMap := ∅ |}.

(** A product that is both sold out and on sale. *)
Definition sold_out_on_sale : Product :=
  {| productId := "prod11710026"; color := "Black"; size := "M";
     name := "Metal Vent Tech Short-Sleeve Shirt";
     productLine := "Metal Vent Tech Short-Sleeve Shirt";
     url := shirt_url "74134"; region := "US"; image := "";
     currentPrice := Some (Num (Q2Qc 40)); originalPrice := Some (Num (Q2Qc 60));
     onSale := true; stockStatus := "sold_out";
     availableColors := Some [black; white];
     markdownUrl := None; trackNewColors := true;
     addedAt := 0; lastChecked := 0; lastChange := None |}.

(** A snapshot of the shirt with two colors, nothing else changed. *)
Definition two_colors : Snapshot :=
  {| snap_currentPrice := Some (Num (Q2Qc 78)); snap_originalPrice := None;
     snap_onSale := false; snap_stockStatus := "in_stock";
     snap_availableColors := [black; white] |}.

(** The normal page with a low-stock banner. *)
Definition page_low_stock : Page :=
  {| html := "<html><body>Metal Vent Tech <span>Hurry, only a few left!</span></body></html>";
     next_data_script := next_data_script page_with_new_color;
     ld_json_scripts := []; stock_avail_msg_visible := false; price_match := None |}.

(** A page of an SFCC site: no payload, a JSON-LD [ProductGroup] with two
    sizes of one color. *)
Definition sfcc_variant (variant_size availability : string) : Variant :=
  {| v_color := "Black"; v_size := variant_size;
     v_offers := Some {| o_price := JString "580.00"; o_availability := availability |} |}.

Definition sfcc_page : Page :=
  {| html := "<html><body>Metal Vent Tech</body></html>";
     next_data_script := None;
     ld_json_scripts :=
       [None;
        Some {| ld_type := "ProductGroup";
                hasVariant := Some [sfcc_variant "M" "https://schema.org/InStock";
                                    sfcc_variant "L" "https://schema.org/OutOfStock"] |}];
     stock_avail_msg_visible := false; price_match := None |}.

(** A snapshot of the shirt at a lower price. *)
Definition cheaper : Snapshot :=
  {| snap_currentPrice := Some (Num (Q2Qc 68)); snap_originalPrice := None;
     snap_onSale := false; snap_stockStatus := "in_stock";
     snap_availableColors := [black; white] |}.

(** A storage that maps one notification to the page of the shirt. *)
Definition one_notification : Storage :=
  {| trackedProducts := [black_M];
     notificationMap := {[ "lulu-0" := shirt_url "74134" ]} |}.

(** The path of the page of the shirt, before its [/_/] segment. *)
Definition shirt_path : string :=
  "https://shop.lululemon.com/p/men-ss-tops/Metal-Vent-Tech-Short-Sleeve-Shirt-3".



End Scenario.

(** * Properties *)

(** ** Rules for postconditions *)

Lemma wp_ret {A} (a : A) Q s : Q (Ok a) s → wp (mret a) Q s.
Proof. done. Qed.

Lemma wp_bind {A B} (m : M A) (f : A → M B) Q s :
  wp m (λ r s', match r with Ok a => wp (f a) Q s' | Thrown => Q Thrown s' end) s →
  wp (m ≫= f) Q s.
Proof.
  unfold wp, mbind, M_bind. by destruct (m s) as [[a|] s'].
Qed.

Lemma wp_gets {A} (f : State → A) Q s : Q (Ok (f s)) s → wp (gets f) Q s.
Proof. done. Qed.

Lemma wp_modify (f : State → State) Q s : Q (Ok tt) (f s) → wp (modify f) Q s.
Proof. done. Qed.

Lemma wp_tick Q s : Q (Ok (clock s)) (set_clock (S (clock s)) s) → wp tick Q s.
Proof. done. Qed.

Lemma wp_mono {A} (m : M A) (P Q : Result A → State → Prop) s :
  wp m P s → (∀ r s', P r s' → Q r s') → wp m Q s.
Proof. unfold wp. auto. Qed.

Lemma Forall_filter_keep {A} (P Q : A → Prop) `{!∀ x, Decision (Q x)} (l : list A) :
  Forall P l → Forall P (filter Q l).
Proof. rewrite !Forall_forall. intros HP x [_ Hx]%list_elem_of_filter. auto. Qed.

Lemma filter_all_out {A} (P : A → Prop) `{!∀ x, Decision (P x)} (l : list A) :
  Forall (λ x, ¬ P x) l → filter P l = [].
Proof. induction 1 as [|x l Hx _ IH]; [done|]. by rewrite filter_cons_False. Qed.

(** Equality of states, field by field. *)
Lemma state_ext (s s' : State) :
  storage s = storage s' →
  badgeText s = badgeText s' →
  badgeBackgroundColor s = badgeBackgroundColor s' →
  clock s = clock s' →
  requests s = requests s' →
  notifications s = notifications s' →
  console_errors s = console_errors s' →
  updatedProducts s = updatedProducts s' →
  pendingNotifications s = pendingNotifications s' →
  fetchCache s = fetchCache s' →
  newColorNotifiedProductIds s = newColorNotifiedProductIds s' →
  s = s'.
Proof. destruct s, s'; simpl; congruence. Qed.

Ltac state_simpl :=
  cbn [notifying fetched requesting
       set_clock set_requests set_notifications set_console_errors
       set_updatedProducts set_pendingNotifications set_fetchCache
       set_newColorNotifiedProductIds set_storage set_badge
       storage badgeText badgeBackgroundColor clock requests notifications
       console_errors updatedProducts pendingNotifications fetchCache
       newColorNotifiedProductIds length Nat.add].

Ltac state_eq :=
  subst; apply state_ext; state_simpl;
  rewrite ?app_nil_r, <- ?app_assoc; try reflexivity.

(** ** The snapshot extractor *)

Section ExtractorFacts.
Context {B : Builtins}.

Ltac status_cases :=
  repeat (case_match; simpl); unfold valid_status; auto.

Lemma sku_price_update_status price r :
  snap_stockStatus (sku_price_update price r) = snap_stockStatus r.
Proof. unfold sku_price_update. by repeat (case_match; simpl). Qed.

Lemma apply_query_data_status product qd r :
  valid_status (snap_stockStatus r) →
  valid_status (snap_stockStatus (apply_query_data product qd r)).
Proof.
  intros H. unfold apply_query_data.
  repeat (case_match; simpl; rewrite ?sku_price_update_status);
    unfold valid_status; auto.
Qed.

Lemma apply_product_group_status product ld r :
  valid_status (snap_stockStatus r) →
  valid_status (snap_stockStatus (apply_product_group product ld r)).
Proof. intros H. unfold apply_product_group. status_cases. Qed.

Lemma stock_fallback_status page product r :
  valid_status (snap_stockStatus r) →
  valid_status (snap_stockStatus (stock_fallback page product r)).
Proof. intros H. unfold stock_fallback. status_cases. Qed.

(** The extractor only produces the three statuses. *)
Lemma parseProductHtml_status page product :
  valid_status (snap_stockStatus (parseProductHtml page product)).
Proof.
  unfold parseProductHtml.
  set (r0 := {| snap_currentPrice := None; snap_originalPrice := None;
                snap_onSale := false; snap_stockStatus := "in_stock";
                snap_availableColors := [] |}).
  assert (valid_status (snap_stockStatus r0)) as H0 by (by left).
  match goal with |- context [stock_fallback page product ?r] =>
    assert (valid_status (snap_stockStatus r)) as H1 end.
  { repeat case_match; auto using apply_query_data_status, apply_product_group_status. }
  apply (stock_fallback_status page product) in H1.
  repeat case_match; simpl; auto.
Qed.

(** *** The sale flag *)

Lemma sku_price_update_onSale price r :
  snap_onSale r = false →
  snap_onSale (sku_price_update price r) = true
  ↔ js_truthy (salePrice price) = true
    ∧ number_truthy (parseFloat (salePrice price)) = true
    ∧ number_truthy (parseFloat (listPrice price)) = true
    ∧ number_lt (parseFloat (salePrice price)) (parseFloat (listPrice price)) = true.
Proof.
  intros Hr. unfold sku_price_update, or_null.
  destruct (js_truthy (salePrice price)),
           (number_truthy (parseFloat (listPrice price))) eqn:Hl; simpl;
    rewrite ?Hl; simpl;
    destruct (number_truthy (parseFloat (salePrice price))); simpl;
    try destruct (number_lt _ _); simpl; rewrite ?Hr; naive_solver.
Qed.

Lemma apply_query_data_onSale q queryData r :
  snap_onSale r = false →
  snap_onSale (apply_query_data q queryData r) = true
  ↔ ∃ code sku price,
      getColorCodeFromUrl (url q) = Some code
      ∧ string_truthy code = true
      ∧ List.find (sku_matches code q) (qd_skus queryData) = Some sku
      ∧ sku_price sku = Some price
      ∧ js_truthy (salePrice price) = true
      ∧ number_truthy (parseFloat (salePrice price)) = true
      ∧ number_truthy (parseFloat (listPrice price)) = true
      ∧ number_lt (parseFloat (salePrice price)) (parseFloat (listPrice price)) = true.
Proof.
  intros Hr. unfold apply_query_data.
  set (r1 := match productSummary queryData with
             | Some ps => if isSoldOut ps then with_stockStatus "sold_out" r else r
             | None => r
             end).
  set (r2 := match colors queryData with
             | Some cs => with_availableColors _ r1
             | None => r1
             end).
  assert (snap_onSale r2 = false) as Hr2.
  { subst r2 r1. by repeat (case_match; simpl). }
  clearbody r2. clear r1.
  assert (∀ r3 : Snapshot,
            snap_onSale match qd_skus queryData with
                        | first :: _ =>
                            if negb (price_truthy (snap_currentPrice r3))
                            then with_currentPrice
                                   (or_null (parseFloat
                                      (from_option listPrice JUndefined (sku_price first)))) r3
                            else r3
                        | [] => r3
                        end = snap_onSale r3) as Hlast.
  { intros r3. by repeat (case_match; simpl). }
  rewrite Hlast. clear Hlast.
  destruct (getColorCodeFromUrl (url q)) as [code|];
    [|rewrite Hr2; split; [done|intros (? & ? & ? & ? & _); simplify_eq]].
  destruct (string_truthy code) eqn:Hcode;
    [|rewrite Hr2; split; [done|intros (? & ? & ? & ? & ? & _); simplify_eq; congruence]].
  destruct (List.find (sku_matches code q) (qd_skus queryData)) as [sku|] eqn:Hfind.
  - assert (∀ r4 : Snapshot,
              snap_onSale (if negb (sku_available sku)
                           then with_stockStatus "sold_out" r4 else r4)
              = snap_onSale r4) as Havail by (intros; by case_match).
    rewrite Havail.
    destruct (sku_price sku) as [price|] eqn:Hprice.
    + rewrite (sku_price_update_onSale price r2 Hr2). split.
      * intros H. exists code, sku, price. by repeat (split; [done|]).
      * intros (code' & sku' & price' & ? & ? & ? & ? & H). by simplify_eq.
    + rewrite Hr2. split; [done|].
      intros (code' & sku' & price' & ? & ? & ? & ? & H). simplify_eq.
  - split; [|intros (? & ? & ? & ? & ? & ? & _); simplify_eq].
    intros H. exfalso. revert H.
    repeat (case_match; simpl); rewrite ?Hr2; done.
Qed.

Lemma apply_product_group_onSale product ld r :
  snap_onSale (apply_product_group product ld r) = snap_onSale r.
Proof. unfold apply_product_group. by repeat (case_match; simpl). Qed.

Lemma stock_fallback_onSale page product r :
  snap_onSale (stock_fallback page product r) = snap_onSale r.
Proof. unfold stock_fallback. by repeat (case_match; simpl). Qed.

(** The extractor sets [onSale] exactly when it finds a sale price
    strictly below the list price. *)
Lemma parseProductHtml_onSale page q :
  snap_onSale (parseProductHtml page q) = true ↔ sale_below_list page q.
Proof.
  unfold parseProductHtml, sale_below_list.
  set (r0 := {| snap_currentPrice := None; snap_originalPrice := None;
                snap_onSale := false; snap_stockStatus := "in_stock";
                snap_availableColors := [] |}).
  match goal with |- context [stock_fallback page q ?r] => set (r2 := r) end.
  assert (snap_onSale
            (if negb (price_truthy (snap_currentPrice (stock_fallback page q r2)))
             then match price_match page with
                  | Some digits =>
                      with_currentPrice (Some (parseFloat_string digits))
                                        (stock_fallback page q r2)
                  | None => stock_fallback page q r2
                  end
             else stock_fallback page q r2)
          = snap_onSale r2) as ->.
  { repeat (case_match; simpl); apply stock_fallback_onSale. }
  subst r2.
  match goal with |- context [if ?c then match ?x with Some ld => _ | None => ?r end else _] =>
    set (r1 := r);
    assert (snap_onSale (if c then match x with
                                   | Some ld => apply_product_group q ld r1
                                   | None => r1
                                   end else r1) = snap_onSale r1) as ->
  end.
  { repeat (case_match; simpl); try done. apply apply_product_group_onSale. }
  subst r1.
  destruct (next_data_script page) as [[queries|]|];
    [|split; [done|intros (? & ? & ? & ? & ? & ? & _); simplify_eq]..].
  destruct (find_query_data queries) as [queryData|] eqn:Hqd;
    [|split; [done|intros (? & ? & ? & ? & ? & ? & ? & _); simplify_eq]].
  rewrite (apply_query_data_onSale q queryData r0 eq_refl). split.
  - intros (code & sku & price & H). by exists queries, queryData, code, sku, price.
  - intros (queries' & queryData' & code & sku & price & ? & ? & H). simplify_eq.
    by exists code, sku, price.
Qed.

End ExtractorFacts.

(** ** More on the snapshot extractor *)

Section SnapshotFacts.
Context {B : Builtins}.

(** The extraction reads the URL, the size and the color of the product
    and nothing else of it. *)
Lemma apply_query_data_ext p q :
  url q = url p → size q = size p → apply_query_data q = apply_query_data p.
Proof.
  intros Hu Hs. unfold apply_query_data, sku_matches, size_unselected.
  by rewrite Hu, Hs.
Qed.

Lemma apply_product_group_ext p q :
  color q = color p → size q = size p → apply_product_group q = apply_product_group p.
Proof.
  intros Hc Hs. unfold apply_product_group, size_unselected.
  by rewrite Hc, Hs.
Qed.

Lemma stock_fallback_ext page p q :
  url q = url p → stock_fallback page q = stock_fallback page p.
Proof. intros Hu. unfold stock_fallback, isIntl. by rewrite Hu. Qed.

Lemma parseProductHtml_ext page p q :
  url q = url p → size q = size p → color q = color p →
  parseProductHtml page q = parseProductHtml page p.
Proof.
  intros Hu Hs Hc. unfold parseProductHtml.
  rewrite (apply_query_data_ext p q Hu Hs), (apply_product_group_ext p q Hc Hs),
    (stock_fallback_ext page p q Hu).
  unfold isIntl. by rewrite Hu.
Qed.

(** *** The original price *)

Lemma sku_price_update_original price r :
  (is_Some (snap_originalPrice r) ↔ snap_onSale r = true) →
  is_Some (snap_originalPrice (sku_price_update price r))
  ↔ snap_onSale (sku_price_update price r) = true.
Proof.
  intros Hr. unfold sku_price_update.
  by repeat (case_match; simpl).
Qed.

Lemma apply_query_data_original q queryData r :
  (is_Some (snap_originalPrice r) ↔ snap_onSale r = true) →
  is_Some (snap_originalPrice (apply_query_data q queryData r))
  ↔ snap_onSale (apply_query_data q queryData r) = true.
Proof.
  intros Hr. unfold apply_query_data.
  set (r1 := match productSummary queryData with
             | Some ps => if isSoldOut ps then with_stockStatus "sold_out" r else r
             | None => r
             end).
  set (r2 := match colors queryData with
             | Some cs => with_availableColors _ r1
             | None => r1
             end).
  assert (is_Some (snap_originalPrice r2) ↔ snap_onSale r2 = true) as Hr2.
  { subst r2 r1. by repeat (case_match; simpl). }
  clearbody r2. clear r1 Hr.
  repeat (case_match; simpl); try done;
    by apply sku_price_update_original.
Qed.

Lemma apply_product_group_original product ld r :
  snap_originalPrice (apply_product_group product ld r) = snap_originalPrice r.
Proof. unfold apply_product_group. by repeat (case_match; simpl). Qed.

Lemma stock_fallback_original page product r :
  snap_originalPrice (stock_fallback page product r) = snap_originalPrice r.
Proof. unfold stock_fallback. by repeat (case_match; simpl). Qed.

(** X1. A snapshot has an original price exactly when it is on sale: the
    extractor records the list price as the original price when, and only
    when, it finds a sale price below it. *)
Theorem original_price_iff_on_sale page q :
  is_Some (snap_originalPrice (parseProductHtml page q))
  ↔ snap_onSale (parseProductHtml page q) = true.
Proof.
  unfold parseProductHtml.
  set (r0 := {| snap_currentPrice := None; snap_originalPrice := None;
                snap_onSale := false; snap_stockStatus := "in_stock";
                snap_availableColors := [] |}).
  assert (is_Some (snap_originalPrice r0) ↔ snap_onSale r0 = true) as H0.
  { simpl. split; [by intros [? ?]|done]. }
  match goal with |- context [stock_fallback page q ?r] => set (r2 := r) end.
  assert (is_Some (snap_originalPrice r2) ↔ snap_onSale r2 = true) as H2.
  { subst r2.
    repeat case_match; rewrite ?apply_product_group_original, ?apply_product_group_onSale;
      try done; by apply apply_query_data_original. }
  clearbody r2.
  repeat (case_match; simpl);
    by rewrite stock_fallback_original, stock_fallback_onSale.
Qed.

(** *** The prices of a sale *)

Lemma sku_price_update_ordered price r :
  snap_onSale r = false →
  snap_onSale (sku_price_update price r) = true →
  ∃ sale list,
    snap_currentPrice (sku_price_update price r) = Some sale
    ∧ snap_originalPrice (sku_price_update price r) = Some list
    ∧ number_truthy sale = true
    ∧ number_lt sale list = true.
Proof.
  intros Hr. unfold sku_price_update, or_null.
  destruct (js_truthy (salePrice price)); simpl;
    destruct (number_truthy (parseFloat (listPrice price))) eqn:Hl; simpl;
    try (intros H; congruence).
  rewrite Hl.
  destruct (number_truthy (parseFloat (salePrice price))) eqn:Hs; simpl;
    [|intros H; congruence].
  destruct (number_lt _ _) eqn:Hlt; simpl; [|intros H; congruence].
  intros _. eexists _, _. by repeat split.
Qed.

Lemma stock_fallback_current page product r :
  snap_currentPrice (stock_fallback page product r) = snap_currentPrice r.
Proof. unfold stock_fallback. by repeat (case_match; simpl). Qed.

Lemma apply_query_data_ordered q queryData r :
  snap_onSale r = false →
  snap_onSale (apply_query_data q queryData r) = true →
  ∃ sale list,
    snap_currentPrice (apply_query_data q queryData r) = Some sale
    ∧ snap_originalPrice (apply_query_data q queryData r) = Some list
    ∧ number_truthy sale = true
    ∧ number_lt sale list = true.
Proof.
  intros Hr. unfold apply_query_data.
  set (r1 := match productSummary queryData with
             | Some ps => if isSoldOut ps then with_stockStatus "sold_out" r else r
             | None => r
             end).
  set (r2 := match colors queryData with
             | Some cs => with_availableColors _ r1
             | None => r1
             end).
  assert (snap_onSale r2 = false) as Hr2.
  { subst r2 r1. by repeat (case_match; simpl). }
  clearbody r2. clear r1 Hr.
  match goal with
  | |- snap_onSale match _ with first :: _ => if _ then _ else ?x | [] => _ end = true → _ =>
      set (r3 := x)
  end.
  assert (snap_onSale r3 = true →
          ∃ sale list, snap_currentPrice r3 = Some sale
                       ∧ snap_originalPrice r3 = Some list
                       ∧ number_truthy sale = true
                       ∧ number_lt sale list = true) as Hr3.
  { subst r3. repeat (case_match; simpl); try (intros ?; congruence);
      by apply sku_price_update_ordered. }
  clearbody r3.
  destruct (qd_skus queryData) as [|first rest]; [done|].
  destruct (negb (price_truthy (snap_currentPrice r3))) eqn:Hp; [|done].
  simpl. intros Hsale. destruct (Hr3 Hsale) as (sale & list & Hc & _ & Ht & _).
  rewrite Hc in Hp. simpl in Hp. by rewrite Ht in Hp.
Qed.

(** X2. The prices of a sale.  On a page of the US site, a snapshot that
    is on sale carries both prices, the current one strictly below the
    original one: no later step of the extraction replaces the sale price
    it found. *)
Theorem sale_prices_are_ordered page q :
  isIntl q = false →
  snap_onSale (parseProductHtml page q) = true →
  ∃ sale list,
    snap_currentPrice (parseProductHtml page q) = Some sale
    ∧ snap_originalPrice (parseProductHtml page q) = Some list
    ∧ number_lt sale list = true.
Proof.
  intros Hintl. unfold parseProductHtml. rewrite Hintl. simpl.
  set (r0 := {| snap_currentPrice := None; snap_originalPrice := None;
                snap_onSale := false; snap_stockStatus := "in_stock";
                snap_availableColors := [] |}).
  match goal with |- context [stock_fallback page q ?r] => set (r2 := r) end.
  assert (snap_onSale r2 = true →
          ∃ sale list, snap_currentPrice r2 = Some sale
                       ∧ snap_originalPrice r2 = Some list
                       ∧ number_truthy sale = true
                       ∧ number_lt sale list = true) as H2.
  { subst r2. destruct (next_data_script page) as [[queries|]|]; simpl.
    - destruct (find_query_data queries) as [queryData|]; [|done].
      by apply apply_query_data_ordered.
    - done.
    - case_match; [|done]. by rewrite apply_product_group_onSale. }
  clearbody r2.
  destruct (negb (price_truthy (snap_currentPrice (stock_fallback page q r2)))) eqn:Hp.
  - rewrite stock_fallback_current in Hp.
    assert (snap_onSale r2 = false) as Hoff.
    { destruct (snap_onSale r2) eqn:Hon; [|done].
      destruct (H2 eq_refl) as (sale & list & Hc & _ & Ht & _).
      rewrite Hc in Hp. simpl in Hp. by rewrite Ht in Hp. }
    destruct (price_match page); simpl; rewrite stock_fallback_onSale; congruence.
  - rewrite stock_fallback_onSale, stock_fallback_current, stock_fallback_original.
    intros Hon. destruct (H2 Hon) as (sale & list & Hc & Ho & _ & Hlt).
    by exists sale, list.
Qed.

(** *** Sold out *)

Lemma apply_product_group_sold_out product ld r :
  snap_stockStatus r = "sold_out" →
  snap_stockStatus (apply_product_group product ld r) = "sold_out".
Proof. intros H. unfold apply_product_group. by repeat (case_match; simpl). Qed.

Lemma stock_fallback_sold_out page product r :
  snap_stockStatus r = "sold_out" →
  snap_stockStatus (stock_fallback page product r) = "sold_out".
Proof.
  intros H. unfold stock_fallback.
  repeat (case_match; simpl); try done;
    repeat match goal with
           | H' : bool_decide _ = true |- _ => apply bool_decide_eq_true in H'
           end; congruence.
Qed.

(** X3. Sold out wins.  When the payload of the page marks the product
    as sold out, or the SKU of the tracked color and size as unavailable,
    the snapshot is [sold_out], whatever the rest of the page says: no
    low-stock banner and no later step brings it back. *)
Theorem sold_out_wins page q queries queryData :
  next_data_script page = Some (Some queries) →
  find_query_data queries = Some queryData →
  (∃ ps, productSummary queryData = Some ps ∧ isSoldOut ps = true)
  ∨ (∃ code sku,
       getColorCodeFromUrl (url q) = Some code ∧ code ≠ ""
       ∧ List.find (sku_matches code q) (qd_skus queryData) = Some sku
       ∧ sku_available sku = false) →
  snap_stockStatus (parseProductHtml page q) = "sold_out".
Proof.
  intros Hscript Hqd Hwhy.
  set (r0 := {| snap_currentPrice := None; snap_originalPrice := None;
                snap_onSale := false; snap_stockStatus := "in_stock";
                snap_availableColors := [] |}).
  assert (snap_stockStatus (apply_query_data q queryData r0) = "sold_out") as H1.
  { unfold apply_query_data.
    set (r1 := match productSummary queryData with
               | Some ps => if isSoldOut ps then with_stockStatus "sold_out" r0 else r0
               | None => r0
               end).
    set (r2 := match colors queryData with
               | Some cs => with_availableColors _ r1
               | None => r1
               end).
    assert (snap_stockStatus r2 = snap_stockStatus r1) as H21.
    { subst r2. by case_match. }
    assert (∀ r3 : Snapshot,
              snap_stockStatus match qd_skus queryData with
                               | first :: _ =>
                                   if negb (price_truthy (snap_currentPrice r3))
                                   then with_currentPrice
                                          (or_null (parseFloat
                                             (from_option listPrice JUndefined
                                                (sku_price first)))) r3
                                   else r3
                               | [] => r3
                               end = snap_stockStatus r3) as Hlast.
    { intros r3. by repeat (case_match; simpl). }
    rewrite Hlast. clear Hlast.
    destruct Hwhy as [(ps & Hps & Hsold)|(code & sku & Hcode & Hne & Hfind & Havail)].
    - assert (snap_stockStatus r2 = "sold_out") as H2.
      { rewrite H21. subst r1. by rewrite Hps, Hsold. }
      clearbody r2. clear H21 r1.
      repeat (case_match; simpl; rewrite ?sku_price_update_status); done.
    - rewrite Hcode. unfold string_truthy. rewrite bool_decide_eq_false_2 by done.
      simpl. rewrite Hfind, Havail. done. }
  unfold parseProductHtml. rewrite Hscript, Hqd. fold r0.
  match goal with |- context [stock_fallback page q ?r] => set (r2 := r) end.
  assert (snap_stockStatus r2 = "sold_out") as H2.
  { subst r2. repeat case_match; try done. by apply apply_product_group_sold_out. }
  apply (stock_fallback_sold_out page q) in H2.
  by repeat (case_match; simpl).
Qed.

(** *** Low stock *)

Lemma apply_query_data_not_low q queryData r :
  snap_stockStatus r = "in_stock" ∨ snap_stockStatus r = "sold_out" →
  snap_stockStatus (apply_query_data q queryData r) = "in_stock"
  ∨ snap_stockStatus (apply_query_data q queryData r) = "sold_out".
Proof.
  intros H. unfold apply_query_data.
  repeat (case_match; simpl; rewrite ?sku_price_update_status); auto.
Qed.

Lemma apply_product_group_not_low product ld r :
  snap_stockStatus r = "in_stock" ∨ snap_stockStatus r = "sold_out" →
  snap_stockStatus (apply_product_group product ld r) = "in_stock"
  ∨ snap_stockStatus (apply_product_group product ld r) = "sold_out".
Proof. intros H. unfold apply_product_group. repeat (case_match; simpl); auto. Qed.

(** X4. Low stock needs a banner.  A snapshot is [low_stock] only when
    the document shows it: on the US site one of the low-stock texts, on
    an SFCC site a visible [stock-avail-msg] element.  The payloads alone
    never give this status. *)
Theorem low_stock_needs_banner page q :
  snap_stockStatus (parseProductHtml page q) = "low_stock" →
  if isIntl q then stock_avail_msg_visible page = true
  else includes (html page) "pdp-inventory-low-stock-warning"
       || includes (toLowerCase (html page)) "hurry, only a few left"
       || includes (toLowerCase (html page)) "only a few left"
       || includes (toLowerCase (html page)) "almost gone" = true.
Proof.
  unfold parseProductHtml.
  set (r0 := {| snap_currentPrice := None; snap_originalPrice := None;
                snap_onSale := false; snap_stockStatus := "in_stock";
                snap_availableColors := [] |}).
  match goal with |- context [stock_fallback page q ?r] => set (r2 := r) end.
  assert (snap_stockStatus r2 = "in_stock" ∨ snap_stockStatus r2 = "sold_out") as H2.
  { assert (snap_stockStatus r0 = "in_stock" ∨ snap_stockStatus r0 = "sold_out") as H0
      by (by left).
    subst r2.
    repeat case_match;
      auto using apply_query_data_not_low, apply_product_group_not_low. }
  clearbody r2.
  assert (snap_stockStatus (stock_fallback page q r2) = "low_stock" →
          if isIntl q then stock_avail_msg_visible page = true
          else includes (html page) "pdp-inventory-low-stock-warning"
               || includes (toLowerCase (html page)) "hurry, only a few left"
               || includes (toLowerCase (html page)) "only a few left"
               || includes (toLowerCase (html page)) "almost gone" = true) as Hfb.
  { unfold stock_fallback. destruct (isIntl q); simpl.
    - repeat (case_match; simpl); try done; destruct H2; congruence.
    - destruct (_ || _ || _ || _); [done|].
      repeat (case_match; simpl); try done; destruct H2; congruence. }
  repeat (case_match; simpl); done.
Qed.

(** *** The colors of an SFCC page *)

Lemma variant_colors_spec seen variants :
  NoDup (c_code <$> variant_colors seen variants)
  ∧ ∀ color_name,
      color_name ∈ c_code <$> variant_colors seen variants
      ↔ color_name ≠ "" ∧ (color_name ∉ seen)
        ∧ ∃ v, v ∈ variants ∧ v_color v = color_name.
Proof.
  revert seen. induction variants as [|v rest IH]; intros seen; simpl.
  - split; [constructor|]. intros color_name. split; [by intros ?%elem_of_nil|].
    by intros (_ & _ & v & ?%elem_of_nil & _).
  - destruct (string_truthy (v_color v)) eqn:Htruthy; simpl.
    + destruct (decide (v_color v ∈ seen)) as [Hseen|Hseen].
      * rewrite bool_decide_eq_true_2 by done. simpl.
        destruct (IH seen) as [Hnd Hmem]. split; [done|].
        intros color_name. rewrite Hmem. split.
        -- intros (? & ? & v' & ? & ?). repeat (split; [done|]). exists v'. split; [by right|done].
        -- intros (? & Hnot & v' & [->|?]%elem_of_cons & Hv'); [congruence|].
           repeat (split; [done|]). by exists v'.
      * rewrite bool_decide_eq_false_2 by done. simpl.
        destruct (IH (v_color v :: seen)) as [Hnd Hmem]. split.
        -- constructor; [|done]. rewrite Hmem. intros (_ & Hnot & _).
           apply Hnot. by left.
        -- intros color_name. rewrite elem_of_cons, Hmem. split.
           ++ intros [->|(? & Hnot & v' & ? & ?)].
              ** split; [|split; [done|]].
                 { intros E. unfold string_truthy in Htruthy. by rewrite E in Htruthy. }
                 exists v. split; [by left|done].
              ** split; [done|]. apply not_elem_of_cons in Hnot as [? ?].
                 split; [done|]. exists v'. split; [by right|done].
           ++ intros (? & Hnot & v' & [->|?]%elem_of_cons & Hv'); [by left|].
              destruct (decide (color_name = v_color v)) as [->|Hne]; [by left|right].
              split; [done|]. split; [by apply not_elem_of_cons|]. by exists v'.
    + destruct (IH seen) as [Hnd Hmem]. split; [done|].
      intros color_name. rewrite Hmem. split.
      * intros (? & ? & v' & ? & ?). repeat (split; [done|]). exists v'. split; [by right|done].
      * intros (Hne & Hnot & v' & [->|?]%elem_of_cons & Hv').
        -- exfalso. apply Hne. unfold string_truthy in Htruthy.
           apply negb_false_iff, bool_decide_eq_true in Htruthy. congruence.
        -- repeat (split; [done|]). by exists v'.
Qed.

(** X5. The colors read from a JSON-LD [ProductGroup] are the colors of
    its variants, each one once, whatever the number of sizes listed for
    a color; a variant without a color gives none. *)
Theorem variant_colors_are_distinct variants :
  NoDup (c_code <$> variant_colors [] variants)
  ∧ ∀ color_name,
      color_name ∈ c_code <$> variant_colors [] variants
      ↔ color_name ≠ "" ∧ ∃ v, v ∈ variants ∧ v_color v = color_name.
Proof.
  destruct (variant_colors_spec [] variants) as [Hnd Hmem]. split; [done|].
  intros color_name. rewrite Hmem. split.
  - by intros (? & _ & ?).
  - intros (? & ?). split; [done|]. split; [|done]. by intros ?%elem_of_nil.
Qed.

(** X6. A page without the [__NEXT_DATA__] payload (an SFCC page) never
    gives a sale: the snapshot is not on sale and has no original price,
    whatever prices the JSON-LD variants carry. *)
Theorem no_payload_no_sale page q :
  next_data_script page = None →
  snap_onSale (parseProductHtml page q) = false
  ∧ snap_originalPrice (parseProductHtml page q) = None.
Proof.
  intros Hnone.
  assert (snap_onSale (parseProductHtml page q) = false) as Hsale.
  { destruct (snap_onSale (parseProductHtml page q)) eqn:Hon; [|done].
    apply parseProductHtml_onSale in Hon as (? & ? & ? & ? & ? & Hscript & _).
    congruence. }
  split; [done|].
  destruct (snap_originalPrice (parseProductHtml page q)) as [v|] eqn:Ho; [|done].
  assert (is_Some (snap_originalPrice (parseProductHtml page q))) as Hsome
    by (by rewrite Ho).
  unfold parseProductHtml in Hsome, Hsale. rewrite Hnone in Hsome, Hsale.
  revert Hsome Hsale.
  set (r0 := {| snap_currentPrice := None; snap_originalPrice := None;
                snap_onSale := false; snap_stockStatus := "in_stock";
                snap_availableColors := [] |}).
  intros Hsome. exfalso. revert Hsome.
  repeat (case_match; simpl);
    rewrite ?stock_fallback_original, ?apply_product_group_original;
    by intros [? ?].
Qed.

End SnapshotFacts.

(** ** URLs *)

Section UrlFacts.
Context {B : Builtins}.
Local Open Scope string_scope.

Lemma app_String x (a b : string) : String x a ++ b = String x (a ++ b).
Proof. reflexivity. Qed.

Lemma app_empty (b : string) : "" ++ b = b.
Proof. reflexivity. Qed.

Ltac string_simpl := rewrite ?app_String, ?app_empty; simpl.

Lemma string_app_assoc (a b c : string) : (a ++ b) ++ c = a ++ (b ++ c).
Proof. induction a as [|x a IH]; string_simpl; [done|]. by rewrite IH. Qed.

Lemma string_app_nil_r (a : string) : a ++ "" = a.
Proof. induction a as [|x a IH]; string_simpl; [done|]. by rewrite IH. Qed.

Lemma lacks_app c a b : lacks c (a ++ b) = lacks c a && lacks c b.
Proof.
  induction a as [|x a IH]; string_simpl; [done|]. rewrite IH. by rewrite andb_assoc.
Qed.

Lemma split_on_cons c s : ∃ h t, split_on c s = h :: t.
Proof.
  induction s as [|x s (h & t & IH)]; simpl; [by eexists _, _|].
  destruct (Ascii.eqb x c); [by eexists _, _|]. rewrite IH. by eexists _, _.
Qed.

(** The first piece of a split goes through a prefix that lacks the
    separator. *)
Lemma hd_split_on_app c a b :
  lacks c a = true →
  hd "" (split_on c (a ++ b)) = a ++ hd "" (split_on c b).
Proof.
  induction a as [|x a IH]; string_simpl; [done|].
  intros [Hx Ha]%andb_true_iff. apply negb_true_iff in Hx. rewrite Hx.
  destruct (split_on_cons c (a ++ b)) as (h & t & E).
  specialize (IH Ha). rewrite E in *. simpl in *. by rewrite IH.
Qed.

Lemma hd_split_on_lacks c a : lacks c a = true → hd "" (split_on c a) = a.
Proof.
  induction a as [|x a IH]; simpl; [done|].
  intros [Hx Ha]%andb_true_iff. apply negb_true_iff in Hx. rewrite Hx.
  destruct (split_on_cons c a) as (h & t & E).
  specialize (IH Ha). rewrite E in *. simpl in *. by rewrite IH.
Qed.

Lemma split_on_app c a b :
  lacks c a = true → split_on c (a ++ String c b) = a :: split_on c b.
Proof.
  induction a as [|x a IH]; string_simpl.
  - intros _. by rewrite Ascii.eqb_refl.
  - intros [Hx Ha]%andb_true_iff. apply negb_true_iff in Hx. rewrite Hx.
    by rewrite (IH Ha).
Qed.

Lemma split_on_lacks c a : lacks c a = true → split_on c a = [a].
Proof.
  induction a as [|x a IH]; simpl; [done|].
  intros [Hx Ha]%andb_true_iff. apply negb_true_iff in Hx. rewrite Hx.
  by rewrite (IH Ha).
Qed.

Lemma after_char_app c a b :
  lacks c a = true → after_char c (a ++ b) = after_char c b.
Proof.
  induction a as [|x a IH]; string_simpl; [done|].
  intros [Hx Ha]%andb_true_iff. apply negb_true_iff in Hx. rewrite Hx. by apply IH.
Qed.

Lemma after_char_lacks c a : lacks c a = true → after_char c a = "".
Proof.
  induction a as [|x a IH]; simpl; [done|].
  intros [Hx Ha]%andb_true_iff. apply negb_true_iff in Hx. rewrite Hx. by apply IH.
Qed.

Lemma lacks_hd_split c d s : lacks c s = true → lacks c (hd "" (split_on d s)) = true.
Proof.
  induction s as [|x s IH]; simpl; [done|].
  intros [Hx Hs]%andb_true_iff.
  destruct (Ascii.eqb x d); [done|].
  destruct (split_on_cons d s) as (h & t & E). specialize (IH Hs).
  rewrite E in *. simpl in *. by rewrite Hx, IH.
Qed.

(** The query of a URL is not in a prefix that holds neither [?] nor
    [#]. *)
Lemma url_search_skip a b :
  plain_path a = true → url_search (a ++ b) = url_search b.
Proof.
  intros [Hq Hf]%andb_true_iff. unfold url_search.
  rewrite hd_split_on_app by done. by apply after_char_app.
Qed.

Lemma getColorCodeFromUrl_skip a b :
  plain_path a = true → getColorCodeFromUrl (a ++ b) = getColorCodeFromUrl b.
Proof. intros Ha. unfold getColorCodeFromUrl. by rewrite url_search_skip. Qed.

Lemma plain_value_inv code :
  plain_value code = true →
  code ≠ "" ∧ string_truthy code = true ∧ lacks "&" code = true ∧ lacks "#" code = true.
Proof.
  unfold plain_value. rewrite !andb_true_iff. intros [[[[Ht Ha] Hf] _] _].
  split; [|done]. intros ->. done.
Qed.

(** The parameters of a query whose first one is [key=value]. *)
Lemma URLSearchParams_first key value tail :
  key ≠ "" → lacks "=" key = true → lacks "&" key = true → lacks "&" value = true →
  tail = "" ∨ (∃ r, tail = String "&" r) →
  ∃ more, URLSearchParams (key ++ String "=" (value ++ tail)) = (key, value) :: more.
Proof.
  intros Hkey Heq Hamp Hval Htail. unfold URLSearchParams.
  assert (∃ more, split_on "&" (key ++ String "=" (value ++ tail))
                  = (key ++ String "=" value) :: more) as (more & ->).
  { destruct Htail as [->|(r & ->)].
    - exists []. rewrite string_app_nil_r. apply split_on_lacks.
      rewrite lacks_app. simpl. by rewrite Hamp, Hval.
    - exists (split_on "&" r).
      replace (key ++ String "=" (value ++ String "&" r))
        with ((key ++ String "=" value) ++ String "&" r).
      + apply split_on_app. rewrite lacks_app. simpl. by rewrite Hamp, Hval.
      + rewrite string_app_assoc. by string_simpl. }
  rewrite filter_cons_True.
  2:{ destruct key; [done|]. by string_simpl. }
  rewrite fmap_cons. eexists. f_equal. f_equal.
  - rewrite split_on_app by done. done.
  - rewrite after_char_app by done. simpl. done.
Qed.

Lemma params_get_first key value more :
  params_get key ((key, value) :: more) = Some value.
Proof. unfold params_get. simpl. by rewrite bool_decide_eq_true_2. Qed.

(** The query [color=code], alone or followed by other parameters. *)
Lemma color_query code rest :
  plain_value code = true →
  rest = "" ∨ (∃ r, rest = "&" ++ r) →
  getColorCodeFromUrl ("?color=" ++ code ++ rest) = Some code.
Proof.
  intros (Hne & Htruthy & Hamp & Hfrag)%plain_value_inv Hrest.
  assert (∃ tail, url_search ("?color=" ++ code ++ rest)
                  = "color" ++ String "=" (code ++ tail)
                  ∧ (tail = "" ∨ ∃ r, tail = String "&" r)) as (tail & Hsearch & Htail).
  { unfold url_search.
    rewrite (hd_split_on_app "#" "?color=") by done.
    rewrite (hd_split_on_app "#" code) by done.
    destruct Hrest as [->|(r & ->)].
    - exists "". split; [done|by left].
    - exists (String "&" (hd "" (split_on "#" r))). split; [|right; by eexists].
      by rewrite (hd_split_on_app "#" "&" r). }
  unfold getColorCodeFromUrl. rewrite Hsearch.
  destruct (URLSearchParams_first "color" code tail) as (more & ->); try done.
  by rewrite params_get_first, Htruthy.
Qed.

Lemma string_length_app (a b : string) :
  String.length (a ++ b) = (String.length a + String.length b)%nat.
Proof. induction a as [|x a IH]; string_simpl; [done|]. by rewrite IH. Qed.

Lemma substring_app (a b : string) :
  substring (String.length a) (String.length b) (a ++ b) = b.
Proof.
  induction a as [|x a IH]; string_simpl; [|done].
  induction b as [|y b IHb]; simpl; [done|]. by rewrite IHb.
Qed.

Lemma endsWith_app (a b : string) : endsWith (a ++ b) b = true.
Proof.
  unfold endsWith. rewrite string_length_app.
  rewrite (proj2 (Nat.leb_le _ _)) by lia.
  replace (String.length a + String.length b - String.length b)%nat
    with (String.length a) by lia.
  rewrite substring_app. by apply bool_decide_eq_true_2.
Qed.

Lemma alphanumeric_lacks c s :
  alphanumeric_ascii c = false → alphanumeric s = true → lacks c s = true.
Proof.
  intros Hc. induction s as [|a s IH]; simpl; [done|].
  intros [Ha Hs]%andb_true_iff. rewrite IH by done. rewrite andb_true_r.
  apply negb_true_iff, Ascii.eqb_neq. intros ->. congruence.
Qed.

Lemma plain_code_value code : plain_code code = true → plain_value code = true.
Proof.
  unfold plain_code, plain_value. intros [-> Hs]%andb_true_iff.
  by rewrite !alphanumeric_lacks.
Qed.

Lemma storefront_plain origin : origin ∈ storefronts → plain_path (origin ++ "/") = true.
Proof.
  unfold storefronts. rewrite !elem_of_cons, elem_of_nil.
  by intros [->|[->|[->|[]]]].
Qed.

(** X7. On a URL of one of the storefronts, [getColorCodeFromUrl] reads
    the color code of both formats: the [color] parameter of a US URL,
    alone or followed by other parameters, and the [dwvar_..._color]
    parameter of an SFCC URL.  The URL is absolute, so that [new URL]
    accepts it; the code and the product identifier are made of letters
    and digits. *)
Theorem color_code_of_both_formats origin path code :
  origin ∈ storefronts → plain_path path = true → plain_code code = true →
  (∀ rest, rest = "" ∨ (∃ r, rest = "&" ++ r) →
     getColorCodeFromUrl (origin ++ "/" ++ path ++ "?color=" ++ code ++ rest) = Some code)
  ∧ (∀ pid, alphanumeric pid = true →
       getColorCodeFromUrl (origin ++ "/" ++ path ++ "?dwvar_" ++ pid ++ "_color=" ++ code)
       = Some code).
Proof.
  intros Horigin Hpath Hcode.
  pose proof (storefront_plain origin Horigin) as Hprefix.
  assert (∀ query, getColorCodeFromUrl (origin ++ "/" ++ path ++ query)
                   = getColorCodeFromUrl query) as Hskip.
  { intros query.
    replace (origin ++ "/" ++ path ++ query) with ((origin ++ "/") ++ path ++ query)
      by (by rewrite string_app_assoc).
    by rewrite !getColorCodeFromUrl_skip. }
  pose proof (plain_code_value code Hcode) as Hvalue.
  split.
  - intros rest Hrest. rewrite Hskip. by apply color_query.
  - intros pid Hpid. rewrite Hskip.
    assert (lacks "=" pid = true ∧ lacks "&" pid = true ∧ lacks "#" pid = true)
      as (Heq & Hamp & Hfrag) by (by rewrite !alphanumeric_lacks).
    destruct (plain_value_inv code Hvalue) as (Hne & Htruthy & Hcamp & Hcfrag).
    assert (url_search ("?dwvar_" ++ pid ++ "_color=" ++ code)
            = ("dwvar_" ++ pid ++ "_color") ++ String "=" (code ++ "")) as Hsearch.
    { unfold url_search.
      rewrite (hd_split_on_app "#" "?dwvar_") by done.
      rewrite (hd_split_on_app "#" pid) by done.
      rewrite (hd_split_on_app "#" "_color=") by done.
      rewrite hd_split_on_lacks by done.
      rewrite string_app_nil_r, !string_app_assoc. by string_simpl. }
    unfold getColorCodeFromUrl. rewrite Hsearch.
    assert (URLSearchParams (("dwvar_" ++ pid ++ "_color") ++ String "=" (code ++ ""))
            = [("dwvar_" ++ pid ++ "_color", code)]) as ->.
    { unfold URLSearchParams. rewrite string_app_nil_r.
      rewrite split_on_lacks.
      2:{ rewrite !lacks_app. simpl. by rewrite Hamp, Hcamp. }
      rewrite filter_cons_True by (by string_simpl).
      rewrite filter_nil, fmap_cons. f_equal. f_equal.
      - rewrite split_on_app; [done|]. rewrite !lacks_app. simpl. by rewrite Heq.
      - rewrite after_char_app; [by simpl|]. rewrite !lacks_app. simpl. by rewrite Heq. }
    unfold params_get. simpl.
    assert (∀ s, startsWith s "" = true) as -> by (by intros []).
    assert (endsWith ("dwvar_" ++ pid ++ "_color") "_color" = true) as ->; [|done].
    rewrite <- string_app_assoc. apply endsWith_app.
Qed.

(** X8. A URL without a query names no color: [getColorCodeFromUrl]
    answers null. *)
Theorem no_query_no_color_code u :
  lacks "?" u = true → getColorCodeFromUrl u = None.
Proof.
  intros Hu. unfold getColorCodeFromUrl, url_search.
  rewrite after_char_lacks by (by apply lacks_hd_split). done.
Qed.

(** X9. The URL of the clearance page that the resolver synthesizes
    names the tracked color: [getColorCodeFromUrl] reads from it the code
    it was built with, with or without a size. *)
Theorem discount_url_names_the_color p code queryData mt :
  markdown_result p code queryData = Some mt →
  plain_value code = true →
  (∀ ps, productSummary queryData = Some ps →
         plain_path (ps_productId ps) = true
         ∧ plain_path (unifiedId ps) = true
         ∧ plain_path (parentCategoryUnifiedId ps) = true) →
  getColorCodeFromUrl (discountUrl mt) = Some code.
Proof.
  intros Hresult Hcode Hids. unfold markdown_result in Hresult.
  destruct (colors queryData ≫= _); [|done]. injection Hresult as <-. simpl.
  assert (plain_path (from_option ps_productId "" (productSummary queryData)) = true
          ∧ plain_path (from_option unifiedId "" (productSummary queryData)) = true
          ∧ plain_path (from_option parentCategoryUnifiedId ""
                          (productSummary queryData)) = true) as (Hpid & Hslug & Hcat).
  { destruct (productSummary queryData) as [ps|]; [by apply Hids|done]. }
  rewrite (getColorCodeFromUrl_skip "https://shop.lululemon.com/p/") by done.
  rewrite getColorCodeFromUrl_skip by done.
  rewrite (getColorCodeFromUrl_skip "/") by done.
  rewrite getColorCodeFromUrl_skip by done.
  rewrite (getColorCodeFromUrl_skip "/_/") by done.
  rewrite getColorCodeFromUrl_skip by done.
  apply color_query; [done|].
  destruct (negb (size_unselected p)); [right; by eexists|by left].
Qed.

Lemma prefix_String a s1 b s2 :
  String.prefix (String a s1) (String b s2)
  = if ascii_dec a b then String.prefix s1 s2 else false.
Proof. reflexivity. Qed.

Lemma prefix_slash_underscore a b :
  lacks "_" a = true → a ≠ "" → String.prefix "/_/" (a ++ "/_/" ++ b) = false.
Proof.
  destruct a as [|x a]; [done|]. intros [Hx Ha]%andb_true_iff _.
  rewrite app_String, prefix_String.
  destruct (ascii_dec "/" x) as [<-|]; [|done].
  destruct a as [|y a].
  - rewrite app_empty, app_String, prefix_String. by destruct (ascii_dec _ _).
  - rewrite app_String, prefix_String.
    apply andb_true_iff in Ha as [Hy _]. apply negb_true_iff, Ascii.eqb_neq in Hy.
    by destruct (ascii_dec "_" y) as [<-|].
Qed.

(** X10. The URL of the clearance page that the resolver requests is the
    URL of the product with [-MD] put before its [/_/] segment; the query
    is left as it is, so the request is for the same color. *)
Theorem mdUrl_inserts_MD p a b :
  url p = a ++ "/_/" ++ b → lacks "_" a = true →
  mdUrl p = a ++ "-MD/_/" ++ b
  ∧ (plain_path a = true →
     getColorCodeFromUrl (mdUrl p) = getColorCodeFromUrl (url p)).
Proof.
  intros Hurl Ha.
  assert (mdUrl p = a ++ "-MD/_/" ++ b) as Hmd.
  { unfold mdUrl. rewrite Hurl. clear Hurl.
    induction a as [|x a IH].
    - by destruct b.
    - assert (replace_first "/_/" "-MD/_/" (String x a ++ "/_/" ++ b)
              = String x (replace_first "/_/" "-MD/_/" (a ++ "/_/" ++ b))) as ->.
      { pose proof (prefix_slash_underscore (String x a) b Ha) as Hpre.
        change (String x a ++ "/_/" ++ b) with (String x (a ++ "/_/" ++ b)) in *.
        unfold replace_first at 1. fold replace_first. by rewrite Hpre. }
      change (String x a ++ "-MD/_/" ++ b) with (String x (a ++ "-MD/_/" ++ b)).
      f_equal. apply IH.
      simpl in Ha. by apply andb_true_iff in Ha as [_ ?]. }
  split; [done|]. intros Hpath. rewrite Hmd, Hurl.
  rewrite !(getColorCodeFromUrl_skip a) by done.
  rewrite (getColorCodeFromUrl_skip "-MD/_/") by done.
  by rewrite (getColorCodeFromUrl_skip "/_/") by done.
Qed.

End UrlFacts.

Section Runs.
Context {B : Builtins}.
Variable env : Env.

(** *** What each phase of the loop body does to the state *)

Lemma do_fetch_eq who u s :
  do_fetch env who u s
  = (Ok (response_page (fetch env (clock s) u)),
     fetched who u (response_page (fetch env (clock s) u)) s).
Proof. reflexivity. Qed.

Lemma sendNotification_eq p c s :
  sendNotification env p c s
  = if notifications_create env (S (clock s))
    then (Ok (Some (new_notifId env (clock s), url p)),
          notifying [{| n_id := new_notifId env (clock s); n_product := p; n_change := c |}]
                    [] (S (S (clock s))) s)
    else (Thrown, set_clock (S (S (clock s))) s).
Proof.
  unfold sendNotification, mbind, M_bind, tick. cbn.
  destruct (notifications_create env (S (clock s))); cbn; [|done].
  f_equal. by state_eq.
Qed.

Lemma wp_notify_changes p cs s :
  wp (notify_changes env p cs)
     (λ r s', ∃ ns pend k, s' = notifying ns pend k s ∧ sent env p cs r ns) s.
Proof.
  revert s. induction cs as [|c cs IH]; intros s.
  - exists [], [], (clock s). split; [by state_eq|]. by split.
  - unfold notify_changes. simpl. apply wp_bind. apply wp_bind.
    unfold wp at 1. rewrite sendNotification_eq.
    destruct (notifications_create env (S (clock s))) eqn:Hc; simpl.
    + apply wp_modify. eapply wp_mono; [apply IH|].
      intros r s' (ns & pend & k & -> & Hall & Hr).
      eexists ({| n_id := new_notifId env (clock s); n_product := p; n_change := c |} :: ns),
              ((new_notifId env (clock s), url p) :: pend), k.
      split; [by state_eq|]. split; [by constructor|].
      destruct r as [[]|]; simpl.
      * by f_equal.
      * destruct Hr as [(c' & rest & ->) Ht]. split; [|done]. by exists c', rest.
    + exists [], [], (S (S (clock s))). split; [by state_eq|].
      split; [done|]. split; [by exists c, cs|by eexists].
Qed.

Lemma checkMarkdownTransition_eq p nd s :
  checkMarkdownTransition env p nd s
  = (Ok (md_lookup env (clock s) p nd), requesting (md_requests env (clock s) p nd) s).
Proof.
  unfold checkMarkdownTransition, md_lookup, md_requests, md_fetches.
  destruct (getColorCodeFromUrl (url p)) as [code|]; simpl;
    [destruct (string_truthy code); simpl;
     [destruct (existsb _ _); simpl|]|];
    unfold mret, M_ret; f_equal; by state_eq.
Qed.

Lemma sent_app p a b r ns1 ns2 :
  sent env p a (Ok tt) ns1 → sent env p b r ns2 → sent env p (a ++ b) r (ns1 ++ ns2).
Proof.
  intros [H1 <-] [H2 Hr]. split; [by apply Forall_app|].
  destruct r as [[]|].
  - by rewrite fmap_app, Hr.
  - destruct Hr as [(c & rest & ->) Ht]. split; [|done].
    exists c, rest. by rewrite fmap_app, <- app_assoc.
Qed.

Lemma sent_app_thrown p a b ns :
  sent env p a Thrown ns → sent env p (a ++ b) Thrown ns.
Proof.
  intros [H1 [(c & rest & ->) Ht]]. split; [done|]. split; [|done].
  exists c, (rest ++ b). by rewrite <- app_assoc.
Qed.

Lemma wp_markdown_phase p nd cs s :
  wp (markdown_phase env p nd cs)
     (λ r s',
        let mt := md_outcome env (clock s) p nd cs in
        let announced := match mt with Some m => [change m] | None => [] end in
        ∃ ns pend k,
          s' = notifying ns pend k (requesting (md_reqs env (clock s) p nd cs) s)
          ∧ match r with
            | Ok (mt', cs') =>
                mt' = mt ∧ cs' = remaining mt cs ∧ sent env p announced (Ok tt) ns
            | Thrown => sent env p announced Thrown ns
            end) s.
Proof.
  unfold markdown_phase, md_outcome, md_reqs.
  destruct (markdown_guard p cs); simpl.
  2:{ exists [], [], (clock s). split; [by state_eq|]. by repeat split. }
  apply wp_bind. unfold wp at 1. rewrite checkMarkdownTransition_eq. simpl.
  destruct (md_lookup env (clock s) p nd) as [mt|]; simpl.
  2:{ eexists [], [], _. split; [by state_eq|]. by repeat split. }
  apply wp_bind. unfold wp at 1. rewrite sendNotification_eq.
  match goal with |- context [notifications_create env ?t] =>
    destruct (notifications_create env t) eqn:Hc end; simpl.
  - apply wp_bind, wp_modify, wp_ret.
    eexists [_], [_], _. split; [by state_eq|].
    repeat split; by repeat constructor.
  - eexists [], [], _. split; [by state_eq|].
    split; [done|]. split; [by eexists _, []|by eexists].
Qed.

(** The [try] block ends in one of the three ways of [body_outcome]. *)
Lemma check_product_outcome p s :
  wp (check_product env p) (body_outcome env p s) s.
Proof.
  unfold check_product. apply wp_bind.
  (* newData *)
  assert (wp (obtain_newData env p)
            (λ r s1, match r with
                     | Ok (Some nd) => acquired env p s nd s1
                     | Ok None => fetchCache s !! baseUrl (url p) = None
                                  ∧ response_page (fetch env (clock s) (url p)) = None
                                  ∧ s1 = fetched by_fetchProductStatus (url p) None s
                     | Thrown => False
                     end) s) as Hnd.
  { unfold obtain_newData. apply wp_bind, wp_gets.
    destruct (fetchCache s !! baseUrl (url p)) as [nd|] eqn:Hc.
    - apply wp_ret. by constructor.
    - apply wp_bind. unfold fetchProductStatus. apply wp_bind.
      unfold wp at 1. rewrite do_fetch_eq. simpl.
      destruct (response_page (fetch env (clock s) (url p))) as [page|] eqn:Hp; simpl.
      + by constructor.
      + done. }
  eapply wp_mono; [exact Hnd|]. clear Hnd.
  intros [[nd|]|] s1 Hs1; [| |done].
  2:{ destruct Hs1 as (Hc & Hp & ->). apply wp_modify.
      change (updatedProducts (fetched by_fetchProductStatus (url p) None s))
        with (updatedProducts s).
      by apply body_unfetched. }
  (* dedup *)
  assert (newColorNotifiedProductIds s1 = newColorNotifiedProductIds s
          ∧ updatedProducts s1 = updatedProducts s) as [Hn Hu].
  { by destruct Hs1. }
  apply wp_bind. unfold dedup_new_color. apply wp_bind, wp_gets, wp_bind, wp_modify, wp_ret.
  rewrite Hn.
  set (cs := deduped p (newColorNotifiedProductIds s) (detectChanges p nd)).
  (* markdown *)
  apply wp_bind. eapply wp_mono; [apply wp_markdown_phase|].
  intros r s3 (ns1 & pend1 & k1 & -> & Hr). simpl in Hr.
  destruct r as [[mt' cs']|]; simpl.
  2:{ replace (notifying _ _ _ _) with (notified_state env p s s1 nd ns1 pend1 k1)
        by (unfold notified_state; fold cs; by state_eq).
      eapply body_thrown; [done|]. by apply sent_app_thrown. }
  destruct Hr as (-> & -> & Hsent1).
  set (mt := md_outcome env (clock s1) p nd cs) in *.
  (* notifications *)
  apply wp_bind. eapply wp_mono; [apply wp_notify_changes|].
  intros r s4 (ns2 & pend2 & k2 & -> & Hsent2).
  pose proof (sent_app _ _ _ _ _ _ Hsent1 Hsent2) as Hsent.
  destruct r as [[]|].
  2:{ replace (notifying ns2 _ _ _)
        with (notified_state env p s s1 nd (ns1 ++ ns2) (pend1 ++ pend2) k2)
        by (unfold notified_state; fold cs; by state_eq).
      by eapply body_thrown. }
  (* the merged product *)
  unfold push_merged. apply wp_bind, wp_bind, wp_tick, wp_ret, wp_bind.
  assert (∀ t1 t2 k s5,
            s5 = set_updatedProducts
                   (updatedProducts s ++ [merged p nd mt t1 (last_change p mt cs t2)])
                   (notified_state env p s s1 nd (ns1 ++ ns2) (pend1 ++ pend2) k) →
            body_outcome env p s (Ok tt) s5) as Hfin.
  { intros t1 t2 k s5 ->. by eapply body_merged. }
  unfold last_change in Hfin.
  destruct mt as [m|]; [|destruct (remaining None cs) as [|first rest] eqn:Hrem].
  - apply wp_bind, wp_tick, wp_ret, wp_modify.
    eapply Hfin. unfold notified_state. fold cs. cbn. rewrite Hu. by state_eq.
  - apply wp_ret, wp_modify.
    eapply (Hfin _ 0%Z). unfold notified_state. fold cs. cbn. rewrite Hu. by state_eq.
  - apply wp_bind, wp_tick, wp_ret, wp_modify.
    eapply Hfin. unfold notified_state. fold cs. cbn. rewrite Hu. by state_eq.
Qed.

Lemma on_error_eq p s : on_error p s = (Ok tt, caught p s).
Proof. unfold on_error, caught, mbind, M_bind, modify, push_updated. simpl. f_equal. Qed.

(** One iteration never throws, and ends as [stepped] says. *)
Lemma check_step_stepped p s :
  ∃ s', check_step env p s = (Ok tt, s') ∧ stepped env p s s'.
Proof.
  pose proof (check_product_outcome p s) as H. unfold wp in H.
  unfold check_step, try_catch.
  destruct (check_product env p s) as [[[]|] s'']; simpl in H.
  - eexists. split; [done|]. by apply stepped_ok.
  - rewrite on_error_eq. eexists. split; [done|]. by apply stepped_caught.
Qed.

Lemma check_loop_cons p l s :
  check_loop env (p :: l) s = check_loop env l (check_step env p s).2.
Proof.
  unfold check_loop. simpl. unfold mbind, M_bind.
  destruct (check_step_stepped p s) as (s' & -> & _). done.
Qed.

Lemma check_loop_app l1 l2 s :
  check_loop env (l1 ++ l2) s = check_loop env l2 (check_loop env l1 s).2.
Proof.
  revert s. induction l1 as [|p l1 IH]; intros s; [done|].
  by rewrite <- app_comm_cons, !check_loop_cons, IH.
Qed.

Lemma check_loop_ok l s : (check_loop env l s).1 = Ok tt.
Proof.
  revert s. induction l as [|p l IH]; intros s; [done|].
  by rewrite check_loop_cons.
Qed.

(** Induction along the loop: a property of the products gone through and
    of the state, kept by every iteration. *)
Lemma check_loop_ind (P : list Product → State → Prop) (l : list Product) s :
  P [] s →
  (∀ done p s0 s', P done s0 → stepped env p s0 s' → P (done ++ [p]) s') →
  P l (check_loop env l s).2.
Proof.
  intros H0 Hstep.
  induction l as [|p l IH] using rev_ind; [done|].
  rewrite check_loop_app. unfold check_loop at 1. simpl.
  unfold mbind, M_bind.
  destruct (check_step_stepped p (check_loop env l s).2) as (s' & Hs' & Hst).
  rewrite Hs'. simpl. by eapply Hstep.
Qed.

(** What an iteration appends to [updatedProducts]: the product itself,
    or the product merged with the snapshot it acquired. *)
Lemma stepped_updated p s s' :
  stepped env p s s' →
  ∃ p', updatedProducts s' = updatedProducts s ++ [p']
        ∧ (p' = p ∨ ∃ nd s1 mt t c, acquired env p s nd s1 ∧ p' = merged p nd mt t c).
Proof.
  intros [s'' H|s'' H]; inversion H; subst; clear H.
  - exists p. split; [done|]. by left.
  - eexists. split; [done|]. right. by eexists _, _, _, _, _.
  - exists p. split; [|by left].
    unfold caught, notified_state. state_simpl.
    match goal with H : acquired _ _ _ _ _ |- _ => by destruct H end.
Qed.

(** *** What a whole run leaves *)

Lemma checkAllProducts_ok s : (checkAllProducts env s).1 = Ok tt.
Proof.
  unfold checkAllProducts, mbind, M_bind, gets. simpl.
  case_bool_decide; [done|]. simpl.
  pose proof (check_loop_ok (trackedProducts (storage s)) (fresh_locals s)) as Hok.
  destruct (check_loop env _ _) as [r sl]. simpl in Hok. subst r. simpl.
  unfold updateBadge, mbind, M_bind, gets, modify.
  destruct (0 <? length (pendingNotifications sl))%nat; simpl;
    match goal with |- context [if ?b then _ else _] => destruct b end; done.
Qed.

(** The trace and the stored list after a run, in terms of the state at
    the end of its loop. *)
Lemma checkAllProducts_end s :
  let sl := (check_loop env (trackedProducts (storage s)) (fresh_locals s)).2 in
  let s' := (checkAllProducts env s).2 in
  trackedProducts (storage s') = updatedProducts sl
  ∧ notifications s' = notifications sl
  ∧ requests s' = requests sl
  ∧ console_errors s' = console_errors sl.
Proof.
  unfold checkAllProducts, mbind, M_bind, gets. simpl.
  case_bool_decide as Hlen.
  - apply nil_length_inv in Hlen. rewrite Hlen. done.
  - simpl.
    pose proof (check_loop_ok (trackedProducts (storage s)) (fresh_locals s)) as Hok.
    destruct (check_loop env _ _) as [r sl]. simpl in Hok. subst r. simpl.
    unfold updateBadge, mbind, M_bind, gets, modify.
    destruct (0 <? length (pendingNotifications sl))%nat; simpl;
      match goal with |- context [if ?b then _ else _] => destruct b end; done.
Qed.

(** What an iteration does to the cache. *)
Lemma acquired_cache p s nd s1 :
  acquired env p s nd s1 →
  updatedProducts s1 = updatedProducts s
  ∧ newColorNotifiedProductIds s1 = newColorNotifiedProductIds s
  ∧ (fetchCache s1 = fetchCache s
     ∨ ∃ page, response_page (fetch env (clock s) (url p)) = Some page
               ∧ nd = parseProductHtml page p
               ∧ fetchCache s1 = <[baseUrl (url p) := nd]> (fetchCache s)).
Proof.
  intros [nd' H|page Hc Hp]; (split; [done|split; [done|]]); [by left|].
  right. by exists page.
Qed.

Lemma stepped_cache p s s' :
  stepped env p s s' →
  fetchCache s' = fetchCache s
  ∨ ∃ page, response_page (fetch env (clock s) (url p)) = Some page
            ∧ fetchCache s' = <[baseUrl (url p) := parseProductHtml page p]> (fetchCache s).
Proof.
  intros [s'' H|s'' H]; inversion H; subst; clear H;
    unfold caught, notified_state; state_simpl; try by left.
  all: match goal with H : acquired _ _ _ _ _ |- _ =>
         apply acquired_cache in H as (_ & _ & [Hc|(page & Hp & -> & Hc)]) end;
    rewrite Hc; [by left|right; by exists page].
Qed.

Lemma acquired_extraction l p s nd s1 :
  (∀ k nd, fetchCache s !! k = Some nd → extraction env l k nd) →
  acquired env p s nd s1 →
  extraction env (l ++ [p]) (baseUrl (url p)) nd.
Proof.
  intros Hinv [nd' Hc|page Hc Hp].
  - destruct (Hinv _ _ Hc) as (q & page & t & Hq & Hk & Hf & ->).
    exists q, page, t. split; [|done]. apply elem_of_app. by left.
  - exists p, page, (clock s). split; [|done]. apply elem_of_app. right. by left.
Qed.

Lemma extraction_mono l l' k nd :
  l ⊆ l' → extraction env l k nd → extraction env l' k nd.
Proof. intros Hl (q & page & t & Hq & H). exists q, page, t. split; [by apply Hl|done]. Qed.

Lemma checked_item_mono l l' p p' :
  l ⊆ l' → checked_item env l p p' → checked_item env l' p p'.
Proof.
  intros Hl [->|(nd & mt & t & c & He & ->)]; [by left|right].
  exists nd, mt, t, c. split; [by eapply extraction_mono|done].
Qed.

(** The invariant of the loop: every cached snapshot is an extraction, and
    every product gone through was kept or merged with one. *)
Lemma check_loop_items l s :
  fetchCache s = ∅ → updatedProducts s = [] →
  let s' := (check_loop env l s).2 in
  (∀ k nd, fetchCache s' !! k = Some nd → extraction env l k nd)
  ∧ Forall2 (checked_item env l) l (updatedProducts s').
Proof.
  intros Hc Hu.
  apply (check_loop_ind (λ done s',
           (∀ k nd, fetchCache s' !! k = Some nd → extraction env done k nd)
           ∧ Forall2 (checked_item env done) done (updatedProducts s'))).
  - rewrite Hc, Hu. split; [|constructor]. intros k nd. by rewrite lookup_empty.
  - intros done p s0 s' [Hcache Hitems] Hst.
    assert (done ⊆ done ++ [p]) as Hsub by (intros x Hx; apply elem_of_app; by left).
    split.
    + intros k nd Hk.
      destruct (stepped_cache _ _ _ Hst) as [Heq|(page & Hp & Heq)]; rewrite Heq in Hk.
      * eapply extraction_mono; [exact Hsub|]. by apply Hcache.
      * destruct (decide (baseUrl (url p) = k)) as [<-|Hne].
        -- rewrite lookup_insert_eq in Hk. injection Hk as <-.
           exists p, page, (clock s0). split; [|done]. apply elem_of_app. right. by left.
        -- rewrite lookup_insert_ne in Hk by done.
           eapply extraction_mono; [exact Hsub|]. by apply Hcache.
    + destruct (stepped_updated _ _ _ Hst) as (p' & -> & Hp').
      apply Forall2_app.
      * eapply Forall2_impl; [exact Hitems|]. intros x y. by apply checked_item_mono.
      * constructor; [|constructor].
        destruct Hp' as [->|(nd & s1 & mt & t & c & Hacq & ->)]; [by left|right].
        exists nd, mt, t, c. split; [|done]. by eapply acquired_extraction.
Qed.

(** Every stored product after a run is the product it was, or that
    product merged with an extraction for its page key. *)
Lemma cycle_items st :
  Forall2 (checked_item env (trackedProducts st)) (trackedProducts st)
          (trackedProducts (storage (cycle env st).2)).
Proof.
  unfold cycle.
  destruct (checkAllProducts_end (initial st)) as (-> & _).
  by apply check_loop_items.
Qed.

Lemma checked_item_identity l p p' : checked_item env l p p' → same_identity p p'.
Proof. intros [->|(nd & mt & t & c & _ & ->)]; by repeat split. Qed.

(** C10. One run of the check cycle persists a list of the same length and
    in the same order as the stored one, and the identity and settings
    fields of every product ([productId], [color], [size], [name],
    [productLine], [url], [region], [image], [trackNewColors], [addedAt])
    are unchanged. *)
Theorem cycle_preserves_identity st :
  Forall2 same_identity (trackedProducts st) (trackedProducts (storage (cycle env st).2)).
Proof.
  eapply Forall2_impl; [apply cycle_items|].
  intros p p'. apply checked_item_identity.
Qed.

(** C8. The stock status is always one of [in_stock], [low_stock] and
    [sold_out]: the extractor only produces these three values, a diff
    only reports a transition to one of them, every merge stores one of
    them, and a run that starts from valid statuses ends with valid
    statuses. *)
Theorem stock_status_closed st :
  (∀ page product, valid_status (snap_stockStatus (parseProductHtml page product)))
  ∧ (∀ p page product from to,
       status_change from to ∈ detectChanges p (parseProductHtml page product) →
       from = stockStatus p ∧ valid_status to)
  ∧ (∀ p nd mt t c,
       valid_status (snap_stockStatus nd) → valid_status (stockStatus (merged p nd mt t c)))
  ∧ Forall2 (λ p p', p' = p ∨ valid_status (stockStatus p'))
            (trackedProducts st) (trackedProducts (storage (cycle env st).2))
  ∧ (Forall (λ p, valid_status (stockStatus p)) (trackedProducts st) →
     Forall (λ p, valid_status (stockStatus p))
            (trackedProducts (storage (cycle env st).2))).
Proof.
  assert (∀ p nd mt t c,
            valid_status (snap_stockStatus nd) →
            valid_status (stockStatus (merged p nd mt t c))) as Hmerged.
  { intros p nd [mt|] t c H; simpl; [by left|done]. }
  assert (Forall2 (λ p p', p' = p ∨ valid_status (stockStatus p'))
            (trackedProducts st) (trackedProducts (storage (cycle env st).2))) as Hall.
  { eapply Forall2_impl; [apply cycle_items|].
    intros p p' [->|(nd & mt & t & c & (q & page & t' & _ & _ & _ & ->) & ->)]; [by left|].
    right. apply Hmerged, parseProductHtml_status. }
  split; [apply parseProductHtml_status|].
  split.
  { intros p page product from to Hin. unfold detectChanges in Hin.
    rewrite !elem_of_app in Hin. destruct Hin as [Hin|[Hin|[Hin|Hin]]].
    - case_bool_decide; [|by apply elem_of_nil in Hin].
      apply list_elem_of_singleton in Hin. injection Hin as -> ->.
      split; [done|apply parseProductHtml_status].
    - repeat case_match; try (by apply elem_of_nil in Hin).
      by apply list_elem_of_singleton in Hin.
    - case_match; [|by apply elem_of_nil in Hin].
      by apply list_elem_of_singleton in Hin.
    - repeat case_match; try (by apply elem_of_nil in Hin).
      apply list_elem_of_fmap in Hin as (c & Hc & _). done. }
  split; [done|]. split; [done|].
  intros Hvalid. revert Hvalid Hall.
  generalize (trackedProducts (storage (cycle env st).2)).
  induction (trackedProducts st) as [|p l IH]; intros l' Hvalid Hall.
  - by apply Forall2_nil_inv_l in Hall as ->.
  - apply Forall2_cons_inv_l in Hall as (p' & l'' & Hp & Hl & ->).
    apply Forall_cons in Hvalid as [Hv Hvl].
    constructor; [|by apply IH].
    by destruct Hp as [->|Hp].
Qed.

(** *** Failures *)

Lemma loop_appends l s :
  ∃ l', updatedProducts (check_loop env l s).2 = updatedProducts s ++ l'
        ∧ length l' = length l.
Proof.
  apply (check_loop_ind (λ done s',
           ∃ l', updatedProducts s' = updatedProducts s ++ l' ∧ length l' = length done)).
  - exists []. by rewrite app_nil_r.
  - intros done p s0 s' (l' & Hl' & Hlen) Hst.
    destruct (stepped_updated _ _ _ Hst) as (p' & -> & _).
    exists (l' ++ [p']). rewrite Hl', app_assoc. split; [done|].
    rewrite !length_app. simpl. lia.
Qed.

(** The product stored at the position of [p] is the one the iteration on
    [p] appended. *)
Lemma loop_lookup pre p post s0 p' :
  updatedProducts s0 = [] →
  let s := (check_loop env pre s0).2 in
  updatedProducts (check_step env p s).2 = updatedProducts s ++ [p'] →
  updatedProducts (check_loop env (pre ++ p :: post) s0).2 !! length pre = Some p'.
Proof.
  intros Hu s Hp'. rewrite check_loop_app, check_loop_cons. fold s.
  destruct (loop_appends post (check_step env p s).2) as (lpost & -> & _).
  rewrite Hp'. subst s.
  destruct (loop_appends pre s0) as (lpre & -> & Hlen).
  rewrite Hu. simpl. rewrite <- Hlen, <- !app_assoc. simpl.
  by rewrite list_lookup_middle.
Qed.

Lemma cycle_lookup st pre p post p' :
  trackedProducts st = pre ++ p :: post →
  let s := loop_state env st pre in
  updatedProducts (check_step env p s).2 = updatedProducts s ++ [p'] →
  trackedProducts (storage (cycle env st).2) !! length pre = Some p'.
Proof.
  intros Hst s Hp'. unfold cycle.
  destruct (checkAllProducts_end (initial st)) as (-> & _). simpl.
  rewrite Hst. by apply loop_lookup.
Qed.

Lemma fetch_fails_page r : fetch_fails r → response_page r = None.
Proof. by intros [->|(status & body & ->)]. Qed.

Lemma check_step_unfetched p s :
  fetchCache s !! baseUrl (url p) = None →
  response_page (fetch env (clock s) (url p)) = None →
  updatedProducts (check_step env p s).2 = updatedProducts s ++ [p].
Proof.
  intros Hc Hp. destruct (check_step_stepped p s) as (s' & -> & Hst). simpl.
  destruct (stepped_updated _ _ _ Hst) as (p' & -> & [->|(nd & s1 & mt & t & c & Hacq & _)]);
    [done|].
  destruct Hacq; congruence.
Qed.

Lemma check_step_thrown p s :
  (check_product env p s).1 = Thrown →
  updatedProducts (check_step env p s).2 = updatedProducts s ++ [p].
Proof.
  intros Hthrown. pose proof (check_product_outcome p s) as H. unfold wp in H.
  unfold check_step, try_catch.
  destruct (check_product env p s) as [r s'']. simpl in *. subst r.
  rewrite on_error_eq. simpl. inversion H; subst.
  unfold caught, notified_state. state_simpl.
  match goal with H : acquired _ _ _ _ _ |- _ => by destruct H end.
Qed.

(** *** Requests *)

Lemma md_requests_caller t p nd :
  Forall (λ r, req_caller r = by_checkMarkdownTransition) (md_requests env t p nd).
Proof. unfold md_requests. case_match; by repeat constructor. Qed.

Lemma md_reqs_caller t p nd cs :
  Forall (λ r, req_caller r = by_checkMarkdownTransition) (md_reqs env t p nd cs).
Proof. unfold md_reqs. case_match; [apply md_requests_caller|constructor]. Qed.

(** The requests of one iteration: at most one for the product page, and
    only when its key is not cached; then those of the resolver. *)
Lemma stepped_requests p s s' :
  stepped env p s s' →
  ∃ pre md,
    requests s' = requests s ++ pre ++ md
    ∧ Forall (λ r, req_caller r = by_checkMarkdownTransition) md
    ∧ (pre = []
       ∨ ∃ pg, pre = [request_of by_fetchProductStatus (url p) pg]
               ∧ fetchCache s !! baseUrl (url p) = None
               ∧ (is_Some pg → is_Some (fetchCache s' !! baseUrl (url p))))
    ∧ (∀ k, is_Some (fetchCache s !! k) → is_Some (fetchCache s' !! k)).
Proof.
  assert (∀ nd s1,
            acquired env p s nd s1 →
            ∀ s', (requests s'
                   = requests s1
                     ++ md_reqs env (clock s1) p nd
                          (deduped p (newColorNotifiedProductIds s) (detectChanges p nd))
                   ∧ fetchCache s' = fetchCache s1) →
            ∃ pre md,
              requests s' = requests s ++ pre ++ md
              ∧ Forall (λ r, req_caller r = by_checkMarkdownTransition) md
              ∧ (pre = []
                 ∨ ∃ pg, pre = [request_of by_fetchProductStatus (url p) pg]
                         ∧ fetchCache s !! baseUrl (url p) = None
                         ∧ (is_Some pg → is_Some (fetchCache s' !! baseUrl (url p))))
              ∧ (∀ k, is_Some (fetchCache s !! k) → is_Some (fetchCache s' !! k))) as Hacq.
  { intros nd s1 Hacq s'0 [Hr Hc]. rewrite Hr, Hc.
    destruct Hacq as [nd Hnd|page Hmiss Hpage]; state_simpl.
    - exists [], (md_reqs env (clock s) p nd
                    (deduped p (newColorNotifiedProductIds s) (detectChanges p nd))).
      split; [done|]. split; [apply md_reqs_caller|]. split; [by left|done].
    - exists [request_of by_fetchProductStatus (url p) (Some page)],
             (md_reqs env (S (clock s)) p (parseProductHtml page p)
                (deduped p (newColorNotifiedProductIds s)
                   (detectChanges p (parseProductHtml page p)))).
      split; [by rewrite <- app_assoc|].
      split; [apply md_reqs_caller|]. split.
      + right. exists (Some page). split; [done|]. split; [done|].
        intros _. rewrite lookup_insert_eq. by eexists.
      + intros k' [x Hx]. destruct (decide (baseUrl (url p) = k')) as [<-|Hne].
        * rewrite lookup_insert_eq. by eexists.
        * rewrite lookup_insert_ne by done. by eexists. }
  intros [s'' H|s'' H]; inversion H; subst; clear H.
  - exists [request_of by_fetchProductStatus (url p) None], [].
    state_simpl. split; [done|]. split; [constructor|]. split; [|done].
    right. exists None. split; [done|]. split; [done|]. by intros [? ?].
  - eapply Hacq; [done|]. by split.
  - eapply Hacq; [done|]. by split.
Qed.

Lemma loop_requests l s0 :
  fetchCache s0 = ∅ → requests s0 = [] →
  let s := (check_loop env l s0).2 in
  (∀ r, r ∈ requests s → req_caller r = by_fetchProductStatus → req_ok r = true →
        is_Some (fetchCache s !! baseUrl (req_url r)))
  ∧ (∀ i j r r',
       requests s !! i = Some r → requests s !! j = Some r' → (i < j)%nat →
       req_caller r = by_fetchProductStatus → req_ok r = true →
       req_caller r' = by_fetchProductStatus →
       baseUrl (req_url r) ≠ baseUrl (req_url r')).
Proof.
  intros Hc Hr.
  apply (check_loop_ind (λ _ s,
    (∀ r, r ∈ requests s → req_caller r = by_fetchProductStatus → req_ok r = true →
          is_Some (fetchCache s !! baseUrl (req_url r)))
    ∧ (∀ i j r r',
         requests s !! i = Some r → requests s !! j = Some r' → (i < j)%nat →
         req_caller r = by_fetchProductStatus → req_ok r = true →
         req_caller r' = by_fetchProductStatus →
         baseUrl (req_url r) ≠ baseUrl (req_url r')))).
  - rewrite Hr. split; [by intros r ?%elem_of_nil|]. intros i j r r' Hi. by destruct i.
  - intros _ p s s' [Hcached Hdedup] Hst.
    destruct (stepped_requests _ _ _ Hst) as (pre & md & Hreq & Hmd & Hpre & Hmono).
    assert (∀ r, r ∈ pre ++ md → req_caller r = by_fetchProductStatus →
                 pre = [r] ∧ req_url r = url p
                 ∧ fetchCache s !! baseUrl (url p) = None
                 ∧ (req_ok r = true → is_Some (fetchCache s' !! baseUrl (url p)))) as Hnew.
    { intros r [Hin|Hin]%elem_of_app Hcaller.
      - destruct Hpre as [->|(pg & -> & Hmiss & Hok)]; [by apply elem_of_nil in Hin|].
        apply list_elem_of_singleton in Hin as ->. repeat (split; [done|]).
        simpl. intros Hpg%bool_decide_eq_true. by apply Hok.
      - rewrite Forall_forall in Hmd. apply Hmd in Hin. congruence. }
    split.
    + intros r Hin Hcaller Hok. rewrite Hreq in Hin.
      apply elem_of_app in Hin as [Hin|Hin].
      * by apply Hmono, Hcached.
      * destruct (Hnew r Hin Hcaller) as (_ & -> & _ & H). by apply H.
    + intros i j r r' Hi Hj Hlt Hcaller Hok Hcaller'. rewrite Hreq in Hi, Hj.
      apply lookup_app_Some in Hj as [Hj|[Hlen Hj]].
      * apply lookup_app_Some in Hi as [Hi|[Hlen _]].
        -- by eapply Hdedup.
        -- apply lookup_lt_Some in Hj. lia.
      * destruct (Hnew r' (list_elem_of_lookup_2 _ _ _ Hj) Hcaller')
          as (Hpre' & Hurl & Hmiss & _).
        apply lookup_app_Some in Hi as [Hi|[Hlen' Hi]].
        -- intros Heq.
           destruct (Hcached r (list_elem_of_lookup_2 _ _ _ Hi) Hcaller Hok) as [x Hx].
           rewrite Heq, Hurl in Hx. congruence.
        -- destruct (Hnew r (list_elem_of_lookup_2 _ _ _ Hi) Hcaller) as (Hpre'' & _).
           rewrite Hpre' in Hi, Hj. rewrite Hpre' in Hpre''.
           assert (i - length (requests s) = 0)%nat as Hi0.
           { destruct (i - length (requests s))%nat as [|n] eqn:E; [done|].
             simpl in Hi. rewrite Forall_forall in Hmd.
             apply list_elem_of_lookup_2, Hmd in Hi. congruence. }
           assert (j - length (requests s) = 0)%nat as Hj0.
           { destruct (j - length (requests s))%nat as [|n] eqn:E; [done|].
             simpl in Hj. rewrite Forall_forall in Hmd.
             apply list_elem_of_lookup_2, Hmd in Hj. congruence. }
           lia.
Qed.

(** C5, as the code has it.  Product pages are fetched by
    [fetchProductStatus] only.  Within one cycle no product page request
    follows a successful request for the same page key: at most one fetch
    of a page succeeds, and the products that share its key afterwards
    reuse the cached snapshot. *)
Theorem no_fetch_after_success st i j r r' :
  requests (cycle env st).2 !! i = Some r →
  requests (cycle env st).2 !! j = Some r' →
  (i < j)%nat →
  req_caller r = by_fetchProductStatus → req_ok r = true →
  req_caller r' = by_fetchProductStatus →
  baseUrl (req_url r) ≠ baseUrl (req_url r').
Proof.
  unfold cycle.
  destruct (checkAllProducts_end (initial st)) as (_ & _ & -> & _).
  by apply loop_requests.
Qed.

(** *** The three ways an iteration ends, field by field *)

Lemma acquired_snapshot p s nd s1 :
  acquired env p s nd s1 → snapshot_at env s p = Some nd.
Proof.
  unfold snapshot_at. intros [nd' ->|page -> ->]; done.
Qed.

Lemma stepped_cases p s s' :
  stepped env p s s' →
  (snapshot_at env s p = None
   ∧ updatedProducts s' = updatedProducts s ++ [p]
   ∧ notifications s' = notifications s
   ∧ console_errors s' = console_errors s
   ∧ newColorNotifiedProductIds s' = newColorNotifiedProductIds s
   ∧ fetchCache s' = fetchCache s)
  ∨ ∃ nd s1 ns,
      acquired env p s nd s1
      ∧ let cs := deduped p (newColorNotifiedProductIds s) (detectChanges p nd) in
        let mt := md_outcome env (clock s1) p nd cs in
        notifications s' = notifications s ++ ns
        ∧ newColorNotifiedProductIds s' = marked p (newColorNotifiedProductIds s) cs
        ∧ fetchCache s' = fetchCache s1
        ∧ ((sent env p (to_send mt cs) (Ok tt) ns
            ∧ console_errors s' = console_errors s
            ∧ ∃ t1 t2, updatedProducts s'
                       = updatedProducts s ++ [merged p nd mt t1 (last_change p mt cs t2)])
           ∨ (sent env p (to_send mt cs) Thrown ns
              ∧ console_errors s' = console_errors s ++ [name p]
              ∧ updatedProducts s' = updatedProducts s ++ [p])).
Proof.
  intros [s'' H|s'' H]; inversion H; subst; clear H.
  - left. unfold snapshot_at. state_simpl.
    repeat match goal with H : _ = None |- _ => rewrite H end. done.
  - right. exists nd, s1, ns. split; [done|].
    match goal with H : acquired _ _ _ _ _ |- _ =>
      destruct (acquired_cache _ _ _ _ H) as (Hu & Hn & _); destruct H end;
      unfold notified_state; state_simpl; repeat (split; [done|]);
      left; repeat (split; [done|]); by eexists _, _.
  - right. exists nd, s1, ns. split; [done|].
    match goal with H : acquired _ _ _ _ _ |- _ =>
      destruct (acquired_cache _ _ _ _ H) as (Hu & Hn & _); destruct H end;
      unfold caught, notified_state; state_simpl; repeat (split; [done|]);
      right; by repeat (split; [done|]).
Qed.

(** *** A failure does not stop the loop *)

(** An iteration whose page key is not cached requests the page. *)
Lemma stepped_fetch_request q s s' :
  stepped env q s s' →
  fetchCache s !! baseUrl (url q) = None →
  ∃ more, requests s'
          = requests s
            ++ request_of by_fetchProductStatus (url q)
                          (response_page (fetch env (clock s) (url q))) :: more.
Proof.
  intros Hst Hmiss.
  assert (∀ nd s1, acquired env q s nd s1 →
            requests s1 = requests s
                          ++ [request_of by_fetchProductStatus (url q)
                                (response_page (fetch env (clock s) (url q)))]) as Hacq.
  { intros nd s1 [nd' Hc|page Hc Hp]; [congruence|]. rewrite Hp. done. }
  destruct Hst as [s'' H|s'' H]; inversion H; subst; clear H.
  - exists []. simpl.
    match goal with H : response_page _ = None |- _ => by rewrite H end.
  - eexists. unfold notified_state. simpl.
    erewrite Hacq by done. rewrite <- app_assoc. done.
  - eexists. unfold caught, notified_state. simpl.
    erewrite Hacq by done. rewrite <- app_assoc. done.
Qed.

(** The [try] block logs nothing: only the [catch] block does. *)
Lemma body_outcome_errors q s r s' :
  body_outcome env q s r s' → console_errors s' = console_errors s.
Proof.
  intros H. inversion H; subst; clear H; [done|..];
    match goal with H : acquired _ _ _ _ _ |- _ => by destruct H end.
Qed.

(** The time at which the markdown check runs. *)
Lemma acquired_clock q s nd s1 :
  acquired env q s nd s1 →
  clock s1 = match fetchCache s !! baseUrl (url q) with
             | Some _ => clock s
             | None => S (clock s)
             end.
Proof. intros [nd' ->|page -> Hp]; done. Qed.

(** Every iteration does its work, whatever the state it starts in. *)
Lemma check_step_processed q s :
  ∃ q', updatedProducts (check_step env q s).2 = updatedProducts s ++ [q']
        ∧ processed env q s (check_step env q s).2 q'.
Proof.
  pose proof (check_product_outcome q s) as Hbody. unfold wp in Hbody.
  assert (∃ s', check_step env q s = (Ok tt, s') ∧ stepped env q s s'
                ∧ console_errors s'
                  = console_errors s
                    ++ match (check_product env q s).1 with
                       | Ok _ => []
                       | Thrown => [name q]
                       end) as (s' & Es & Hst & Herr).
  { unfold check_step, try_catch.
    destruct (check_product env q s) as [[[]|] s'']; simpl in *.
    - eexists. split; [done|]. split; [by apply stepped_ok|].
      rewrite app_nil_r. by eapply body_outcome_errors.
    - rewrite on_error_eq. eexists. split; [done|]. split; [by apply stepped_caught|].
      simpl. f_equal. by eapply body_outcome_errors. }
  rewrite Es. simpl. clear Hbody.
  pose proof (stepped_fetch_request _ _ _ Hst) as Hreq.
  unfold processed.
  destruct (stepped_cases _ _ _ Hst)
    as [(Hnone & Hu & Hn & He & _)|(nd & s1 & ns & Hacq & Hn & _ & _ & Hcase)].
  - exists q. split; [done|]. split; [done|]. by rewrite Hnone.
  - rewrite (acquired_snapshot _ _ _ _ Hacq), <- (acquired_clock _ _ _ _ Hacq).
    destruct Hcase as [([Hall Hsent] & He & t1 & t2 & Hu)|([Hall _] & He & Hu)].
    + eexists. split; [exact Hu|]. split; [done|].
      exists ns. split; [done|]. split; [done|]. left.
      split.
      { destruct (check_product env q s).1 as [[]|]; [done|].
        rewrite He in Herr. apply (f_equal length) in Herr.
        rewrite length_app in Herr. simpl in Herr. lia. }
      split; [done|]. split; [done|]. by exists t1, t2.
    + exists q. split; [done|]. split; [done|].
      exists ns. split; [done|]. split; [done|]. right.
      split; [|done].
      destruct (check_product env q s).1 as [[]|]; [|done].
      rewrite He in Herr. apply (f_equal length) in Herr.
      rewrite !length_app in Herr. simpl in Herr. lia.
Qed.

(** C7. A fetch failure (network error or HTTP error) for a product, or
    an exception in the processing of that product, leaves the stored
    product as it was (the stored list keeps its length, its order and the
    identity of every entry) and does not keep the loop from the products
    that follow: each of them is processed in its turn, its page requested
    unless cached, its changes notified and its snapshot merged into the
    product stored at its position.  The run itself ends normally. *)
Theorem failure_is_isolated st pre p post :
  trackedProducts st = pre ++ p :: post →
  let s := loop_state env st pre in
  (fetchCache s !! baseUrl (url p) = None ∧ fetch_fails (fetch env (clock s) (url p)))
  ∨ (check_product env p s).1 = Thrown →
  (cycle env st).1 = Ok tt
  ∧ trackedProducts (storage (cycle env st).2) !! length pre = Some p
  ∧ Forall2 same_identity (trackedProducts st)
            (trackedProducts (storage (cycle env st).2))
  ∧ ∀ mid q rest,
      post = mid ++ q :: rest →
      ∃ q', trackedProducts (storage (cycle env st).2) !! length (pre ++ p :: mid)
            = Some q'
            ∧ processed env q (loop_state env st (pre ++ p :: mid))
                        (loop_state env st (pre ++ p :: mid ++ [q])) q'.
Proof.
  intros Hst s Hfail.
  split; [apply checkAllProducts_ok|]. split; [|split].
  - eapply cycle_lookup; [done|]. fold s.
    destruct Hfail as [[Hc Hf]|Hthrown].
    + apply check_step_unfetched; [done|]. by apply fetch_fails_page.
    + by apply check_step_thrown.
  - eapply Forall2_impl; [apply cycle_items|].
    intros q q'. apply checked_item_identity.
  - intros mid q rest ->.
    assert (loop_state env st (pre ++ p :: mid ++ [q])
            = (check_step env q (loop_state env st (pre ++ p :: mid))).2) as ->.
    { unfold loop_state. rewrite app_comm_cons, app_assoc.
      by rewrite check_loop_app, check_loop_cons. }
    destruct (check_step_processed q (loop_state env st (pre ++ p :: mid)))
      as (q' & Hu & Hq').
    exists q'. split; [|done].
    eapply (cycle_lookup st (pre ++ p :: mid) q rest); [|done].
    by rewrite Hst, <- app_assoc.
Qed.
(** *** New colors *)

Lemma detectChanges_new_color p nd :
  filter (λ c, change_type c = t_new_color) (detectChanges p nd)
  = if trackNewColors p then (λ c, new_color (c_name c)) <$> new_colors p nd else [].
Proof.
  unfold detectChanges, new_colors. rewrite !filter_app.
  assert (∀ (b : bool) (c : Change),
            change_type c ≠ t_new_color →
            filter (λ c, change_type c = t_new_color) (if b then [c] else []) = [])
    as Hone.
  { intros [] c Hc; [|done]. by rewrite filter_cons_False. }
  rewrite !Hone by done.
  assert (filter (λ c, change_type c = t_new_color)
            match currentPrice p, snap_currentPrice nd with
            | Some old, Some new =>
                if number_truthy old && number_truthy new && negb (number_eq old new)
                then [price_change old new] else []
            | _, _ => []
            end = []) as ->.
  { repeat case_match; try done; by rewrite filter_cons_False. }
  simpl. destruct (trackNewColors p); [|done].
  destruct (availableColors p) as [old|]; [|done].
  induction (filter _ (snap_availableColors nd)) as [|c l IH]; [done|].
  rewrite fmap_cons, filter_cons_True by done. by rewrite IH.
Qed.

(** An iteration that obtains a snapshot, when no notification fails. *)
Lemma check_step_notifies p s nd :
  (∀ t, notifications_create env t = true) →
  snapshot_at env s p = Some nd →
  let s' := (check_step env p s).2 in
  let cs := deduped p (newColorNotifiedProductIds s) (detectChanges p nd) in
  ∃ s1 ns t1 t2,
    acquired env p s nd s1
    ∧ let mt := md_outcome env (clock s1) p nd cs in
      notifications s' = notifications s ++ ns
      ∧ Forall (λ n, n_product n = p) ns
      ∧ n_change <$> ns = to_send mt cs
      ∧ newColorNotifiedProductIds s' = marked p (newColorNotifiedProductIds s) cs
      ∧ updatedProducts s'
        = updatedProducts s ++ [merged p nd mt t1 (last_change p mt cs t2)]
      ∧ console_errors s' = console_errors s.
Proof.
  intros Hcreate Hsnap.
  destruct (check_step_stepped p s) as (s' & -> & Hst). simpl.
  destruct (stepped_cases _ _ _ Hst)
    as [(Hnone & _)|(nd' & s1 & ns & Hacq & Hn & Hm & _ & Hcase)]; [congruence|].
  pose proof (acquired_snapshot _ _ _ _ Hacq) as Hsnap'.
  assert (nd' = nd) as -> by congruence.
  destruct Hcase as [([Hall Hsent] & Herr & t1 & t2 & Hu)|([_ [_ [t Ht]]] & _)].
  - by exists s1, ns, t1, t2.
  - rewrite Hcreate in Ht. done.
Qed.

Lemma markdown_result_change p code queryData m :
  markdown_result p code queryData = Some m →
  change_type (change m) = t_moved_to_markdown.
Proof. unfold markdown_result. case_match; [|done]. by intros [= <-]. Qed.

Lemma md_outcome_change t p nd cs m :
  md_outcome env t p nd cs = Some m → change_type (change m) = t_moved_to_markdown.
Proof.
  unfold md_outcome, md_lookup, markdown_of_page.
  repeat case_match; try done.
  intros (queryData & _ & Hresult)%bind_Some. by eapply markdown_result_change.
Qed.

(** The changes of a type other than [status_change] that an iteration
    notifies besides the markdown transition are those it detected. *)
Lemma remaining_filter ty mt cs :
  ty ≠ t_status_change →
  filter (λ c, change_type c = ty) (remaining mt cs)
  = filter (λ c, change_type c = ty) cs.
Proof.
  intros Hty. destruct mt as [m|]; [|done]. simpl.
  induction cs as [|c cs IH]; [done|].
  destruct (decide (change_type c = ty)) as [Hc|Hc].
  - assert (is_sold_out_change c = false) as Hs by (destruct c; simpl in *; congruence).
    rewrite (filter_cons_True (λ c, is_sold_out_change c = false)) by done.
    rewrite !(filter_cons_True (λ c, change_type c = ty)) by done. by rewrite IH.
  - rewrite (filter_cons_False (λ c, change_type c = ty) c cs) by done.
    rewrite <- IH. destruct (decide (is_sold_out_change c = false)).
    + rewrite (filter_cons_True (λ c, is_sold_out_change c = false)) by done.
      by rewrite filter_cons_False.
    + by rewrite (filter_cons_False (λ c, is_sold_out_change c = false)).
Qed.

Lemma filter_type_ne ty cs :
  filter (λ c, change_type c = ty) (filter (λ c, change_type c ≠ ty) cs) = [].
Proof.
  induction cs as [|c cs IH]; [done|].
  destruct (decide (change_type c = ty)).
  - by rewrite (filter_cons_False (λ c, change_type c ≠ ty)) by tauto.
  - rewrite (filter_cons_True (λ c, change_type c ≠ ty)) by done.
    by rewrite filter_cons_False.
Qed.

Lemma to_send_new_color t p nd cs :
  filter (λ c, change_type c = t_new_color) (to_send (md_outcome env t p nd cs) cs)
  = filter (λ c, change_type c = t_new_color) cs.
Proof.
  unfold to_send. rewrite filter_app, remaining_filter by done.
  destruct (md_outcome env t p nd cs) as [m|] eqn:Hm; [|done].
  apply md_outcome_change in Hm. rewrite filter_cons_False; [done|congruence].
Qed.

Lemma existsb_new_color cs :
  existsb is_new_color cs = true ↔ filter (λ c, change_type c = t_new_color) cs ≠ [].
Proof.
  induction cs as [|c cs IH]; [done|]. simpl. unfold is_new_color at 1.
  destruct (decide (change_type c = t_new_color)) as [Hc|Hc].
  - rewrite bool_decide_eq_true_2, filter_cons_True by done. done.
  - rewrite bool_decide_eq_false_2, filter_cons_False by done. done.
Qed.

Lemma new_color_notifications_app pid ns1 ns2 :
  new_color_notifications pid (ns1 ++ ns2)
  = new_color_notifications pid ns1 ++ new_color_notifications pid ns2.
Proof. apply filter_app. Qed.

(** The notifications shown for one product, counted by its changes. *)
Lemma new_color_notifications_of p ns :
  Forall (λ n, n_product n = p) ns →
  length (new_color_notifications (productId p) ns)
  = length (filter (λ c, change_type c = t_new_color) (n_change <$> ns)).
Proof.
  unfold new_color_notifications.
  induction 1 as [|n ns Hn _ IH]; [done|]. rewrite fmap_cons.
  destruct (decide (change_type (n_change n) = t_new_color)) as [Hc|Hc].
  - rewrite !filter_cons_True by (by rewrite ?Hn). simpl. by rewrite IH.
  - rewrite !filter_cons_False by tauto. done.
Qed.

Lemma new_color_notifications_other pid p ns :
  productId p ≠ pid →
  Forall (λ n, n_product n = p) ns →
  new_color_notifications pid ns = [].
Proof.
  intros Hp Hall. apply filter_all_out. eapply Forall_impl; [exact Hall|].
  intros n Hn [_ Hpid]. congruence.
Qed.

(** An iteration on a product with another [productId] shows no
    notification for [pid] and leaves the mark of [pid] as it is. *)
Lemma stepped_other pid q s s' :
  stepped env q s s' → productId q ≠ pid →
  new_color_notifications pid (notifications s')
  = new_color_notifications pid (notifications s)
  ∧ (pid ∈ newColorNotifiedProductIds s' ↔ pid ∈ newColorNotifiedProductIds s).
Proof.
  intros Hst Hq.
  destruct (stepped_cases _ _ _ Hst)
    as [(_ & _ & -> & _ & -> & _)|(nd & s1 & ns & _ & -> & -> & _ & Hsent)]; [done|].
  assert (Forall (λ n, n_product n = q) ns) as Hall.
  { by destruct Hsent as [([? _] & _)|([? _] & _)]. }
  rewrite new_color_notifications_app, (new_color_notifications_other pid q ns),
    app_nil_r by done.
  split; [done|]. unfold marked. case_match; [|done]. set_solver.
Qed.

Lemma check_loop_other pid l s :
  Forall (λ q, productId q ≠ pid) l →
  new_color_notifications pid (notifications (check_loop env l s).2)
  = new_color_notifications pid (notifications s)
  ∧ (pid ∈ newColorNotifiedProductIds (check_loop env l s).2
     ↔ pid ∈ newColorNotifiedProductIds s).
Proof.
  revert s. induction l as [|q l IH]; intros s Hl; [done|].
  apply Forall_cons in Hl as [Hq Hl]. rewrite check_loop_cons.
  destruct (check_step_stepped q s) as (s' & -> & Hst). simpl.
  destruct (stepped_other pid q s s' Hst Hq) as [<- <-]. by apply IH.
Qed.

(** C4. A cycle in which two tracked products [a] and [b] have the same
    (non-empty) [productId], which no other tracked product has; both track
    new colors, and the fresh snapshot of each shows exactly one color that
    its stored list lacks; no notification fails.  Then exactly one
    [new_color] notification is shown for that [productId] in the whole
    cycle: the event of the second product is dropped. *)
Theorem new_color_notified_once st pre a mid b post nda ndb :
  trackedProducts st = pre ++ a :: mid ++ b :: post →
  productId a = productId b → productId a ≠ "" →
  Forall (λ q, productId q ≠ productId a) (pre ++ mid ++ post) →
  trackNewColors a = true → trackNewColors b = true →
  (∀ t, notifications_create env t = true) →
  snapshot_at env (loop_state env st pre) a = Some nda →
  length (new_colors a nda) = 1%nat →
  snapshot_at env (loop_state env st (pre ++ a :: mid)) b = Some ndb →
  length (new_colors b ndb) = 1%nat →
  length (new_color_notifications (productId a) (notifications (cycle env st).2)) = 1%nat.
Proof.
  intros Hst Hid Hpid Hothers Hta Htb Hcreate Hsa Hna Hsb Hnb.
  apply Forall_app in Hothers as [Hpre Hothers].
  apply Forall_app in Hothers as [Hmid Hpost].
  unfold cycle. destruct (checkAllProducts_end (initial st)) as (_ & -> & _).
  simpl. rewrite Hst. unfold loop_state in *.
  set (s0 := fresh_locals (initial st)) in *.
  rewrite check_loop_app, check_loop_cons in Hsb.
  rewrite check_loop_app, check_loop_cons, check_loop_app, check_loop_cons.
  (* the products before [a] *)
  destruct (check_loop_other (productId a) pre s0 Hpre) as [Hn0 Hm0].
  set (s1 := (check_loop env pre s0).2) in *.
  assert (string_truthy (productId a) = true) as Hpa.
  { unfold string_truthy. by rewrite bool_decide_eq_false_2. }
  assert (string_truthy (productId b) = true) as Hpb by (by rewrite <- Hid).
  (* [a] notifies its new color and marks the productId *)
  destruct (check_step_notifies a s1 nda Hcreate Hsa)
    as (sa1 & nsa & ? & ? & _ & Hnota & Halla & Hcha & Hmarka & _).
  set (s2 := (check_step env a s1).2) in *.
  assert (deduped a (newColorNotifiedProductIds s1) (detectChanges a nda)
          = detectChanges a nda) as Hded.
  { unfold deduped. rewrite bool_decide_eq_false_2; [by rewrite andb_false_r|].
    rewrite Hm0. set_solver. }
  rewrite Hded in Hcha, Hmarka.
  pose proof (detectChanges_new_color a nda) as Hda. rewrite Hta in Hda.
  assert (length (new_color_notifications (productId a) (notifications s2)) = 1%nat)
    as Hn2.
  { rewrite Hnota, new_color_notifications_app, Hn0, length_app.
    rewrite (new_color_notifications_of a nsa Halla), Hcha, to_send_new_color, Hda.
    by rewrite length_fmap. }
  assert (productId a ∈ newColorNotifiedProductIds s2) as Hm2.
  { rewrite Hmarka. unfold marked. rewrite Hpa, andb_true_r.
    rewrite (proj2 (existsb_new_color _)); [set_solver|].
    rewrite Hda. by destruct (new_colors a nda). }
  (* the products between [a] and [b] *)
  destruct (check_loop_other (productId a) mid s2 Hmid) as [Hn3 Hm3].
  set (s3 := (check_loop env mid s2).2) in *.
  (* [b] drops its new color *)
  destruct (check_step_notifies b s3 ndb Hcreate Hsb)
    as (sb1 & nsb & ? & ? & _ & Hnotb & Hallb & Hchb & _).
  set (s4 := (check_step env b s3).2) in *.
  assert (new_color_notifications (productId a) (notifications s4)
          = new_color_notifications (productId a) (notifications s3)) as Hn4.
  { rewrite Hnotb, new_color_notifications_app.
    assert (length (new_color_notifications (productId a) nsb) = 0%nat) as Hnil.
    { rewrite Hid, (new_color_notifications_of b nsb Hallb), Hchb, to_send_new_color.
      unfold deduped. rewrite Hpb, bool_decide_eq_true_2; [|rewrite <- Hid; by apply Hm3].
      simpl. by rewrite filter_type_ne. }
    apply nil_length_inv in Hnil. by rewrite Hnil, app_nil_r. }
  (* the products after [b] *)
  destruct (check_loop_other (productId a) post s4 Hpost) as [Hn5 _].
  by rewrite Hn5, Hn4, Hn3.
Qed.

(** *** The markdown transition *)

Lemma existsb_code C (l : list Color) :
  existsb (λ c, bool_decide (c_code c = C)) l = false ↔ C ∉ c_code <$> l.
Proof.
  induction l as [|c l IH]; simpl.
  - split; [intros _ H; by apply elem_of_nil in H|done].
  - rewrite orb_false_iff, IH, not_elem_of_cons, bool_decide_eq_false. naive_solver.
Qed.

Lemma find_code C (l : list Color) :
  C ∈ c_code <$> l → is_Some (List.find (λ c, bool_decide (c_code c = C)) l).
Proof.
  induction l as [|c l IH]; simpl; [by intros ?%elem_of_nil|].
  intros [->|Hin]%elem_of_cons.
  - rewrite bool_decide_eq_true_2 by done. by eexists.
  - case_bool_decide; [by eexists|by apply IH].
Qed.

Lemma filter_none ty (l : list Change) :
  Forall (λ c, change_type c ≠ ty) l → filter (λ c, change_type c = ty) l = [].
Proof.
  induction 1 as [|c l Hc _ IH]; [done|]. by rewrite filter_cons_False.
Qed.

Lemma deduped_cons p notified c cs :
  change_type c ≠ t_new_color →
  deduped p notified (c :: cs) = c :: deduped p notified cs.
Proof. intros Hc. unfold deduped. case_match; [|done]. by rewrite filter_cons_True. Qed.

Lemma deduped_Forall (P : Change → Prop) p notified cs :
  Forall P cs → Forall P (deduped p notified cs).
Proof. intros H. unfold deduped. case_match; [|done]. by apply Forall_filter_keep. Qed.

(** A status flip heads the detected changes; no other change is a status
    change or a markdown transition. *)
Lemma detectChanges_flip p nd :
  stockStatus p ≠ snap_stockStatus nd →
  ∃ tail, detectChanges p nd
          = status_change (stockStatus p) (snap_stockStatus nd) :: tail
          ∧ Forall (λ c, change_type c ≠ t_status_change
                         ∧ change_type c ≠ t_moved_to_markdown) tail.
Proof.
  intros Hflip. unfold detectChanges. rewrite bool_decide_eq_true_2 by done.
  eexists. split; [done|]. repeat apply Forall_app_2.
  - repeat case_match; by repeat constructor.
  - case_match; by repeat constructor.
  - repeat case_match; try by constructor.
    apply Forall_fmap, Forall_forall. by intros c _.
Qed.

(** C1. A tracked product on a normal product page whose URL names the
    color C; the fresh snapshot lacks C and flips the status to
    [sold_out]; the clearance page answers with a payload that has C and
    a SKU for it with sale price 40 and list price 60; no notification
    fails.  Then the iteration on that product shows exactly one
    [moved_to_markdown] notification, with these two prices, and no
    [status_change] notification, and the product is stored with the
    status [in_stock] and with the URL built from the identifiers of the
    clearance payload as its [markdownUrl]. *)
Theorem markdown_resolution st pre p post nd C mdPage queries md ps cs sku price :
  trackedProducts st = pre ++ p :: post →
  getColorCodeFromUrl (url p) = Some C → C ≠ "" →
  includes (url p) "-MD/" = false → includes (url p) ".html" = false →
  snapshot_at env (loop_state env st pre) p = Some nd →
  C ∉ c_code <$> snap_availableColors nd →
  stockStatus p ≠ "sold_out" → snap_stockStatus nd = "sold_out" →
  (∀ t, response_page (fetch env t (mdUrl p)) = Some mdPage) →
  next_data_script mdPage = Some (Some queries) →
  find_query_data queries = Some md →
  productSummary md = Some ps →
  colors md = Some cs → C ∈ c_code <$> cs →
  List.find (sku_matches C p) (qd_skus md) = Some sku →
  sku_price sku = Some price →
  js_truthy (salePrice price) = true →
  parseFloat (salePrice price) = Num (Q2Qc 40) →
  js_truthy (listPrice price) = true →
  parseFloat (listPrice price) = Num (Q2Qc 60) →
  (∀ t, notifications_create env t = true) →
  ∃ ns p',
    notifications (loop_state env st (pre ++ [p]))
    = notifications (loop_state env st pre) ++ ns
    ∧ Forall (λ n, n_product n = p) ns
    ∧ notified_of t_moved_to_markdown ns
      = [moved_to_markdown (Some (Num (Q2Qc 40))) (Some (Num (Q2Qc 60)))]
    ∧ notified_of t_status_change ns = []
    ∧ trackedProducts (storage (cycle env st).2) !! length pre = Some p'
    ∧ stockStatus p' = "in_stock"
    ∧ markdownUrl p'
      = Some ("https://shop.lululemon.com/p/" ++ parentCategoryUnifiedId ps
              ++ "/" ++ unifiedId ps ++ "/_/" ++ ps_productId ps
              ++ "?color=" ++ C
              ++ (if size_unselected p then "" else "&sz=" ++ size p))%string.
Proof.
  intros Hst Hcode HC Hmd Hhtml Hsnap Habsent Hold Hnew Hfetch Hscript Hqd Hps
         Hcolors Hpresent Hsku Hprice Hsale Hsale40 Hlist Hlist60 Hcreate.
  set (s := loop_state env st pre) in *.
  destruct (check_step_notifies p s nd Hcreate Hsnap)
    as (s1 & ns & t1 & t2 & _ & Hnot & Hall & Hch & _ & Hupd & _).
  set (dcs := deduped p (newColorNotifiedProductIds s) (detectChanges p nd)) in *.
  (* the changes *)
  destruct (detectChanges_flip p nd) as (tail & Hdet & Htail); [congruence|].
  rewrite Hnew in Hdet.
  assert (dcs = status_change (stockStatus p) "sold_out"
                :: deduped p (newColorNotifiedProductIds s) tail) as Hdcs.
  { subst dcs. rewrite Hdet. by apply deduped_cons. }
  apply (deduped_Forall _ p (newColorNotifiedProductIds s)) in Htail.
  set (tail' := deduped p (newColorNotifiedProductIds s) tail) in *.
  (* the markdown transition *)
  assert (string_truthy C = true) as HCt.
  { unfold string_truthy. by rewrite bool_decide_eq_false_2. }
  set (m := {| discountUrl :=
                 ("https://shop.lululemon.com/p/" ++ parentCategoryUnifiedId ps
                  ++ "/" ++ unifiedId ps ++ "/_/" ++ ps_productId ps
                  ++ "?color=" ++ C
                  ++ (if size_unselected p then "" else "&sz=" ++ size p))%string;
               change := moved_to_markdown (Some (Num (Q2Qc 40)))
                                           (Some (Num (Q2Qc 60))) |}).
  assert (md_outcome env (clock s1) p nd dcs = Some m) as Hmt.
  { unfold md_outcome, markdown_guard. rewrite Hmd, Hhtml, Hdcs. simpl.
    unfold md_lookup, md_fetches. rewrite Hcode, HCt. simpl.
    rewrite (proj2 (existsb_code C _) Habsent). simpl.
    rewrite Hfetch. simpl. rewrite Hscript, Hqd. simpl.
    unfold markdown_result. rewrite Hcolors. simpl.
    destruct (find_code C cs Hpresent) as [c ->].
    rewrite Hsku. simpl. rewrite Hprice, Hsale, Hlist, Hsale40, Hlist60, Hps. simpl.
    subst m. do 2 f_equal. by destruct (size_unselected p). }
  rewrite Hmt in Hch, Hupd.
  assert (n_change <$> ns = change m :: filter (λ c, is_sold_out_change c = false) tail')
    as Hch'.
  { rewrite Hch, Hdcs. unfold to_send. simpl. by rewrite filter_cons_False. }
  pose proof (Forall_filter_keep _ (λ c, is_sold_out_change c = false) _ Htail) as Htail''.
  exists ns, (merged p nd (Some m) t1 (last_change p (Some m) dcs t2)).
  split.
  { unfold loop_state in *. by rewrite check_loop_app, check_loop_cons. }
  split; [done|]. split.
  { unfold notified_of. rewrite Hch', filter_cons_True by done.
    rewrite filter_none; [done|]. eapply Forall_impl; [exact Htail''|].
    by intros c [? ?]. }
  split.
  { unfold notified_of. rewrite Hch', filter_cons_False by done.
    rewrite filter_none; [done|]. eapply Forall_impl; [exact Htail''|].
    by intros c [? ?]. }
  split; [by eapply cycle_lookup|]. done.
Qed.

(** *** A second look at an unchanged page *)

Lemma number_eq_refl n : number_truthy n = true → number_eq n n = true.
Proof. destruct n as [|q]; [done|]. intros _. simpl. by apply bool_decide_eq_true_2. Qed.

(** The diff of a product just merged with a snapshot, against that same
    snapshot, is empty, provided no markdown transition was merged. *)
Lemma detectChanges_merged p nd t c :
  detectChanges (merged p nd None t c) nd = [].
Proof.
  unfold detectChanges. simpl.
  rewrite bool_decide_eq_false_2 by (intros H; by apply H). simpl.
  assert (match match snap_currentPrice nd with
                | Some v => Some v
                | None => currentPrice p
                end, snap_currentPrice nd with
          | Some old, Some new =>
              if number_truthy old && number_truthy new && negb (number_eq old new)
              then [price_change old new] else []
          | _, _ => []
          end = []) as ->.
  { destruct (snap_currentPrice nd) as [n|]; [|by destruct (currentPrice p)].
    destruct (number_truthy n) eqn:Hn; [|done]. by rewrite number_eq_refl. }
  assert ((if negb (snap_onSale nd) && snap_onSale nd then [went_on_sale] else [])
          = []) as -> by (by destruct (snap_onSale nd)).
  simpl. destruct (trackNewColors p); [|done].
  destruct (snap_availableColors nd) as [|c0 l] eqn:Hl; simpl.
  - by destruct (availableColors p).
  - rewrite filter_all_out; [done|]. apply Forall_forall.
    intros x Hx Hnot. apply Hnot.
    change (c_code x ∈ c_code <$> (c0 :: l)). apply list_elem_of_fmap. by exists x.
Qed.

Lemma markdown_of_page_none p p' code page :
  markdown_of_page p code page = None → markdown_of_page p' code page = None.
Proof.
  unfold markdown_of_page. repeat case_match; try done.
  unfold markdown_result.
  destruct (find_query_data _) as [qd|]; simpl; [|done].
  by destruct (colors qd ≫= List.find _).
Qed.

Lemma stepped_noise p s s' : stepped env p s s' → (noise s ≤ noise s')%nat.
Proof.
  intros Hst. unfold noise, notified_of.
  destruct (stepped_cases _ _ _ Hst)
    as [(_ & _ & -> & -> & _)|(nd & s1 & ns & _ & -> & _ & _ & [(_ & -> & _)|(_ & -> & _)])];
    rewrite ?fmap_app, ?filter_app, ?length_app; lia.
Qed.

Lemma check_loop_noise l s : (noise s ≤ noise (check_loop env l s).2)%nat.
Proof.
  apply (check_loop_ind (λ _ s', noise s ≤ noise s')%nat); [done|].
  intros _ p s0 s' Hle Hst. apply stepped_noise in Hst. lia.
Qed.

Lemma acquired_lookup p s nd s1 :
  acquired env p s nd s1 →
  (fetchCache s !! baseUrl (url p) = Some nd ∧ fetchCache s1 = fetchCache s)
  ∨ (fetchCache s !! baseUrl (url p) = None
     ∧ fetchCache s1 = <[baseUrl (url p) := nd]> (fetchCache s)).
Proof. intros [nd' H|page Hc Hp]; [by left|by right]. Qed.

Lemma deduped_nil p notified : deduped p notified [] = [].
Proof. unfold deduped. by case_match. Qed.

Lemma stepped_cache_after p s s' :
  stepped env p s s' → fetchCache s' = cache_after env s p.
Proof.
  intros Hst. unfold cache_after.
  destruct (stepped_cases _ _ _ Hst)
    as [(Hnone & _ & _ & _ & _ & ->)|(nd & s1 & ns & Hacq & _ & _ & -> & _)].
  - unfold snapshot_at in Hnone.
    destruct (fetchCache s !! baseUrl (url p)); [done|].
    by destruct (response_page (fetch env (clock s) (url p))).
  - destruct Hacq as [nd Hnd|page Hmiss Hpage].
    + by rewrite Hnd.
    + by rewrite Hmiss, Hpage.
Qed.

End Runs.

(** ** Two runs on an unchanged page *)

Section TwoRuns.
Context {B : Builtins}.
Variables env1 env2 : Env.

(** Every fetch returns the same content in both runs. *)
Hypothesis unchanged : ∀ t t' u, fetch env1 t u = fetch env2 t' u.

Lemma snapshot_unchanged sA sB p nd mt t c :
  fetchCache sA = fetchCache sB →
  snapshot_at env2 sB (merged p nd mt t c) = snapshot_at env1 sA p.
Proof.
  intros Hc. unfold snapshot_at. simpl. rewrite Hc.
  destruct (fetchCache sB !! baseUrl (url p)); [done|].
  by rewrite (unchanged (clock sA) (clock sB)).
Qed.

Lemma snapshot_unchanged_kept sA sB p :
  fetchCache sA = fetchCache sB →
  snapshot_at env2 sB p = snapshot_at env1 sA p.
Proof.
  intros Hc. unfold snapshot_at. rewrite Hc.
  destruct (fetchCache sB !! baseUrl (url p)); [done|].
  by rewrite (unchanged (clock sA) (clock sB)).
Qed.

Lemma md_outcome_unchanged t1 t2 p nd cs t c :
  md_outcome env1 t1 p nd cs = None →
  md_outcome env2 t2 (merged p nd None t c) nd [] = None.
Proof.
  unfold md_outcome, markdown_guard. simpl.
  destruct (negb (includes (url p) "-MD/") && negb (includes (url p) ".html"));
    simpl; [|done].
  destruct (trackNewColors p); simpl; [|done]. rewrite orb_true_r.
  unfold md_lookup, md_fetches, mdUrl. simpl.
  destruct (getColorCodeFromUrl (url p)) as [code|]; [|done].
  case_match; [|done]. rewrite <- (unchanged t1 t2). apply markdown_of_page_none.
Qed.

(** One iteration of the first run that reports nothing, and the
    iteration of the second run on the product it stored. *)
Lemma two_steps p sA sB :
  fetchCache sA = fetchCache sB →
  (noise (check_step env1 p sA).2 ≤ noise sA)%nat →
  ∃ p', updatedProducts (check_step env1 p sA).2 = updatedProducts sA ++ [p']
        ∧ notifications (check_step env2 p' sB).2 = notifications sB
        ∧ console_errors (check_step env2 p' sB).2 = console_errors sB
        ∧ fetchCache (check_step env1 p sA).2 = fetchCache (check_step env2 p' sB).2.
Proof.
  intros Hcache Hnoise.
  destruct (check_step_stepped env1 p sA) as (sA' & EA & HstA).
  rewrite EA in *. simpl in *.
  destruct (stepped_cases env1 _ _ _ HstA)
    as [(HsnapA & Hu & _ & _ & _ & Hc)
       |(nd & s1 & ns & Hacq & Hn & _ & Hc & Hcase)].
  - (* nothing fetched in the first run: nor in the second *)
    exists p. split; [done|].
    destruct (check_step_stepped env2 p sB) as (sB' & EB & HstB).
    rewrite EB. simpl.
    destruct (stepped_cases env2 _ _ _ HstB)
      as [(_ & _ & -> & -> & _ & ->)|(nd2 & s12 & ns2 & Hacq2 & _)].
    + repeat (split; [done|]). congruence.
    + apply acquired_snapshot in Hacq2.
      rewrite (snapshot_unchanged_kept sA sB) in Hacq2 by done. congruence.
  - pose proof (acquired_snapshot env1 _ _ _ _ Hacq) as HsnapA.
    set (cs := deduped p (newColorNotifiedProductIds sA) (detectChanges p nd)) in *.
    destruct Hcase as [([_ Hsent] & He & t1 & t2 & Hu)|(_ & He & _)].
    2:{ exfalso. unfold noise, notified_of in Hnoise.
        rewrite He, Hn, fmap_app, filter_app, !length_app in Hnoise. simpl in Hnoise. lia. }
    (* no markdown transition in the first run *)
    assert (md_outcome env1 (clock s1) p nd cs = None) as Hmt.
    { destruct (md_outcome env1 (clock s1) p nd cs) as [m|] eqn:Hm; [exfalso|done].
      unfold noise, notified_of in Hnoise.
      rewrite He, Hn, fmap_app, filter_app, !length_app, Hsent in Hnoise.
      unfold to_send in Hnoise. simpl in Hnoise.
      rewrite filter_cons_True in Hnoise by (by eapply md_outcome_change).
      simpl in Hnoise. lia. }
    rewrite Hmt in Hu.
    eexists. split; [exact Hu|].
    set (p' := merged p nd None t1 (last_change p None cs t2)).
    destruct (check_step_stepped env2 p' sB) as (sB' & EB & HstB).
    rewrite EB. simpl.
    destruct (stepped_cases env2 _ _ _ HstB)
      as [(HsnapB & _)|(nd2 & s12 & ns2 & Hacq2 & Hn2 & _ & Hc2 & Hcase2)].
    { unfold p' in HsnapB. rewrite (snapshot_unchanged sA sB) in HsnapB by done.
      congruence. }
    pose proof (acquired_snapshot env2 _ _ _ _ Hacq2) as HsnapB.
    unfold p' in HsnapB. rewrite (snapshot_unchanged sA sB) in HsnapB by done.
    assert (nd2 = nd) as -> by congruence.
    assert (detectChanges p' nd = []) as Hdet by apply detectChanges_merged.
    rewrite Hdet, deduped_nil in Hcase2.
    assert (md_outcome env2 (clock s12) p' nd [] = None) as Hmt2
      by (by eapply md_outcome_unchanged).
    rewrite Hmt2 in Hcase2. unfold to_send in Hcase2. simpl in Hcase2.
    assert (fetchCache sA' = fetchCache sB') as Hcc.
    { rewrite Hc, Hc2.
      destruct (acquired_lookup env1 _ _ _ _ Hacq) as [[HlA ->]|[HlA ->]],
               (acquired_lookup env2 _ _ _ _ Hacq2) as [[HlB ->]|[HlB ->]];
        simpl in HlB; rewrite Hcache in *; simpl; congruence. }
    destruct Hcase2 as [([_ Hsent2] & -> & _)|([_ [(c & rest & Hnil) _]] & _)].
    + apply fmap_nil_inv in Hsent2 as ->. rewrite app_nil_r in Hn2. done.
    + by destruct (n_change <$> ns2).
Qed.

Lemma cache_after_unchanged sA sB p p' :
  fetchCache sA = fetchCache sB →
  p' = p ∨ (∃ nd mt t c, p' = merged p nd mt t c) →
  cache_after env2 sB p' = cache_after env1 sA p.
Proof.
  intros Hc [->|(nd & mt & t & c & ->)]; unfold cache_after; simpl; rewrite Hc;
    (destruct (fetchCache sB !! baseUrl (url p)); [done|]);
    by rewrite (unchanged (clock sA) (clock sB)).
Qed.

(** The two runs keep the same cache, whatever they report. *)
Lemma two_loops_cache l : ∀ sA sB,
  fetchCache sA = fetchCache sB →
  ∃ l', updatedProducts (check_loop env1 l sA).2 = updatedProducts sA ++ l'
        ∧ length l' = length l
        ∧ fetchCache (check_loop env1 l sA).2 = fetchCache (check_loop env2 l' sB).2.
Proof.
  induction l as [|p l IH]; intros sA sB Hcache.
  - exists []. by rewrite app_nil_r.
  - rewrite check_loop_cons.
    destruct (check_step_stepped env1 p sA) as (sA1 & EA & HstA).
    rewrite EA. simpl.
    destruct (stepped_updated env1 _ _ _ HstA) as (p' & Hu & Hp').
    destruct (check_step_stepped env2 p' sB) as (sB1 & EB & HstB).
    assert (fetchCache sA1 = fetchCache sB1) as Hc1.
    { rewrite (stepped_cache_after env1 _ _ _ HstA), (stepped_cache_after env2 _ _ _ HstB).
      symmetry. apply cache_after_unchanged; [done|].
      destruct Hp' as [->|(nd & s1 & mt & t & c & _ & ->)]; [by left|right].
      by exists nd, mt, t, c. }
    destruct (IH sA1 sB1 Hc1) as (l' & Hu' & Hlen & Hc').
    exists (p' :: l'). rewrite check_loop_cons, EB. simpl.
    split; [by rewrite Hu', Hu, <- app_assoc|]. split; [by rewrite Hlen|done].
Qed.

(** X30. A second run on an unchanged page is silent.  The remote content
    is the same in both runs (the hypothesis [unchanged]).  For every
    tracked product on which the first run logged no processing error and
    announced no markdown transition, the second run, on the product the
    first run stored for it, shows no notification and logs no error: its
    diff is empty. *)
Theorem second_run_is_silent st pre p post :
  trackedProducts st = pre ++ p :: post →
  console_errors (loop_state env1 st (pre ++ [p]))
  = console_errors (loop_state env1 st pre) →
  notified_of t_moved_to_markdown (notifications (loop_state env1 st (pre ++ [p])))
  = notified_of t_moved_to_markdown (notifications (loop_state env1 st pre)) →
  ∃ pre' p' post',
    trackedProducts (storage (cycle env1 st).2) = pre' ++ p' :: post'
    ∧ length pre' = length pre
    ∧ notifications (loop_state env2 (storage (cycle env1 st).2) (pre' ++ [p']))
      = notifications (loop_state env2 (storage (cycle env1 st).2) pre')
    ∧ console_errors (loop_state env2 (storage (cycle env1 st).2) (pre' ++ [p']))
      = console_errors (loop_state env2 (storage (cycle env1 st).2) pre').
Proof.
  intros Hst Herr Hmd.
  set (st' := storage (cycle env1 st).2).
  assert (trackedProducts st'
          = updatedProducts (check_loop env1 (trackedProducts st)
                               (fresh_locals (initial st))).2) as Ht.
  { unfold st', cycle. by destruct (checkAllProducts_end env1 (initial st)) as (-> & _). }
  rewrite Ht, Hst. unfold loop_state in *.
  set (s0 := fresh_locals (initial st)) in *.
  set (s0' := fresh_locals (initial st')) in *.
  rewrite check_loop_app, check_loop_cons.
  rewrite check_loop_app, check_loop_cons in Herr, Hmd.
  change (check_loop env1 [] ?s).2 with s in *.
  destruct (two_loops_cache pre s0 s0' eq_refl) as (pre' & Hpre' & Hlen & Hcache).
  set (sA := (check_loop env1 pre s0).2) in *.
  set (sB := (check_loop env2 pre' s0').2) in *.
  destruct (two_steps p sA sB Hcache) as (p' & Hu & Hn & He & _).
  { unfold noise. rewrite Herr, Hmd. done. }
  destruct (loop_appends env1 post (check_step env1 p sA).2) as (post' & Hpost' & _).
  exists pre', p', post'.
  split; [by rewrite Hpost', Hu, Hpre', <- app_assoc|].
  split; [done|].
  rewrite check_loop_app, check_loop_cons.
  change (check_loop env2 [] ?s).2 with s. fold sB. by split.
Qed.

End TwoRuns.

(** ** What a cycle shows, requests and keeps *)

Section RunFacts.
Context {B : Builtins}.
Variable env : Env.

Lemma detectChanges_detected p nd c : c ∈ detectChanges p nd → detected p nd c.
Proof.
  unfold detectChanges. rewrite !elem_of_app. intros [H|[H|[H|H]]].
  - case_bool_decide; [|by apply elem_of_nil in H].
    by apply list_elem_of_singleton in H as ->.
  - destruct (currentPrice p) as [old|] eqn:Ho, (snap_currentPrice nd) as [new|] eqn:Hn;
      try (by apply elem_of_nil in H).
    destruct (number_truthy old) eqn:Hto, (number_truthy new) eqn:Htn,
             (number_eq old new) eqn:Heq; simpl in H; try (by apply elem_of_nil in H).
    by apply list_elem_of_singleton in H as ->.
  - destruct (onSale p) eqn:Ho, (snap_onSale nd) eqn:Hn; simpl in H;
      try (by apply elem_of_nil in H).
    by apply list_elem_of_singleton in H as ->.
  - destruct (trackNewColors p) eqn:Ht; [|by apply elem_of_nil in H].
    destruct (availableColors p) as [old|] eqn:Ho; [|by apply elem_of_nil in H].
    apply list_elem_of_fmap in H as (c' & -> & Hc').
    apply list_elem_of_filter in Hc' as [Hnot Hin]. simpl. split; [done|].
    by exists old, c'.
Qed.

Lemma in_report_order_app (l1 l2 : list Change) :
  in_report_order l1 → in_report_order l2 →
  (∀ a b, a ∈ l1 → b ∈ l2 → reported_before a b) →
  in_report_order (l1 ++ l2).
Proof.
  intros H1 H2 H i j a b Hi Hj Hlt.
  apply lookup_app_Some in Hi as [Hi|[Hleni Hi]],
        Hj as [Hj|[Hlenj Hj]].
  - by eapply H1.
  - apply H; by eapply list_elem_of_lookup_2.
  - apply lookup_lt_Some in Hj. lia.
  - eapply H2; [exact Hi|exact Hj|lia].
Qed.

Lemma in_report_order_one (l : list Change) :
  (length l ≤ 1)%nat → in_report_order l.
Proof.
  intros Hl i j a b Hi Hj Hlt.
  apply lookup_lt_Some in Hi, Hj. lia.
Qed.

Lemma in_report_order_same (l : list Change) ty :
  Forall (λ c, change_type c = ty) l → in_report_order l.
Proof.
  rewrite Forall_forall. intros Hl i j a b Hi Hj _. unfold reported_before.
  by rewrite (Hl a), (Hl b) by (by eapply list_elem_of_lookup_2).
Qed.

(** X11. The list that [detectChanges] returns.  What is in it: a
    status that is not the same; a price that is not the same, when both
    prices are known (a missing, zero or unreadable price is never
    compared); a sale that has started (the end of a sale is not
    reported); and, with new-color tracking on and a stored list of
    colors, the snapshot colors whose code the stored list lacks.  In
    which order: status before price before sale before new colors.  How
    many times: at most one change of status, of price and of sale; and one
    [new_color] for every entry of the color list of the snapshot whose
    code the stored list lacks, in the order of that list, an entry that
    is listed twice being reported twice. *)
Theorem detectChanges_exact p nd :
  (∀ c, c ∈ detectChanges p nd ↔ detected p nd c)
  ∧ in_report_order (detectChanges p nd)
  ∧ (∀ ty, ty ≠ t_new_color →
       (length (filter (λ c, change_type c = ty) (detectChanges p nd)) ≤ 1)%nat)
  ∧ filter (λ c, change_type c = t_new_color) (detectChanges p nd)
    = if trackNewColors p
      then (λ c, new_color (c_name c)) <$> new_colors p nd else [].
Proof.
  split.
  { intros c. split; [apply detectChanges_detected|].
    unfold detectChanges. rewrite !elem_of_app.
    destruct c as [from to|from to| |color_name|sale list]; simpl.
    - intros (-> & -> & Hne). left. rewrite bool_decide_eq_true_2 by done. by left.
    - intros (-> & -> & -> & -> & ->). right. left. simpl. by left.
    - intros [-> ->]. right. right. left. simpl. by left.
    - intros (-> & old & c' & -> & Hin & <- & Hnot). right. right. right.
      apply list_elem_of_fmap. exists c'. split; [done|].
      by apply list_elem_of_filter.
    - done. }
  split; [|split; [|apply detectChanges_new_color]].
  - unfold detectChanges.
    set (colors := if trackNewColors p then _ else _).
    assert (Forall (λ c, change_type c = t_new_color) colors) as Hcolors.
    { unfold colors. destruct (trackNewColors p); [|constructor].
      destruct (availableColors p); [|constructor].
      apply Forall_fmap, Forall_forall. by intros. }
    assert (in_report_order colors) as Hsorted
      by (by eapply in_report_order_same).
    rewrite Forall_forall in Hcolors.
    repeat apply in_report_order_app; try done.
    + apply in_report_order_one. case_bool_decide; simpl; lia.
    + apply in_report_order_one. repeat case_match; simpl; lia.
    + apply in_report_order_one. case_match; simpl; lia.
    + intros a b Ha Hb. apply Hcolors in Hb. unfold reported_before. rewrite Hb.
      case_match; [|by apply elem_of_nil in Ha].
      apply list_elem_of_singleton in Ha as ->. simpl. lia.
    + intros a b Ha Hb. unfold reported_before.
      assert (change_type a = t_price_change) as ->.
      { clear Hb.
        destruct (currentPrice p), (snap_currentPrice nd);
          try (by apply elem_of_nil in Ha).
        case_match; [|by apply elem_of_nil in Ha].
        by apply list_elem_of_singleton in Ha as ->. }
      apply elem_of_app in Hb as [Hb|Hb].
      * case_match; [|by apply elem_of_nil in Hb].
        apply list_elem_of_singleton in Hb as ->. simpl. lia.
      * apply Hcolors in Hb. rewrite Hb. simpl. lia.
    + intros a b Ha Hb. unfold reported_before.
      assert (change_type a = t_status_change) as ->.
      { case_bool_decide; [|by apply elem_of_nil in Ha].
        by apply list_elem_of_singleton in Ha as ->. }
      simpl. lia.
  - intros ty Hty. unfold detectChanges. rewrite !filter_app, !length_app.
    set (colors := if trackNewColors p then _ else _).
    assert (filter (λ c, change_type c = ty) colors = []) as ->.
    { apply filter_all_out. unfold colors. destruct (trackNewColors p); [|constructor].
      destruct (availableColors p); [|constructor].
      apply Forall_fmap, Forall_forall. intros x _. simpl. congruence. }
    assert (∀ (b : bool) (c : Change),
              (length (filter (λ c, change_type c = ty) (if b then [c] else []))
               ≤ if bool_decide (change_type c = ty) then 1 else 0)%nat) as Hone.
    { intros [] c; [|simpl; lia]. case_bool_decide.
      - rewrite filter_cons_True by done. simpl. lia.
      - rewrite filter_cons_False by done. simpl. lia. }
    pose proof (Hone (bool_decide (stockStatus p ≠ snap_stockStatus nd))
                  (status_change (stockStatus p) (snap_stockStatus nd))) as H1.
    pose proof (Hone (negb (onSale p) && snap_onSale nd) went_on_sale) as H3.
    assert (length (filter (λ c, change_type c = ty)
                      match currentPrice p, snap_currentPrice nd with
                      | Some old, Some new =>
                          if number_truthy old && number_truthy new
                             && negb (number_eq old new)
                          then [price_change old new] else []
                      | _, _ => []
                      end)
            ≤ if bool_decide (t_price_change = ty) then 1 else 0)%nat as H2.
    { destruct (currentPrice p) as [old|], (snap_currentPrice nd) as [new|];
        try (simpl; lia). apply (Hone _ (price_change old new)). }
    simpl in *. destruct ty; try done; simpl in *.
    all: repeat match goal with
                | H : context [bool_decide (?a = ?b)] |- _ =>
                    first [rewrite (bool_decide_eq_true_2 (a = b)) in H by done
                          |rewrite (bool_decide_eq_false_2 (a = b)) in H by done]
                end; lia.
Qed.

Lemma deduped_subseteq p notified cs c : c ∈ deduped p notified cs → c ∈ cs.
Proof. unfold deduped. case_match; [|done]. by intros [_ ?]%list_elem_of_filter. Qed.

Lemma remaining_subseteq mt cs c : c ∈ remaining mt cs → c ∈ cs.
Proof. destruct mt; [|done]. by intros [_ ?]%list_elem_of_filter. Qed.

Lemma existsb_sold_out cs :
  existsb is_sold_out_change cs = true →
  ∃ from, status_change from "sold_out" ∈ cs.
Proof.
  induction cs as [|c cs IH]; [done|]. simpl. intros [Hc|Hcs]%orb_true_iff.
  - destruct c as [from to| | | |]; try done. simpl in Hc.
    apply bool_decide_eq_true in Hc as ->. exists from. by left.
  - destruct (IH Hcs) as (from & Hin). exists from. by right.
Qed.

(** What the resolver has checked when it returns a transition. *)
Lemma md_outcome_moved t p nd cs mt :
  (∀ c, c ∈ cs → c ∈ detectChanges p nd) →
  md_outcome env t p nd cs = Some mt → moved env p nd (change mt).
Proof.
  intros Hcs. unfold md_outcome, markdown_guard.
  destruct (includes (url p) "-MD/") eqn:Hmd; [done|].
  destruct (includes (url p) ".html") eqn:Hhtml; [done|]. simpl.
  destruct (existsb is_sold_out_change cs || trackNewColors p) eqn:Hwhy; [|done].
  unfold md_lookup, md_fetches.
  destruct (getColorCodeFromUrl (url p)) as [code|] eqn:Hcode; [|done].
  destruct (string_truthy code) eqn:Htruthy; [|done]. simpl.
  destruct (existsb _ (snap_availableColors nd)) eqn:Hgone; [done|]. simpl.
  unfold markdown_of_page.
  destruct (response_page (fetch env t (mdUrl p))) as [page|] eqn:Hpage; [|done].
  destruct (next_data_script page) as [[queries|]|] eqn:Hscript; try done.
  intros (queryData & Hqd & Hresult)%bind_Some.
  split; [done|]. split; [done|]. split.
  { apply orb_true_iff in Hwhy as [Hsold|Htrack]; [right|by left].
    apply existsb_sold_out in Hsold as (from & Hin).
    apply Hcs, detectChanges_detected in Hin. simpl in Hin.
    destruct Hin as (-> & <- & Hne). done. }
  exists code, t, page, queries, queryData, mt.
  split; [done|]. split.
  { intros ->. done. }
  split; [by apply existsb_code|].
  repeat (split; [done|]). split; [|done].
  unfold markdown_result in Hresult.
  destruct (colors queryData) as [cols|]; simpl in *; [|done].
  destruct (List.find _ cols) as [c|] eqn:Hfind; [|done].
  apply find_some in Hfind as [Hin Hc]. apply bool_decide_eq_true in Hc as <-.
  apply list_elem_of_fmap. exists c. split; [done|]. by apply list_elem_of_In.
Qed.

Lemma justified_mono l l' n : l ⊆ l' → justified env l n → justified env l' n.
Proof.
  intros Hl (Hin & nd & He & H). split; [by apply Hl|].
  exists nd. split; [by eapply extraction_mono|done].
Qed.

Lemma sent_changes p cs r ns n :
  sent env p cs r ns → n ∈ ns → n_product n = p ∧ n_change n ∈ cs.
Proof.
  intros [Hall Hr] Hn. rewrite Forall_forall in Hall. split; [by apply Hall|].
  assert (n_change n ∈ n_change <$> ns) as Hc by (apply list_elem_of_fmap; by exists n).
  destruct r as [[]|].
  - by rewrite <- Hr.
  - destruct Hr as [(c & rest & ->) _]. apply elem_of_app. by left.
Qed.

Lemma stepped_cache_extraction done p s s' :
  (∀ k nd, fetchCache s !! k = Some nd → extraction env done k nd) →
  stepped env p s s' →
  ∀ k nd, fetchCache s' !! k = Some nd → extraction env (done ++ [p]) k nd.
Proof.
  intros Hcache Hst k nd Hk.
  assert (done ⊆ done ++ [p]) as Hsub by (intros x Hx; apply elem_of_app; by left).
  destruct (stepped_cache _ _ _ _ Hst) as [Heq|(page & Hp & Heq)]; rewrite Heq in Hk.
  - eapply extraction_mono; [exact Hsub|]. by apply Hcache.
  - destruct (decide (baseUrl (url p) = k)) as [<-|Hne].
    + rewrite lookup_insert_eq in Hk. injection Hk as <-.
      exists p, page, (clock s). split; [|done]. apply elem_of_app. right. by left.
    + rewrite lookup_insert_ne in Hk by done.
      eapply extraction_mono; [exact Hsub|]. by apply Hcache.
Qed.

Lemma check_loop_justified l s :
  fetchCache s = ∅ → notifications s = [] →
  Forall (justified env l) (notifications (check_loop env l s).2).
Proof.
  intros Hc Hn.
  apply (check_loop_ind env (λ done s',
           (∀ k nd, fetchCache s' !! k = Some nd → extraction env done k nd)
           ∧ Forall (justified env done) (notifications s'))).
  - rewrite Hc, Hn. split; [|constructor]. intros k nd. by rewrite lookup_empty.
  - intros done p s0 s' [Hcache Hnotes] Hst.
    assert (done ⊆ done ++ [p]) as Hsub by (intros x Hx; apply elem_of_app; by left).
    split; [by eapply stepped_cache_extraction|].
    destruct (stepped_cases _ _ _ _ Hst)
      as [(_ & _ & -> & _)|(nd & s1 & ns & Hacq & -> & _ & _ & Hcase)].
    { eapply Forall_impl; [exact Hnotes|]. intros n. by apply justified_mono. }
    apply Forall_app. split.
    { eapply Forall_impl; [exact Hnotes|]. intros n. by apply justified_mono. }
    pose proof (acquired_extraction _ _ _ _ _ _ Hcache Hacq) as Hext.
    set (cs := deduped p (newColorNotifiedProductIds s0) (detectChanges p nd)) in *.
    assert (∃ r, sent env p (to_send (md_outcome env (clock s1) p nd cs) cs) r ns)
      as [r Hsent].
    { destruct Hcase as [(H & _)|(H & _)]; by eexists. }
    apply Forall_forall. intros n Hin.
    destruct (sent_changes _ _ _ _ _ Hsent Hin) as [Hp Hchange].
    split; [rewrite Hp; apply elem_of_app; right; by left|].
    exists nd. rewrite Hp. split; [done|].
    unfold to_send in Hchange. apply elem_of_app in Hchange as [Hmd|Hrest].
    + right. destruct (md_outcome env (clock s1) p nd cs) as [mt|] eqn:Hmt;
        [|by apply elem_of_nil in Hmd].
      apply list_elem_of_singleton in Hmd as ->.
      eapply md_outcome_moved; [|exact Hmt].
      intros c Hc'. by eapply deduped_subseteq.
    + left. apply detectChanges_detected.
      eapply deduped_subseteq, remaining_subseteq, Hrest.
Qed.

(** X12. Every notification that a cycle shows is justified.  It is about
    a tracked product, and a document was fetched in this cycle for the
    page of that product whose snapshot differs from the stored product as
    the notification says: another status, another price (both known),
    a sale that has started, or a color that the stored list lacks, on a
    product with new-color tracking on.  A markdown notification is shown
    for a product tracked on a normal page only, when the color of its
    URL has left the page and the clearance page, fetched in this cycle,
    lists it. *)
Theorem notifications_are_justified st :
  Forall (justified env (trackedProducts st)) (notifications (cycle env st).2).
Proof.
  unfold cycle. destruct (checkAllProducts_end env (initial st)) as (_ & -> & _).
  by apply check_loop_justified.
Qed.

(** *** Requests *)

Lemma md_reqs_shape t p nd cs :
  md_reqs env t p nd cs = []
  ∨ ∃ pg, md_reqs env t p nd cs = [request_of by_checkMarkdownTransition (mdUrl p) pg]
          ∧ includes (url p) "-MD/" = false
          ∧ includes (url p) ".html" = false
          ∧ is_Some (getColorCodeFromUrl (url p)).
Proof.
  unfold md_reqs, markdown_guard, md_requests, md_fetches.
  destruct (includes (url p) "-MD/"); [by left|].
  destruct (includes (url p) ".html"); [by left|]. simpl.
  destruct (_ || _); [|by left].
  destruct (getColorCodeFromUrl (url p)) as [code|]; [|by left].
  destruct (_ && _); [|by left].
  right. eexists. by repeat split.
Qed.

(** The requests of one iteration: at most one for the page of the
    product, then at most one for its clearance page. *)
Lemma stepped_requests_shape p s s' :
  stepped env p s s' →
  ∃ pre md,
    requests s' = requests s ++ pre ++ md
    ∧ (pre = [] ∨ ∃ pg, pre = [request_of by_fetchProductStatus (url p) pg])
    ∧ (md = []
       ∨ ∃ pg, md = [request_of by_checkMarkdownTransition (mdUrl p) pg]
               ∧ includes (url p) "-MD/" = false
               ∧ includes (url p) ".html" = false
               ∧ is_Some (getColorCodeFromUrl (url p))).
Proof.
  assert (∀ nd s1 cs,
            acquired env p s nd s1 →
            ∃ pre md,
              requests s1 ++ md_reqs env (clock s1) p nd cs = requests s ++ pre ++ md
              ∧ (pre = [] ∨ ∃ pg, pre = [request_of by_fetchProductStatus (url p) pg])
              ∧ (md = []
                 ∨ ∃ pg, md = [request_of by_checkMarkdownTransition (mdUrl p) pg]
                         ∧ includes (url p) "-MD/" = false
                         ∧ includes (url p) ".html" = false
                         ∧ is_Some (getColorCodeFromUrl (url p)))) as Hacq.
  { intros nd s1 cs [nd' Hnd|page Hmiss Hpage]; state_simpl.
    - exists [], (md_reqs env (clock s) p nd' cs). split; [done|].
      split; [by left|apply md_reqs_shape].
    - eexists [_], (md_reqs env (S (clock s)) p (parseProductHtml page p) cs).
      split; [by rewrite <- app_assoc|].
      split; [right; by eexists|apply md_reqs_shape]. }
  intros [s'' H|s'' H]; inversion H; subst; clear H.
  - eexists [_], []. state_simpl. split; [done|]. split; [right; by eexists|by left].
  - unfold notified_state. state_simpl. by eapply Hacq.
  - unfold caught, notified_state. state_simpl. by eapply Hacq.
Qed.

Lemma request_for_mono l l' r : l ⊆ l' → request_for l r → request_for l' r.
Proof. intros Hl (p & Hp & H). exists p. split; [by apply Hl|done]. Qed.

Lemma check_loop_requests_shape l s :
  requests s = [] →
  (length (requests (check_loop env l s).2) ≤ 2 * length l)%nat
  ∧ Forall (request_for l) (requests (check_loop env l s).2).
Proof.
  intros Hr.
  apply (check_loop_ind env (λ done s',
           (length (requests s') ≤ 2 * length done)%nat
           ∧ Forall (request_for done) (requests s'))).
  - by rewrite Hr.
  - intros done p s0 s' [Hlen Hall] Hst.
    destruct (stepped_requests_shape _ _ _ Hst) as (pre & md & -> & Hpre & Hmd).
    assert (p ∈ done ++ [p]) as Hp by (apply elem_of_app; right; by left).
    split.
    + rewrite !length_app. simpl.
      assert (length pre ≤ 1)%nat by (by destruct Hpre as [->|(pg & ->)]; simpl; lia).
      assert (length md ≤ 1)%nat by (by destruct Hmd as [->|(pg & -> & _)]; simpl; lia).
      lia.
    + apply Forall_app. split.
      { eapply Forall_impl; [exact Hall|]. intros r. apply request_for_mono.
        intros x Hx. apply elem_of_app. by left. }
      apply Forall_app. split.
      * destruct Hpre as [->|(pg & ->)]; [constructor|].
        constructor; [|constructor]. exists p. split; [done|]. by left.
      * destruct Hmd as [->|(pg & -> & Hmd & Hhtml & Hcode)]; [constructor|].
        constructor; [|constructor]. exists p. split; [done|]. by right.
Qed.

(** X13. A cycle issues at most two requests per tracked product: one for
    its page, when the page is not cached yet, and one for its clearance
    page. *)
Theorem cycle_request_bound st :
  (length (requests (cycle env st).2) ≤ 2 * length (trackedProducts st))%nat.
Proof.
  unfold cycle. destruct (checkAllProducts_end env (initial st)) as (_ & _ & -> & _).
  by apply check_loop_requests_shape.
Qed.

(** X14. A cycle requests nothing but the pages of the tracked products
    and the clearance pages of those tracked on a normal page of the US
    site with a color in the URL: a product tracked on a clearance page
    ([-MD/]) or on an SFCC page ([.html]), or whose URL names no color,
    never triggers a clearance request. *)
Theorem cycle_requests_only_tracked_pages st :
  Forall (request_for (trackedProducts st)) (requests (cycle env st).2).
Proof.
  unfold cycle. destruct (checkAllProducts_end env (initial st)) as (_ & _ & -> & _).
  by apply check_loop_requests_shape.
Qed.

(** *** What a check keeps *)

Lemma merged_keeps_known p nd mt t c : keeps_known p (merged p nd mt t c).
Proof.
  unfold keeps_known. simpl. repeat split.
  - by destruct (snap_currentPrice nd).
  - by destruct (snap_originalPrice nd).
  - by destruct mt.
  - intros known Hknown Hne.
    destruct (snap_availableColors nd) as [|c0 l0] eqn:Hl; simpl.
    + by exists known.
    + by eexists.
Qed.

(** X15. A check never loses what was known of a product: after a cycle,
    a stored product that had a current price, an original price, a
    clearance URL or a non-empty list of colors still has one, whatever
    the fetched page lacked. *)
Theorem cycle_keeps_known st :
  Forall2 keeps_known (trackedProducts st) (trackedProducts (storage (cycle env st).2)).
Proof.
  eapply Forall2_impl; [apply cycle_items|].
  intros p p' [->|(nd & mt & t & c & _ & ->)].
  - unfold keeps_known. repeat split; try done. intros known ? ?. by exists known.
  - apply merged_keeps_known.
Qed.

(** *** The notification map *)

Lemma wp_send_queue p c s :
  change_type c ≠ t_moved_to_markdown →
  Forall2 (queued_for env) (notifications s) (pendingNotifications s) →
  wp (notif ← sendNotification env p c;
      match notif with
      | Some n => push_pending n
      | None => mret tt
      end)
     (λ _ s', Forall2 (queued_for env) (notifications s') (pendingNotifications s')) s.
Proof.
  intros Hc Hinv. apply wp_bind. unfold wp at 1. rewrite sendNotification_eq.
  destruct (notifications_create env (S (clock s))); simpl; [|done].
  apply wp_modify. state_simpl. rewrite app_nil_r.
  apply Forall2_app; [done|]. constructor; [|constructor].
  split; [done|]. by left.
Qed.

Lemma wp_notify_queue p cs s :
  Forall (λ c, change_type c ≠ t_moved_to_markdown) cs →
  Forall2 (queued_for env) (notifications s) (pendingNotifications s) →
  wp (notify_changes env p cs)
     (λ _ s', Forall2 (queued_for env) (notifications s') (pendingNotifications s')) s.
Proof.
  intros Hcs. revert s. induction Hcs as [|c cs Hc _ IH]; intros s Hinv; [done|].
  unfold notify_changes. simpl. apply wp_bind.
  eapply wp_mono; [by apply wp_send_queue|].
  intros [[]|] s' Hinv'; [by apply IH|done].
Qed.

Lemma wp_markdown_queue p nd cs s :
  Forall2 (queued_for env) (notifications s) (pendingNotifications s) →
  wp (markdown_phase env p nd cs)
     (λ r s', Forall2 (queued_for env) (notifications s') (pendingNotifications s')
              ∧ match r with
                | Ok (_, cs') => ∀ c, c ∈ cs' → c ∈ cs
                | Thrown => True
                end) s.
Proof.
  intros Hinv. unfold markdown_phase.
  destruct (markdown_guard p cs) eqn:Hguard; [|by apply wp_ret].
  apply wp_bind. unfold wp at 1. rewrite checkMarkdownTransition_eq. simpl.
  destruct (md_lookup env (clock s) p nd) as [mt|] eqn:Hmt; simpl; [|by apply wp_ret].
  apply wp_bind. unfold wp at 1. rewrite sendNotification_eq.
  match goal with |- context [notifications_create env ?t] =>
    destruct (notifications_create env t) end; simpl; [|done].
  apply wp_bind, wp_modify, wp_ret. state_simpl. rewrite app_nil_r. split.
  - apply Forall2_app; [done|]. constructor; [|constructor].
    split; [done|]. right. exists (clock s), nd, cs, mt.
    cbn [n_product n_change n_id]. unfold md_outcome. by rewrite Hguard.
  - by intros c [_ ?]%list_elem_of_filter.
Qed.

Lemma detected_type p nd c : detected p nd c → change_type c ≠ t_moved_to_markdown.
Proof. by destruct c. Qed.

Lemma check_product_queue p s :
  Forall2 (queued_for env) (notifications s) (pendingNotifications s) →
  wp (check_product env p)
     (λ _ s', Forall2 (queued_for env) (notifications s') (pendingNotifications s')) s.
Proof.
  intros Hinv. unfold check_product. apply wp_bind.
  assert (wp (obtain_newData env p)
            (λ r s1, r ≠ Thrown
                     ∧ notifications s1 = notifications s
                     ∧ pendingNotifications s1 = pendingNotifications s) s) as Hnd.
  { unfold obtain_newData. apply wp_bind, wp_gets.
    destruct (fetchCache s !! baseUrl (url p)) as [nd|]; [by apply wp_ret|].
    apply wp_bind. unfold fetchProductStatus. apply wp_bind.
    unfold wp at 1. rewrite do_fetch_eq. simpl.
    by destruct (response_page (fetch env (clock s) (url p))). }
  eapply wp_mono; [exact Hnd|]. clear Hnd.
  intros [[nd|]|] s1 (Hr & Hn & Hp); [| |done].
  2:{ apply wp_modify. state_simpl. by rewrite Hn, Hp. }
  rewrite <- Hn, <- Hp in Hinv. clear Hn Hp Hr.
  apply wp_bind. unfold dedup_new_color. apply wp_bind, wp_gets, wp_bind, wp_modify, wp_ret.
  set (cs := deduped p (newColorNotifiedProductIds s1) (detectChanges p nd)).
  apply wp_bind. eapply wp_mono; [by apply wp_markdown_queue|].
  intros [[mt cs']|] s3 [Hinv3 Hsub]; [|done].
  apply wp_bind. eapply wp_mono; [apply wp_notify_queue; [|done]|].
  { apply Forall_forall. intros c Hc. apply (detected_type p nd).
    apply detectChanges_detected. eapply deduped_subseteq. by apply Hsub. }
  intros [[]|] s4 Hinv4; [|done].
  unfold push_merged. apply wp_bind, wp_bind, wp_tick, wp_ret, wp_bind.
  destruct mt as [m|]; [|destruct cs' as [|first rest]].
  - by apply wp_bind, wp_tick, wp_ret, wp_modify.
  - by apply wp_ret, wp_modify.
  - by apply wp_bind, wp_tick, wp_ret, wp_modify.
Qed.

Lemma check_step_queue p s :
  Forall2 (queued_for env) (notifications s) (pendingNotifications s) →
  Forall2 (queued_for env) (notifications (check_step env p s).2)
          (pendingNotifications (check_step env p s).2).
Proof.
  intros Hinv. pose proof (check_product_queue p s Hinv) as H. unfold wp in H.
  unfold check_step, try_catch.
  destruct (check_product env p s) as [[[]|] s'']; [exact H|].
  rewrite on_error_eq. exact H.
Qed.

Lemma check_loop_queue l s :
  Forall2 (queued_for env) (notifications s) (pendingNotifications s) →
  Forall2 (queued_for env) (notifications (check_loop env l s).2)
          (pendingNotifications (check_loop env l s).2).
Proof.
  revert s. induction l as [|p l IH]; intros s Hinv; [done|].
  rewrite check_loop_cons. by apply IH, check_step_queue.
Qed.

Lemma stepped_storage p s s' : stepped env p s s' → storage s' = storage s.
Proof.
  intros [s'' H|s'' H]; inversion H; subst; clear H;
    unfold caught, notified_state; state_simpl; try done;
    match goal with H : acquired _ _ _ _ _ |- _ => by destruct H end.
Qed.

Lemma check_loop_storage l s : storage (check_loop env l s).2 = storage s.
Proof.
  apply (check_loop_ind env (λ _ s', storage s' = storage s)); [done|].
  intros _ p s0 s' <- Hst. by eapply stepped_storage.
Qed.

(** The map that a run stores: every queued entry is written, in order. *)
Lemma checkAllProducts_map s :
  notificationMap (storage (checkAllProducts env s).2)
  = foldl (λ m e, <[e.1 := e.2]> m) (notificationMap (storage s))
          (pendingNotifications
             (check_loop env (trackedProducts (storage s)) (fresh_locals s)).2).
Proof.
  unfold checkAllProducts, mbind, M_bind, gets. simpl.
  case_bool_decide as Hlen.
  - apply nil_length_inv in Hlen. rewrite Hlen. done.
  - simpl.
    pose proof (check_loop_ok env (trackedProducts (storage s)) (fresh_locals s)) as Hok.
    pose proof (check_loop_storage (trackedProducts (storage s)) (fresh_locals s)) as Hst.
    destruct (check_loop env _ _) as [r sl]. simpl in Hok, Hst. subst r. simpl.
    unfold updateBadge, mbind, M_bind, gets, modify.
    destruct (pendingNotifications sl) as [|e pend] eqn:Hp; simpl;
      match goal with |- context [if ?b then _ else _] => destruct b end;
      simpl; by rewrite Hst.
Qed.

Lemma foldl_insert_other (pend : list (string * string)) (m : gmap string string) k :
  k ∉ pend.*1 → foldl (λ m e, <[e.1 := e.2]> m) m pend !! k = m !! k.
Proof.
  revert m. induction pend as [|e pend IH]; intros m Hk; [done|].
  simpl in *. apply not_elem_of_cons in Hk as [Hne Hk].
  rewrite IH by done. by rewrite lookup_insert_ne.
Qed.

Lemma foldl_insert_lookup (pend : list (string * string)) (m : gmap string string) e :
  NoDup pend.*1 → e ∈ pend →
  foldl (λ m e, <[e.1 := e.2]> m) m pend !! e.1 = Some e.2.
Proof.
  revert m. induction pend as [|x pend IH]; intros m Hnd He; [by apply elem_of_nil in He|].
  simpl in *. apply NoDup_cons in Hnd as [Hx Hnd].
  apply elem_of_cons in He as [->|He].
  - rewrite foldl_insert_other by done. by rewrite lookup_insert_eq.
  - by apply IH.
Qed.

Lemma markdown_result_url p code queryData mt :
  markdown_result p code queryData = Some mt → discountUrl mt ≠ "".
Proof.
  unfold markdown_result. case_match; [|done]. by intros [= <-].
Qed.

Lemma md_outcome_url t p nd cs mt :
  md_outcome env t p nd cs = Some mt → discountUrl mt ≠ "".
Proof.
  unfold md_outcome, md_lookup, markdown_of_page.
  repeat case_match; try done.
  intros (queryData & _ & Hresult)%bind_Some. by eapply markdown_result_url.
Qed.

(** X16. A click on a notification that a cycle has shown opens the page
    it is about: the URL of its product, or the URL of the clearance page
    for a markdown notification.  The identifiers drawn in the cycle are
    taken to be distinct. *)
Theorem click_opens_product_page st n :
  NoDup (n_id <$> notifications (cycle env st).2) →
  n ∈ notifications (cycle env st).2 →
  url (n_product n) ≠ "" →
  ∃ u, (onClicked (n_id n) (cycle env st).2).1
       = Ok [tabs_create u; notifications_clear (n_id n)]
       ∧ queued_for env n (n_id n, u).
Proof.
  intros Hids Hn Hurl.
  pose proof (checkAllProducts_map (initial st)) as Hmap.
  destruct (checkAllProducts_end env (initial st)) as (_ & Hnotes & _).
  fold (cycle env st) in Hmap, Hnotes.
  set (sl := (check_loop env (trackedProducts (storage (initial st)))
                (fresh_locals (initial st))).2) in *.
  assert (Forall2 (queued_for env) (notifications sl) (pendingNotifications sl)) as Hq.
  { apply check_loop_queue. constructor. }
  rewrite Hnotes in Hids, Hn.
  assert ((pendingNotifications sl).*1 = n_id <$> notifications sl) as Hkeys.
  { clear -Hq. induction Hq as [|n' e ns pend [He _] _ IH]; [done|].
    rewrite !fmap_cons, IH. by f_equal. }
  apply list_elem_of_lookup in Hn as (i & Hi).
  destruct (Forall2_lookup_l _ _ _ _ _ Hq Hi) as (e & He & Hne).
  assert (notificationMap (storage (cycle env st).2) !! n_id n = Some e.2) as Hlook.
  { rewrite Hmap. destruct Hne as [<- _]. apply foldl_insert_lookup.
    - by rewrite Hkeys.
    - by eapply list_elem_of_lookup_2. }
  assert (e.2 ≠ "") as Hne2.
  { destruct Hne as [_ [[_ ->]|(t & nd & cs & mt & Hmt & _ & ->)]]; [done|].
    by eapply md_outcome_url. }
  exists e.2. split.
  - unfold onClicked, mbind, M_bind, gets, store_notificationMap, modify. simpl.
    rewrite Hlook. unfold string_truthy. by rewrite bool_decide_eq_false_2.
  - destruct Hne as [_ H]. by split.
Qed.

(** *** The shared snapshot *)

Lemma stepped_cache_kept p s s' k nd :
  stepped env p s s' → fetchCache s !! k = Some nd → fetchCache s' !! k = Some nd.
Proof.
  intros Hst Hk. rewrite (stepped_cache_after env _ _ _ Hst). unfold cache_after.
  destruct (fetchCache s !! baseUrl (url p)) as [nd'|] eqn:Hp; [done|].
  destruct (response_page _); [|done].
  rewrite lookup_insert_ne; [done|]. intros <-. congruence.
Qed.

Lemma check_loop_cache_kept l s k nd :
  fetchCache s !! k = Some nd → fetchCache (check_loop env l s).2 !! k = Some nd.
Proof.
  intros Hk.
  apply (check_loop_ind env (λ _ s', fetchCache s' !! k = Some nd)); [done|].
  intros _ p s0 s' H0 Hst. by eapply stepped_cache_kept.
Qed.

(** X17. The snapshot of a page is shared as it was parsed.  When the
    page of a product is fetched in a cycle, the products that come later
    with the same page key are not parsed again: they are given the
    snapshot parsed for the color and the size of the product that was
    fetched. *)
Theorem cached_snapshot_is_shared st pre a mid b post page :
  trackedProducts st = pre ++ a :: mid ++ b :: post →
  baseUrl (url b) = baseUrl (url a) →
  fetchCache (loop_state env st pre) !! baseUrl (url a) = None →
  response_page (fetch env (clock (loop_state env st pre)) (url a)) = Some page →
  snapshot_at env (loop_state env st (pre ++ a :: mid)) b
  = Some (parseProductHtml page a).
Proof.
  intros _ Hkey Hmiss Hpage. unfold loop_state in *.
  rewrite check_loop_app, check_loop_cons.
  set (s := (check_loop env pre (fresh_locals (initial st))).2) in *.
  destruct (check_step_stepped env a s) as (s' & -> & Hst). simpl.
  assert (fetchCache s' !! baseUrl (url a) = Some (parseProductHtml page a)) as Hcached.
  { rewrite (stepped_cache_after env _ _ _ Hst). unfold cache_after.
    by rewrite Hmiss, Hpage, lookup_insert_eq. }
  unfold snapshot_at. rewrite Hkey.
  by rewrite (check_loop_cache_kept mid s' _ _ Hcached).
Qed.

(** *** The change marker *)

(** X18. The change marker follows the notifications.  When the iteration
    of a cycle on a product ends without an error, the product stored in
    its place keeps its change marker if the iteration showed no
    notification, and else is marked with the type of the first
    notification it showed. *)
Theorem change_marker_is_first_notification st pre p post :
  trackedProducts st = pre ++ p :: post →
  console_errors (loop_state env st (pre ++ [p])) = console_errors (loop_state env st pre) →
  ∃ p' ns,
    trackedProducts (storage (cycle env st).2) !! length pre = Some p'
    ∧ notifications (loop_state env st (pre ++ [p]))
      = notifications (loop_state env st pre) ++ ns
    ∧ match ns with
      | [] => lastChange p' = lastChange p
      | n :: _ => ∃ ts, lastChange p' = Some (change_type (n_change n), ts)
      end.
Proof.
  intros Hst Herr.
  assert (loop_state env st (pre ++ [p]) = (check_step env p (loop_state env st pre)).2)
    as Hafter.
  { unfold loop_state. by rewrite check_loop_app, check_loop_cons. }
  rewrite Hafter in *.
  set (s := loop_state env st pre) in *.
  destruct (check_step_stepped env p s) as (s' & Es & Hstep).
  pose proof (cycle_lookup env st pre p post) as Hlookup. fold s in Hlookup.
  rewrite Es in *. simpl in *.
  destruct (stepped_cases _ _ _ _ Hstep)
    as [(_ & Hu & Hn & _)|(nd & s1 & ns & Hacq & Hn & _ & _ & Hcase)].
  { exists p, []. split; [apply Hlookup; [done|by rewrite Es]|]. by rewrite app_nil_r. }
  set (cs := deduped p (newColorNotifiedProductIds s) (detectChanges p nd)) in *.
  destruct Hcase as [([_ Hsent] & _ & t1 & t2 & Hu)|(_ & He & _)].
  2:{ rewrite He in Herr. apply (f_equal length) in Herr.
      rewrite length_app in Herr. simpl in Herr. lia. }
  eexists _, ns. split; [apply Hlookup; [done|by rewrite Es]|]. split; [done|].
  simpl. unfold last_change, to_send in *.
  destruct (md_outcome env (clock s1) p nd cs) as [m|] eqn:Hm; simpl in *.
  - destruct ns as [|n ns']; [done|]. injection Hsent as Hn0 _.
    exists t2. rewrite Hn0. by erewrite md_outcome_change.
  - destruct cs as [|first rest]; destruct ns as [|n ns']; try done.
    injection Hsent as Hn0 _. exists t2. by rewrite Hn0.
Qed.

(** *** Titles *)

Lemma Qc_apart (a b : Qc) : a ≠ b → (b < a)%Qc ∨ (a < b)%Qc.
Proof.
  intros Hne. destruct (Qclt_le_dec b a) as [Hlt|Hle]; [by left|right].
  apply Qcle_lt_or_eq in Hle as [Hlt|Heq]; [done|]. congruence.
Qed.

(** X19. The title of a price notification tells the direction of the
    change.  A price change that [detectChanges] reports is between two
    different known prices; its notification is titled as a drop exactly
    when the new price is below the old one, and as an increase when it
    is above. *)
Theorem price_title_tells_direction p nd from to :
  price_change from to ∈ detectChanges p nd →
  ∃ a b, from = Num a ∧ to = Num b
         ∧ ((b < a)%Qc ∧ notification_title (price_change from to) = "📉 Price Drop!"
            ∨ (a < b)%Qc ∧ notification_title (price_change from to) = "📈 Price Increased").
Proof.
  intros (_ & _ & Hf & Ht & Hne)%detectChanges_detected.
  destruct from as [|a]; [done|]. destruct to as [|b]; [done|].
  exists a, b. split; [done|]. split; [done|]. simpl in *.
  apply bool_decide_eq_false in Hne.
  destruct (Qc_apart a b Hne) as [Hlt|Hlt].
  - left. split; [done|]. by rewrite bool_decide_eq_true_2.
  - right. split; [done|]. rewrite bool_decide_eq_false_2; [done|].
    by apply Qcle_not_lt, Qclt_le_weak.
Qed.

(** X20. The notification of a status change that a cycle shows is never
    given the fallback title: the new status is one of the three that the
    extractor produces, and the title is the one of that status. *)
Theorem status_titles_are_specific st :
  Forall (λ n, ∀ from to,
            n_change n = status_change from to →
            (to = "in_stock" ∧ notification_title (n_change n) = "🎉 Back in Stock!")
            ∨ (to = "low_stock" ∧ notification_title (n_change n) = "⚠️ Almost Sold Out!")
            ∨ (to = "sold_out" ∧ notification_title (n_change n) = "❌ Sold Out"))
         (notifications (cycle env st).2).
Proof.
  assert (Forall (justified env (trackedProducts st)) (notifications (cycle env st).2))
    as Hall.
  { unfold cycle. destruct (checkAllProducts_end env (initial st)) as (_ & -> & _).
    by apply check_loop_justified. }
  eapply Forall_impl; [exact Hall|].
  intros n (_ & nd & (q & page & t & _ & _ & _ & ->) & Hwhy) from to Hn.
  rewrite Hn in *. destruct Hwhy as [(_ & -> & _)|Hmoved].
  - destruct (parseProductHtml_status page q) as [-> | [-> | ->]]; auto.
  - destruct Hmoved as (_ & _ & _ & code & t' & page' & queries & queryData & mt & H).
    destruct H as (_ & _ & _ & _ & _ & _ & _ & Hresult & Hchange).
    apply markdown_result_change in Hresult. by rewrite <- Hchange in Hresult.
Qed.

End RunFacts.

(** ** The handlers of the service worker *)

Section HandlerFacts.
Context {B : Builtins}.
Variable env : Env.

Lemma updateBadge_storage s : storage (updateBadge s).2 = storage s.
Proof.
  unfold updateBadge, mbind, M_bind, gets, modify. simpl. by case_match.
Qed.

Lemma updateBadge_ok s : (updateBadge s).1 = Ok tt.
Proof.
  unfold updateBadge, mbind, M_bind, gets, modify. simpl. by case_match.
Qed.

(** [updateBadge] makes the badge show the alerts of the stored list. *)
Lemma updateBadge_shows s : badge_shows (updateBadge s).2.
Proof.
  unfold badge_shows. rewrite updateBadge_storage.
  unfold updateBadge, mbind, M_bind, gets, modify, stock_alerts, sale_alerts. simpl.
  set (l := trackedProducts (storage s)).
  destruct (filter (λ p, stockStatus p = "low_stock" ∨ stockStatus p = "sold_out") l)
    as [|a la]; destruct (filter (λ p, onSale p = true) l) as [|b lb]; by simpl.
Qed.

(** The badge depends on the statuses and the sale flags only. *)
Lemma badge_shows_ext s s' :
  stockStatus <$> trackedProducts (storage s') = stockStatus <$> trackedProducts (storage s) →
  onSale <$> trackedProducts (storage s') = onSale <$> trackedProducts (storage s) →
  badgeText s' = badgeText s →
  badgeBackgroundColor s' = badgeBackgroundColor s →
  badge_shows s → badge_shows s'.
Proof.
  intros Hst Hsale Ht Hc. unfold badge_shows. rewrite Ht, Hc.
  assert (∀ l l' : list Product,
            stockStatus <$> l' = stockStatus <$> l →
            length (stock_alerts l') = length (stock_alerts l)) as Hstock.
  { unfold stock_alerts. intros l. induction l as [|p l IH]; intros [|p' l'] E; try done.
    injection E as Ep El. 
    destruct (decide (stockStatus p = "low_stock" ∨ stockStatus p = "sold_out")) as [H|H].
    - rewrite !filter_cons_True by (by rewrite ?Ep). simpl. by rewrite (IH l').
    - rewrite !filter_cons_False by (by rewrite ?Ep). by apply IH. }
  assert (∀ l l' : list Product,
            onSale <$> l' = onSale <$> l →
            length (sale_alerts l') = length (sale_alerts l)) as Hsales.
  { unfold sale_alerts. intros l. induction l as [|p l IH]; intros [|p' l'] E; try done.
    injection E as Ep El. 
    destruct (decide (onSale p = true)) as [H|H].
    - rewrite !filter_cons_True by (by rewrite ?Ep). simpl. by rewrite (IH l').
    - rewrite !filter_cons_False by (by rewrite ?Ep). by apply IH. }
  specialize (Hstock _ _ Hst). specialize (Hsales _ _ Hsale).
  rewrite Hstock, Hsales.
  destruct (stock_alerts (trackedProducts (storage s))) as [|a la],
           (stock_alerts (trackedProducts (storage s'))) as [|a' la']; try done;
  destruct (sale_alerts (trackedProducts (storage s))) as [|b lb],
           (sale_alerts (trackedProducts (storage s'))) as [|b' lb']; done.
Qed.

Lemma checkAllProducts_items s :
  Forall2 (checked_item env (trackedProducts (storage s)))
          (trackedProducts (storage s))
          (trackedProducts (storage (checkAllProducts env s).2)).
Proof.
  destruct (checkAllProducts_end env s) as (-> & _).
  by apply check_loop_items.
Qed.

Lemma checkAllProducts_badge s :
  badge_shows s → badge_shows (checkAllProducts env s).2.
Proof.
  intros Hs. unfold checkAllProducts, mbind, M_bind, gets. simpl.
  case_bool_decide; [done|]. simpl.
  pose proof (check_loop_ok env (trackedProducts (storage s)) (fresh_locals s)) as Hok.
  destruct (check_loop env _ _) as [r sl]. simpl in Hok. subst r. simpl.
  destruct (0 <? length (pendingNotifications sl))%nat; simpl; apply updateBadge_shows.
Qed.

Lemma tracking_key_checked l p p' :
  checked_item env l p p' → tracking_key p' = tracking_key p.
Proof. by intros [->|(nd & mt & t & c & _ & ->)]. Qed.

Lemma checkAllProducts_keys s :
  tracking_key <$> trackedProducts (storage (checkAllProducts env s).2)
  = tracking_key <$> trackedProducts (storage s).
Proof.
  pose proof (checkAllProducts_items s) as H.
  induction H as [|p p' l l' Hp _ IH]; [done|].
  rewrite !fmap_cons, IH. f_equal. by eapply tracking_key_checked.
Qed.

(** The product [addProduct] stores for [product] when it runs from [s]:
    the baseline request is made at the instant after [addedAt] is read. *)
Lemma addProduct_eq product s :
  addProduct env product s
  = if existsb (already_tracked product) (trackedProducts (storage s))
    then (Ok (success_false (Some "Already tracking this product.")), s)
    else
      let np := new_product product (Date_now env (clock s)) in
      let page := response_page (fetch env (S (clock s)) (url product)) in
      (Ok success_true,
       set_storage
         {| trackedProducts :=
              trackedProducts (storage s)
              ++ [match page with
                  | Some pg => with_baseline np (parseProductHtml pg np)
                                 (Date_now env (S (S (clock s))))
                  | None => np
                  end];
            notificationMap := notificationMap (storage s) |}
         (set_clock (match page with
                     | Some _ => S (S (S (clock s)))
                     | None => S (S (clock s))
                     end)
            (set_requests
               (requests s ++ [request_of by_fetchProductStatus (url product) page]) s))).
Proof.
  unfold addProduct, mbind, M_bind, gets. simpl.
  destruct (existsb _ _); [done|]. simpl.
  destruct (response_page (fetch env (S (clock s)) (url product))) as [pg|];
    simpl; done.
Qed.

Lemma already_tracked_key product p :
  already_tracked product p = true ↔ tracking_key p = tracking_key product.
Proof.
  unfold already_tracked, tracking_key.
  rewrite !andb_true_iff, !bool_decide_eq_true. split.
  - by intros [[-> ->] ->].
  - by intros [= -> -> ->].
Qed.

Lemma already_tracked_none product l :
  existsb (already_tracked product) l = false
  ↔ Forall (λ p, tracking_key p ≠ tracking_key product) l.
Proof.
  induction l as [|p l IH]; simpl; [by split; [constructor|]|].
  rewrite orb_false_iff, IH, Forall_cons, <- not_true_iff_false, already_tracked_key.
  done.
Qed.

(** X21. [addProduct] refuses a product whose [productId], color and size
    are those of a tracked product: it answers with the reason, makes no
    request and writes nothing. *)
Theorem addProduct_rejects_duplicate product s p :
  p ∈ trackedProducts (storage s) →
  productId p = productId product → color p = color product → size p = size product →
  addProduct env product s
  = (Ok (success_false (Some "Already tracking this product.")), s).
Proof.
  intros Hin Hid Hcolor Hsize. rewrite addProduct_eq.
  destruct (existsb _ _) eqn:Hex; [done|].
  apply already_tracked_none in Hex. rewrite Forall_forall in Hex.
  destruct (Hex p Hin). unfold tracking_key. congruence.
Qed.

(** X22. [addProduct] on a product that is not tracked yet appends one
    product to the stored list: the product it was given, with new-color
    tracking switched on, no change marker and the time of the call as
    [addedAt], whatever the message said.  It issues exactly one request,
    for the page of the product, and shows no notification. *)
Theorem addProduct_appends product s :
  Forall (λ p, tracking_key p ≠ tracking_key product) (trackedProducts (storage s)) →
  (addProduct env product s).1 = Ok success_true
  ∧ ∃ p',
      trackedProducts (storage (addProduct env product s).2)
      = trackedProducts (storage s) ++ [p']
      ∧ productId p' = productId product ∧ color p' = color product
      ∧ size p' = size product ∧ name p' = name product
      ∧ productLine p' = productLine product ∧ url p' = url product
      ∧ region p' = region product ∧ image p' = image product
      ∧ markdownUrl p' = markdownUrl product
      ∧ trackNewColors p' = true
      ∧ lastChange p' = None
      ∧ addedAt p' = Date_now env (clock s)
      ∧ requests (addProduct env product s).2
        = requests s ++ [request_of by_fetchProductStatus (url product)
                           (response_page (fetch env (S (clock s)) (url product)))]
      ∧ notifications (addProduct env product s).2 = notifications s
      ∧ notificationMap (storage (addProduct env product s).2)
        = notificationMap (storage s).
Proof.
  intros Hnew%already_tracked_none. rewrite addProduct_eq, Hnew. simpl.
  split; [done|]. eexists. split; [done|].
  by destruct (response_page _).
Qed.

(** The diff of a product just given its baseline, against the snapshot
    the baseline was taken from, is empty. *)
Lemma detectChanges_baseline p nd t :
  detectChanges (with_baseline p nd t) nd = [].
Proof.
  unfold detectChanges. simpl.
  rewrite bool_decide_eq_false_2 by (intros H; by apply H). simpl.
  assert (match match snap_currentPrice nd with
                | Some v => Some v
                | None => currentPrice p
                end, snap_currentPrice nd with
          | Some old, Some new =>
              if number_truthy old && number_truthy new && negb (number_eq old new)
              then [price_change old new] else []
          | _, _ => []
          end = []) as ->.
  { destruct (snap_currentPrice nd) as [n|]; [|by destruct (currentPrice p)].
    destruct (number_truthy n) eqn:Hn; [|done]. by rewrite number_eq_refl. }
  assert ((if negb (snap_onSale nd) && snap_onSale nd then [went_on_sale] else [])
          = []) as -> by (by destruct (snap_onSale nd)).
  simpl. destruct (trackNewColors p); [|done].
  destruct (snap_availableColors nd) as [|c0 l] eqn:Hl; simpl.
  - by destruct (availableColors p).
  - rewrite filter_all_out; [done|]. apply Forall_forall.
    intros x Hx Hnot. apply Hnot.
    change (c_code x ∈ c_code <$> (c0 :: l)). apply list_elem_of_fmap. by exists x.
Qed.

(** X23. The baseline of [addProduct].  When the baseline request is
    answered with a document, the product that is stored shows no change
    against the snapshot of that document: the next check of an unchanged
    page detects nothing for it, and no color the page lists is taken for
    a new one. *)
Theorem addProduct_baseline product s page :
  Forall (λ p, tracking_key p ≠ tracking_key product) (trackedProducts (storage s)) →
  response_page (fetch env (S (clock s)) (url product)) = Some page →
  ∃ p', trackedProducts (storage (addProduct env product s).2)
        = trackedProducts (storage s) ++ [p']
        ∧ stockStatus p' = snap_stockStatus (parseProductHtml page p')
        ∧ onSale p' = snap_onSale (parseProductHtml page p')
        ∧ detectChanges p' (parseProductHtml page p') = [].
Proof.
  intros Hnew%already_tracked_none Hpage. rewrite addProduct_eq, Hnew, Hpage.
  set (np := new_product product (Date_now env (clock s))).
  set (nd := parseProductHtml page np).
  exists (with_baseline np nd (Date_now env (S (S (clock s))))).
  rewrite (parseProductHtml_ext page np (with_baseline np nd _)) by done. fold nd.
  split; [done|]. split; [done|]. split; [done|].
  apply detectChanges_baseline.
Qed.

(** X24. [removeProduct] checks its index against the bounds of the stored
    list.  Within them it removes the product at that position and no
    other: the products before keep their position, the products after
    move up by one.  Outside of them it answers failure and writes
    nothing. *)
Theorem removeProduct_bounds index s :
  let l := trackedProducts (storage s) in
  let l' := trackedProducts (storage (removeProduct index s).2) in
  if decide (0 ≤ index < Z.of_nat (length l))%Z then
    (removeProduct index s).1 = Ok success_true
    ∧ S (length l') = length l
    ∧ (∀ j, (j < Z.to_nat index)%nat → l' !! j = l !! j)
    ∧ (∀ j, (Z.to_nat index ≤ j)%nat → l' !! j = l !! S j)
    ∧ notificationMap (storage (removeProduct index s).2) = notificationMap (storage s)
  else removeProduct index s = (Ok (success_false None), s).
Proof.
  intros l l'. subst l'. unfold removeProduct, mbind, M_bind, gets. simpl. fold l.
  destruct (decide _) as [[H0 Hlt]|Hout].
  - rewrite !bool_decide_eq_true_2 by done. simpl.
    split; [done|]. split.
    { rewrite length_delete; [|apply lookup_lt_is_Some; lia].
      assert (0 < length l)%nat by lia. lia. }
    split; [intros j Hj; by apply list_lookup_delete_lt|].
    split; [intros j Hj; by apply list_lookup_delete_ge|done].
  - destruct (bool_decide (0 ≤ index)%Z) eqn:H0; simpl; [|done].
    apply bool_decide_eq_true in H0.
    rewrite bool_decide_eq_false_2; [done|lia].
Qed.

(** X25. Removing the product that [addProduct] has just appended gives
    back the storage as it was. *)
Theorem add_then_remove product s :
  Forall (λ p, tracking_key p ≠ tracking_key product) (trackedProducts (storage s)) →
  let s1 := (addProduct env product s).2 in
  let index := Z.of_nat (length (trackedProducts (storage s))) in
  (removeProduct index s1).1 = Ok success_true
  ∧ storage (removeProduct index s1).2 = storage s.
Proof.
  intros Hnew%already_tracked_none s1 index. subst s1 index.
  rewrite addProduct_eq, Hnew. simpl.
  unfold removeProduct, mbind, M_bind, gets. simpl.
  rewrite length_app. simpl.
  rewrite !bool_decide_eq_true_2 by lia. simpl. split; [done|].
  rewrite Nat2Z.id.
  assert (∀ (l : list Product) x, delete (length l) (l ++ [x]) = l) as ->.
  { intros l x. induction l as [|y l IH]; [done|]. simpl. by rewrite IH. }
  by destruct (storage s).
Qed.

(** X26. [clearChangeMarkers] resets the change marker of every stored
    product and nothing else in the list; the alerts that the badge counts
    are the same before and after, so the badge it then sets is the one
    [updateBadge] sets on the list as it was: clearing the markers does
    not lower the count.  Clearing twice is clearing once. *)
Theorem clearChangeMarkers_keeps_alerts s :
  let s' := (clearChangeMarkers s).2 in
  trackedProducts (storage s') = clear_lastChange <$> trackedProducts (storage s)
  ∧ Forall (λ p, lastChange p = None) (trackedProducts (storage s'))
  ∧ badgeText s' = badgeText (updateBadge s).2
  ∧ badgeBackgroundColor s' = badgeBackgroundColor (updateBadge s).2
  ∧ (clearChangeMarkers s').2 = s'.
Proof.
  intros s'. subst s'.
  assert (∀ l : list Product,
            filter (λ p, stockStatus p = "low_stock" ∨ stockStatus p = "sold_out")
                   (clear_lastChange <$> l)
            = clear_lastChange
                <$> filter (λ p, stockStatus p = "low_stock" ∨ stockStatus p = "sold_out") l)
    as Hstock.
  { induction l as [|p l IH]; [done|]. rewrite fmap_cons.
    destruct (decide (stockStatus p = "low_stock" ∨ stockStatus p = "sold_out")).
    - rewrite !filter_cons_True by done. by rewrite fmap_cons, IH.
    - by rewrite !filter_cons_False by done. }
  assert (∀ l : list Product,
            filter (λ p, onSale p = true) (clear_lastChange <$> l)
            = clear_lastChange <$> filter (λ p, onSale p = true) l) as Hsale.
  { induction l as [|p l IH]; [done|]. rewrite fmap_cons.
    destruct (decide (onSale p = true)).
    - rewrite !filter_cons_True by done. by rewrite fmap_cons, IH.
    - by rewrite !filter_cons_False by done. }
  assert (∀ l : list Product, clear_lastChange <$> (clear_lastChange <$> l)
                              = clear_lastChange <$> l) as Hidem.
  { intros l. rewrite <- list_fmap_compose. by apply list_fmap_ext. }
  assert (∀ s0, clearChangeMarkers s0
                = updateBadge
                    (set_storage
                       {| trackedProducts := clear_lastChange <$> trackedProducts (storage s0);
                          notificationMap := notificationMap (storage s0) |} s0)) as Heq.
  { intros s0. unfold clearChangeMarkers, mbind, M_bind, gets, store_tracked, modify. done. }
  rewrite !Heq.
  set (s1 := set_storage _ s).
  assert ((updateBadge s1).2
          = set_badge (badgeText (updateBadge s).2) (badgeBackgroundColor (updateBadge s).2) s1)
    as Hbadge.
  { unfold updateBadge, mbind, M_bind, gets, modify. subst s1. simpl.
    rewrite Hstock, Hsale, !length_fmap. by repeat case_match. }
  split; [by rewrite updateBadge_storage|].
  split.
  { rewrite updateBadge_storage. subst s1. simpl. apply Forall_fmap. by apply Forall_true. }
  split; [by rewrite Hbadge|]. split; [by rewrite Hbadge|].
  rewrite updateBadge_storage. rewrite Hbadge. subst s1. simpl. rewrite Hidem.
  unfold updateBadge, mbind, M_bind, gets, modify. simpl.
  rewrite Hstock, Hsale, !length_fmap.
  apply state_ext; state_simpl; try done; by repeat case_match.
Qed.

(** *** What holds after every event *)

Lemma onMessage_state message s :
  (onMessage env message s).2
  = match message with
    | msg_addProduct product => (updateBadge (addProduct env product s).2).2
    | msg_removeProduct index => (updateBadge (removeProduct index s).2).2
    | msg_checkNow => (checkAllProducts env s).2
    | msg_clearChangeBadge => (clearChangeMarkers s).2
    | msg_getProducts | msg_productPageChanged | msg_other => s
    end.
Proof.
  destruct message as [product|index| | | | |]; try done;
    unfold onMessage, mbind, M_bind.
  - rewrite addProduct_eq. destruct (existsb _ _); simpl;
      pose proof (updateBadge_ok s) as H;
      [destruct (updateBadge s) as [[[]|] ?]; by simpl in *|].
    match goal with |- context [updateBadge ?x] =>
      pose proof (updateBadge_ok x) as H'; by destruct (updateBadge x) as [[[]|] ?] end.
  - unfold removeProduct, mbind, M_bind, gets, store_tracked, modify. simpl.
    destruct (_ && _); simpl;
      match goal with |- context [updateBadge ?x] =>
        pose proof (updateBadge_ok x) as H'; by destruct (updateBadge x) as [[[]|] ?] end.
  - pose proof (checkAllProducts_ok env s) as H.
    by destruct (checkAllProducts env s) as [[[]|] ?].
  - assert ((clearChangeMarkers s).1 = Ok tt) as H.
    { unfold clearChangeMarkers, mbind, M_bind, gets, store_tracked, modify. simpl.
      apply updateBadge_ok. }
    by destruct (clearChangeMarkers s) as [[[]|] ?].
Qed.

Lemma removeProduct_tracked index s :
  trackedProducts (storage (removeProduct index s).2)
  = if bool_decide (0 ≤ index)%Z
       && bool_decide (index < Z.of_nat (length (trackedProducts (storage s))))%Z
    then delete (Z.to_nat index) (trackedProducts (storage s))
    else trackedProducts (storage s).
Proof.
  unfold removeProduct, mbind, M_bind, gets, store_tracked, modify. simpl.
  by destruct (_ && _).
Qed.

Lemma removeProduct_frame index s :
  badgeText (removeProduct index s).2 = badgeText s
  ∧ badgeBackgroundColor (removeProduct index s).2 = badgeBackgroundColor s.
Proof.
  unfold removeProduct, mbind, M_bind, gets, store_tracked, modify. simpl.
  by destruct (_ && _).
Qed.

Lemma onClicked_frame notifId s :
  trackedProducts (storage (onClicked notifId s).2) = trackedProducts (storage s)
  ∧ badgeText (onClicked notifId s).2 = badgeText s
  ∧ badgeBackgroundColor (onClicked notifId s).2 = badgeBackgroundColor s.
Proof.
  unfold onClicked, mbind, M_bind, gets, store_notificationMap, modify. simpl.
  destruct (notificationMap (storage s) !! notifId) as [u|]; [|done].
  by destruct (string_truthy u).
Qed.

Lemma toggleNewColors_state idx checked s :
  (toggleNewColors idx checked s).2
  = match trackedProducts (storage s) !! idx with
    | Some p =>
        set_storage
          {| trackedProducts :=
               <[idx := with_trackNewColors checked p]> (trackedProducts (storage s));
             notificationMap := notificationMap (storage s) |} s
    | None => s
    end.
Proof.
  unfold toggleNewColors, mbind, M_bind, gets, store_tracked, modify. simpl.
  by destruct (trackedProducts (storage s) !! idx).
Qed.

Lemma fmap_insert_same {A} (f : Product → A) (l : list Product) i p p' :
  l !! i = Some p → f p' = f p → f <$> <[i := p']> l = f <$> l.
Proof.
  intros Hi Hf. rewrite list_fmap_insert, Hf.
  apply list_insert_id. by rewrite list_lookup_fmap, Hi.
Qed.

Lemma handle_keys e s :
  keys_unique (trackedProducts (storage s)) →
  keys_unique (trackedProducts (storage (handle env e s))).
Proof.
  unfold keys_unique. intros Hs.
  destruct e as [alarm_name|message|notifId|idx checked]; simpl.
  - unfold onAlarm. case_bool_decide; [|done]. by rewrite checkAllProducts_keys.
  - rewrite onMessage_state.
    destruct message as [product|index| | | | |]; try done.
    + rewrite updateBadge_storage, addProduct_eq.
      destruct (existsb _ _) eqn:Hex; [done|]. simpl.
      rewrite fmap_app. apply NoDup_app. split; [done|].
      split; [|apply NoDup_singleton].
      intros k Hk Hk'. apply already_tracked_none in Hex.
      apply list_elem_of_fmap in Hk as (p & -> & Hp).
      rewrite Forall_forall in Hex. apply (Hex p Hp).
      apply list_elem_of_singleton in Hk'. rewrite Hk'. by destruct (response_page _).
    + rewrite updateBadge_storage, removeProduct_tracked. case_match; [|done].
      rewrite list_fmap_delete. eapply sublist_NoDup; [exact Hs|]. apply sublist_delete.
    + by rewrite checkAllProducts_keys.
    + unfold clearChangeMarkers, mbind, M_bind, gets, store_tracked, modify. simpl.
      rewrite updateBadge_storage. simpl. by rewrite <- list_fmap_compose.
  - by destruct (onClicked_frame notifId s) as (-> & _).
  - rewrite toggleNewColors_state.
    destruct (trackedProducts (storage s) !! idx) as [p|] eqn:Hp; [|done]. simpl.
    by rewrite (fmap_insert_same tracking_key _ _ p).
Qed.

Lemma handle_badge e s : badge_shows s → badge_shows (handle env e s).
Proof.
  intros Hs.
  destruct e as [alarm_name|message|notifId|idx checked]; simpl.
  - unfold onAlarm. case_bool_decide; [|done]. by apply checkAllProducts_badge.
  - rewrite onMessage_state.
    destruct message as [product|index| | | | |]; try done;
      try apply updateBadge_shows.
    by apply checkAllProducts_badge.
  - destruct (onClicked_frame notifId s) as (Hl & Ht & Hc).
    eapply badge_shows_ext; [| | | |exact Hs]; by rewrite ?Hl.
  - rewrite toggleNewColors_state.
    destruct (trackedProducts (storage s) !! idx) as [p|] eqn:Hp; [|done].
    eapply badge_shows_ext; [| | | |exact Hs]; simpl; try done;
      by rewrite (fmap_insert_same _ _ _ p).
Qed.

(** X27. No sequence of events (alarms, messages, clicks on notifications,
    toggles of the popup) makes the stored list hold two products with the
    same [productId], color and size, if it did not hold two before. *)
Theorem keys_stay_unique events s :
  keys_unique (trackedProducts (storage s)) →
  keys_unique (trackedProducts (storage (handle_all env events s))).
Proof.
  revert s. induction events as [|e events IH]; intros s Hs; [done|].
  simpl. by apply IH, handle_keys.
Qed.

(** X28. The badge follows the stored list: when it shows the alerts of
    the stored list before a sequence of events, it shows the alerts of
    the stored list after it.  Every handler that changes a status, a sale
    flag or the list itself ends with [updateBadge]. *)
Theorem badge_stays_right events s :
  badge_shows s → badge_shows (handle_all env events s).
Proof.
  revert s. induction events as [|e events IH]; intros s Hs; [done|].
  simpl. by apply IH, handle_badge.
Qed.

(** X29. A click on a notification whose identifier is mapped to a URL
    opens that URL in a tab and forgets the identifier: a second click on
    the same notification opens nothing and writes nothing.  The other
    identifiers and the tracked products are left as they are. *)
Theorem click_opens_once notifId s u :
  notificationMap (storage s) !! notifId = Some u → u ≠ "" →
  let s' := (onClicked notifId s).2 in
  (onClicked notifId s).1 = Ok [tabs_create u; notifications_clear notifId]
  ∧ onClicked notifId s' = (Ok [notifications_clear notifId], s')
  ∧ (∀ other, other ≠ notifId →
       notificationMap (storage s') !! other = notificationMap (storage s) !! other)
  ∧ trackedProducts (storage s') = trackedProducts (storage s).
Proof.
  intros Hu Hne s'. subst s'.
  unfold onClicked, mbind, M_bind, gets, store_notificationMap, modify. simpl.
  rewrite Hu. unfold string_truthy. rewrite bool_decide_eq_false_2 by done. simpl.
  rewrite lookup_delete_eq. split; [done|]. split; [done|]. split; [|done].
  intros other Hother. by rewrite lookup_delete_ne.
Qed.

End HandlerFacts.

(** ** The properties on the scenarios *)

Section Instances.
Import Scenario.
Existing Instance decimal.

(** Black has moved to the clearance page at 40 (was 60): one
    [moved_to_markdown] notification, the product stored as in stock with
    the clearance URL. *)
Lemma markdown_resolution_witness :
  ∃ ns p',
    notifications (loop_state env_markdown (tracking [black_M]) ([] ++ [black_M]))
    = notifications (loop_state env_markdown (tracking [black_M]) []) ++ ns
    ∧ Forall (λ n, n_product n = black_M) ns
    ∧ notified_of t_moved_to_markdown ns
      = [moved_to_markdown (Some (Num (Q2Qc 40))) (Some (Num (Q2Qc 60)))]
    ∧ notified_of t_status_change ns = []
    ∧ trackedProducts (storage (cycle env_markdown (tracking [black_M])).2) !! 0%nat
      = Some p'
    ∧ stockStatus p' = "in_stock"
    ∧ markdownUrl p'
      = Some "https://shop.lululemon.com/p/men-ss-tops/Metal-Vent-Tech-Short-Sleeve-Shirt-3-MD/_/prod11720682?color=74134&sz=M".
Proof.
  apply (markdown_resolution env_markdown (tracking [black_M]) [] black_M []
           (parseProductHtml page_without_black black_M) "74134" md_page
           [None; Some md_query] md_query md_summary [black] md_sku md_price);
    try (vm_compute; reflexivity); try done.
  - vm_compute. intros [H|H]%elem_of_cons; [done|by apply elem_of_nil in H].
  - vm_compute. by left.
Defined.

(** C2 is broken by the code: the content served never changes, and the
    second run announces the markdown transition of Black again.  The
    first run stores the product as in stock, with the clearance URL and
    the mark of the transition, but on the URL of the normal page; no
    code reads the clearance URL, so the second run finds the color
    missing from the normal page again and resolves the same
    transition. *)
Lemma second_run_repeats_markdown :
  (∀ t t' u, fetch env_markdown t u = fetch env_markdown t' u)
  ∧ (cycle env_markdown (tracking [black_M])).1 = Ok tt
  ∧ n_change <$> notifications (cycle env_markdown (tracking [black_M])).2
    = [moved_to_markdown (Some (Num (Q2Qc 40))) (Some (Num (Q2Qc 60)))]
  ∧ (∃ p', trackedProducts (storage (cycle env_markdown (tracking [black_M])).2)
           = [p']
           ∧ url p' = url black_M
           ∧ stockStatus p' = "in_stock"
           ∧ is_Some (markdownUrl p')
           ∧ (∃ ts, lastChange p' = Some (t_moved_to_markdown, ts)))
  ∧ n_change <$> notifications
                   (cycle env_markdown
                      (storage (cycle env_markdown (tracking [black_M])).2)).2
    = [moved_to_markdown (Some (Num (Q2Qc 40))) (Some (Num (Q2Qc 60)))].
Proof.
  split; [done|]. split; [vm_compute; reflexivity|].
  split; [vm_compute; reflexivity|].
  split; [|vm_compute; reflexivity].
  eexists. split; [vm_compute; reflexivity|].
  repeat split; try (vm_compute; reflexivity).
  - vm_compute. by eexists.
  - eexists. vm_compute. reflexivity.
Qed.

(** Black is sold out: the first run says so, the second run is silent. *)
Lemma second_run_is_silent_witness :
  n_change <$> notifications (cycle (env_sold_out true) (tracking [black_M])).2
  = [status_change "in_stock" "sold_out"]
  ∧ ∃ pre' p' post',
      trackedProducts (storage (cycle (env_sold_out true) (tracking [black_M])).2)
      = pre' ++ p' :: post'
      ∧ length pre' = 0%nat
      ∧ notifications
          (loop_state (env_sold_out true)
             (storage (cycle (env_sold_out true) (tracking [black_M])).2) (pre' ++ [p']))
        = notifications
            (loop_state (env_sold_out true)
               (storage (cycle (env_sold_out true) (tracking [black_M])).2) pre')
      ∧ console_errors
          (loop_state (env_sold_out true)
             (storage (cycle (env_sold_out true) (tracking [black_M])).2) (pre' ++ [p']))
        = console_errors
            (loop_state (env_sold_out true)
               (storage (cycle (env_sold_out true) (tracking [black_M])).2) pre').
Proof.
  split; [vm_compute; reflexivity|].
  apply (second_run_is_silent (env_sold_out true) (env_sold_out true)
           (λ _ _ _, eq_refl) (tracking [black_M]) [] black_M []).
  - reflexivity.
  - vm_compute. reflexivity.
  - vm_compute. reflexivity.
Defined.

(** C3 is broken by the code: with an empty stored color list, every color of
    the fresh snapshot is reported as new. *)
Theorem empty_color_list_reports_every_color :
  availableColors (shirt black (Some [])) = Some []
  ∧ detectChanges (shirt black (Some [])) two_colors
    = [new_color "Black"; new_color "White"].
Proof. split; reflexivity. Qed.

(** Black M and White M share a productId and a page on which Solar Grey
    has appeared; the jogger is another product: one notification. *)
Lemma new_color_notified_once_witness :
  length (new_color_notifications (productId black_M)
            (notifications (cycle env_new_color (tracking [black_M; pant; white_M])).2))
  = 1%nat.
Proof.
  apply (new_color_notified_once env_new_color (tracking [black_M; pant; white_M])
           [] black_M [pant] white_M []
           (parseProductHtml page_with_new_color black_M)
           (parseProductHtml page_with_new_color black_M));
    try (vm_compute; reflexivity); try done.
  repeat constructor. done.
Defined.

(** C5 fails on the code: the request for Black M fails, and White M, on
    the same page, is fetched as well. *)
Lemma failed_fetch_is_repeated :
  baseUrl (url black_M) = baseUrl (url white_M)
  ∧ req_url <$> filter (λ r, req_caller r = by_fetchProductStatus)
                       (requests (cycle env_first_fails
                                    (tracking [black_M; white_M])).2)
    = [url black_M; url white_M].
Proof. split; vm_compute; reflexivity. Qed.

(** The shirt and the jogger are on two pages: two successful requests,
    for two page keys. *)
Lemma no_fetch_after_success_witness :
  requests (cycle env_two_pages (tracking [white_M; pant])).2 !! 0%nat
  = Some (request_of by_fetchProductStatus (url white_M) (Some page_black_sold_out))
  ∧ requests (cycle env_two_pages (tracking [white_M; pant])).2 !! 1%nat
    = Some (request_of by_fetchProductStatus (url pant) (Some page_black_sold_out))
  ∧ baseUrl (url white_M) ≠ baseUrl (url pant).
Proof.
  assert (requests (cycle env_two_pages (tracking [white_M; pant])).2 !! 0%nat
          = Some (request_of by_fetchProductStatus (url white_M)
                             (Some page_black_sold_out))) as H0
    by (vm_compute; reflexivity).
  assert (requests (cycle env_two_pages (tracking [white_M; pant])).2 !! 1%nat
          = Some (request_of by_fetchProductStatus (url pant)
                             (Some page_black_sold_out))) as H1
    by (vm_compute; reflexivity).
  split; [exact H0|]. split; [exact H1|].
  apply (no_fetch_after_success env_two_pages (tracking [white_M; pant]) 0 1 _ _ H0 H1);
    [lia|reflexivity..].
Defined.


(** The request for Black M is answered by an HTTP error: Black M is kept
    as it was, and White M, which follows, is fetched, notified and
    stored with the colors of its snapshot.  In another run the
    notification of the sold-out status of Black M is rejected: the stored
    product is the one that was tracked. *)
Lemma failure_is_isolated_witness :
  ((cycle env_first_fails (tracking [black_M; white_M])).1 = Ok tt
   ∧ trackedProducts (storage (cycle env_first_fails (tracking [black_M; white_M])).2)
     !! 0%nat = Some black_M
   ∧ ∃ q', trackedProducts
             (storage (cycle env_first_fails (tracking [black_M; white_M])).2) !! 1%nat
           = Some q'
           ∧ availableColors q' = Some [black; white; solar]
           ∧ processed env_first_fails white_M
               (loop_state env_first_fails (tracking [black_M; white_M]) [black_M])
               (loop_state env_first_fails (tracking [black_M; white_M])
                  [black_M; white_M]) q')
  ∧ ((check_product (env_sold_out false) black_M
        (loop_state (env_sold_out false) (tracking [black_M]) [])).1 = Thrown
     ∧ (cycle (env_sold_out false) (tracking [black_M])).1 = Ok tt
     ∧ trackedProducts (storage (cycle (env_sold_out false) (tracking [black_M])).2)
       !! 0%nat = Some black_M).
Proof.
  split.
  - destruct (failure_is_isolated env_first_fails (tracking [black_M; white_M])
                [] black_M [white_M] eq_refl) as (Hok & Hkept & _ & Hrest).
    { left. split; [vm_compute; reflexivity|].
      right. by exists 503%Z, page_with_new_color. }
    split; [exact Hok|]. split; [exact Hkept|].
    destruct (Hrest [] white_M [] eq_refl) as (q' & Hq' & Hdone).
    exists q'. split; [exact Hq'|]. split; [|exact Hdone].
    vm_compute in Hq'. injection Hq' as <-. reflexivity.
  - assert ((check_product (env_sold_out false) black_M
               (loop_state (env_sold_out false) (tracking [black_M]) [])).1 = Thrown)
      as Hthrown by (vm_compute; reflexivity).
    split; [exact Hthrown|].
    destruct (failure_is_isolated (env_sold_out false) (tracking [black_M])
                [] black_M [] eq_refl (or_intror Hthrown)) as (Hok & Hkept & _).
    by split.
Defined.

(** C9 is broken by the code: one product that is both sold out and on sale
    is counted twice on the badge. *)
Theorem badge_counts_product_twice :
  length (filter (λ p, stockStatus p = "low_stock" ∨ stockStatus p = "sold_out"
                       ∨ onSale p = true) [sold_out_on_sale]) = 1%nat
  ∧ badgeText (updateBadge (initial (tracking [sold_out_on_sale]))).2 = "2".
Proof. split; vm_compute; reflexivity. Qed.

End Instances.

(** ** More instances *)

Section MoreInstances.
Import Scenario.
Existing Instance decimal.

Lemma price_title_tells_direction_witness :
  ∃ a b, Num (Q2Qc 78) = Num a ∧ Num (Q2Qc 68) = Num b
         ∧ ((b < a)%Qc
            ∧ notification_title (price_change (Num (Q2Qc 78)) (Num (Q2Qc 68)))
              = "📉 Price Drop!"
            ∨ (a < b)%Qc
              ∧ notification_title (price_change (Num (Q2Qc 78)) (Num (Q2Qc 68)))
                = "📈 Price Increased").
Proof.
  apply (price_title_tells_direction black_M cheaper).
  apply (list_elem_of_lookup_2 _ 0%nat). vm_compute. reflexivity.
Defined.

Lemma addProduct_rejects_duplicate_witness :
  addProduct (env_sold_out true) black_M (initial (tracking [white_M; black_M]))
  = (Ok (success_false (Some "Already tracking this product.")),
     initial (tracking [white_M; black_M])).
Proof.
  apply (addProduct_rejects_duplicate (env_sold_out true) black_M _ black_M);
    [|reflexivity..].
  apply (list_elem_of_lookup_2 _ 1%nat). reflexivity.
Defined.

Lemma addProduct_appends_witness :
  (addProduct (env_sold_out true) white_M (initial (tracking [black_M]))).1
  = Ok success_true
  ∧ length (trackedProducts
              (storage (addProduct (env_sold_out true) white_M
                          (initial (tracking [black_M]))).2)) = 2%nat.
Proof.
  destruct (addProduct_appends (env_sold_out true) white_M (initial (tracking [black_M])))
    as (Hok & p' & -> & _).
  - repeat constructor. by vm_compute.
  - split; [exact Hok|]. reflexivity.
Defined.

Lemma addProduct_baseline_witness :
  ∃ p', trackedProducts
          (storage (addProduct (env_sold_out true) black_M (initial (tracking []))).2)
        = [p']
        ∧ stockStatus p' = "sold_out"
        ∧ detectChanges p' (parseProductHtml page_black_sold_out p') = [].
Proof.
  destruct (addProduct_baseline (env_sold_out true) black_M (initial (tracking []))
              page_black_sold_out)
    as (p' & Hl & Hs & _ & Hd); [constructor|reflexivity|].
  exists p'. split; [exact Hl|]. split; [|exact Hd].
  rewrite Hs. vm_compute in Hl. injection Hl as <-. vm_compute. reflexivity.
Defined.

Lemma add_then_remove_witness :
  storage (removeProduct 1 (addProduct (env_sold_out true) white_M
                              (initial (tracking [black_M]))).2).2
  = tracking [black_M].
Proof.
  apply (add_then_remove (env_sold_out true) white_M (initial (tracking [black_M]))).
  repeat constructor. by vm_compute.
Defined.

Lemma keys_stay_unique_witness :
  keys_unique
    (trackedProducts
       (storage (handle_all (env_sold_out true)
                   [message_received (msg_addProduct white_M);
                    message_received (msg_addProduct white_M);
                    alarm_fired ALARM_NAME;
                    new_colors_toggled 0 false;
                    message_received (msg_removeProduct 0)]
                   (initial (tracking [black_M]))))).
Proof.
  apply (keys_stay_unique (env_sold_out true)). apply NoDup_singleton.
Defined.

Lemma badge_stays_right_witness :
  badge_shows
    (handle_all (env_sold_out true)
       [message_received (msg_addProduct black_M);
        alarm_fired ALARM_NAME;
        notification_clicked "lulu-1";
        message_received msg_clearChangeBadge]
       (initial (tracking []))).
Proof.
  apply (badge_stays_right (env_sold_out true)). vm_compute. reflexivity.
Defined.

Lemma click_opens_once_witness :
  (onClicked "lulu-0" (initial one_notification)).1
  = Ok [tabs_create (shirt_url "74134"); notifications_clear "lulu-0"]
  ∧ (onClicked "lulu-0" (onClicked "lulu-0" (initial one_notification)).2).1
    = Ok [notifications_clear "lulu-0"].
Proof.
  destruct (click_opens_once "lulu-0" (initial one_notification) (shirt_url "74134"))
    as (Hfirst & Hsecond & _); [reflexivity|done|].
  split; [exact Hfirst|]. by rewrite Hsecond.
Defined.

Lemma click_opens_product_page_witness :
  ∃ u, (onClicked "lulu-1" (cycle (env_sold_out true) (tracking [black_M])).2).1
       = Ok [tabs_create u; notifications_clear "lulu-1"]
       ∧ u = shirt_url "74134".
Proof.
  destruct (click_opens_product_page (env_sold_out true) (tracking [black_M])
              {| n_id := "lulu-1"; n_product := black_M;
                 n_change := status_change "in_stock" "sold_out" |})
    as (u & Hclick & _ & [[_ Hu]|(t & nd & cs & mt & Hmt & Hchange & _)]).
  - vm_compute. apply NoDup_singleton.
  - apply (list_elem_of_lookup_2 _ 0%nat). vm_compute. reflexivity.
  - done.
  - exists u. split; [exact Hclick|exact Hu].
  - apply md_outcome_change in Hmt. rewrite <- Hchange in Hmt. done.
Defined.

Lemma change_marker_is_first_notification_witness :
  ∃ p' ns,
    trackedProducts (storage (cycle (env_sold_out true) (tracking [black_M])).2) !! 0%nat
    = Some p'
    ∧ notifications (loop_state (env_sold_out true) (tracking [black_M]) ([] ++ [black_M]))
      = notifications (loop_state (env_sold_out true) (tracking [black_M]) []) ++ ns
    ∧ match ns with
      | [] => lastChange p' = lastChange black_M
      | n :: _ => ∃ ts, lastChange p' = Some (change_type (n_change n), ts)
      end.
Proof.
  apply (change_marker_is_first_notification (env_sold_out true) (tracking [black_M])
           [] black_M []).
  - reflexivity.
  - vm_compute. reflexivity.
Defined.

Lemma cached_snapshot_is_shared_witness :
  snapshot_at (env_sold_out true)
    (loop_state (env_sold_out true) (tracking [black_M; white_M]) ([] ++ black_M :: []))
    white_M
  = Some (parseProductHtml page_black_sold_out black_M).
Proof.
  apply (cached_snapshot_is_shared (env_sold_out true) (tracking [black_M; white_M])
           [] black_M [] white_M []).
  - reflexivity.
  - vm_compute. reflexivity.
  - vm_compute. reflexivity.
  - vm_compute. reflexivity.
Defined.

Lemma sale_prices_are_ordered_witness :
  ∃ sale list,
    snap_currentPrice (parseProductHtml md_page black_M) = Some sale
    ∧ snap_originalPrice (parseProductHtml md_page black_M) = Some list
    ∧ number_lt sale list = true.
Proof.
  apply (sale_prices_are_ordered md_page black_M); vm_compute; reflexivity.
Defined.

Lemma sold_out_wins_witness :
  snap_stockStatus (parseProductHtml page_without_black white_M) = "sold_out".
Proof.
  eapply (sold_out_wins page_without_black white_M).
  - reflexivity.
  - vm_compute. reflexivity.
  - left. eexists. split; reflexivity.
Defined.

Lemma low_stock_needs_banner_witness :
  includes (html page_low_stock) "pdp-inventory-low-stock-warning"
  || includes (toLowerCase (html page_low_stock)) "hurry, only a few left"
  || includes (toLowerCase (html page_low_stock)) "only a few left"
  || includes (toLowerCase (html page_low_stock)) "almost gone" = true.
Proof.
  apply (low_stock_needs_banner page_low_stock black_M). vm_compute. reflexivity.
Defined.

Lemma no_payload_no_sale_witness :
  snap_onSale (parseProductHtml sfcc_page black_M) = false
  ∧ snap_originalPrice (parseProductHtml sfcc_page black_M) = None.
Proof. apply (no_payload_no_sale sfcc_page black_M). reflexivity. Defined.

Lemma color_code_of_both_formats_witness :
  getColorCodeFromUrl (shirt_url "74134") = Some "74134"
  ∧ getColorCodeFromUrl
      "https://www.lululemon.com.hk/en-hk/p/shirt/prod11710026.html?dwvar_prod11710026_color=069299"
    = Some "069299".
Proof.
  split.
  - apply (proj1 (color_code_of_both_formats
                    "https://shop.lululemon.com"
                    "p/men-ss-tops/Metal-Vent-Tech-Short-Sleeve-Shirt-3/_/prod11710026"
                    "74134" ltac:(by left) eq_refl eq_refl) "&sz=M").
    right. by exists "sz=M".
  - apply (proj2 (color_code_of_both_formats
                    "https://www.lululemon.com.hk" "en-hk/p/shirt/prod11710026.html"
                    "069299" ltac:(right; by left) eq_refl eq_refl) "prod11710026").
    reflexivity.
Defined.

Lemma no_query_no_color_code_witness :
  getColorCodeFromUrl (shirt_path ++ "/_/prod11710026")%string = None.
Proof. apply no_query_no_color_code. reflexivity. Defined.

Lemma discount_url_names_the_color_witness :
  ∃ mt, markdown_result black_M "74134" md_query = Some mt
        ∧ getColorCodeFromUrl (discountUrl mt) = Some "74134".
Proof.
  destruct (markdown_result black_M "74134" md_query) as [mt|] eqn:Hmt;
    [|by vm_compute in Hmt].
  exists mt. split; [reflexivity|].
  apply (discount_url_names_the_color black_M "74134" md_query mt Hmt eq_refl).
  intros ps [= <-]. by vm_compute.
Defined.

Lemma mdUrl_inserts_MD_witness :
  mdUrl black_M = (shirt_path ++ "-MD/_/" ++ "prod11710026?color=74134&sz=M")%string
  ∧ getColorCodeFromUrl (mdUrl black_M) = getColorCodeFromUrl (url black_M).
Proof.
  destruct (mdUrl_inserts_MD black_M shirt_path "prod11710026?color=74134&sz=M")
    as [Hmd Hcode]; [reflexivity..|].
  split; [exact Hmd|]. apply Hcode. reflexivity.
Defined.

End MoreInstances.
